(** * tree-log: the identify-tree edge function, the plant_log view and the
      plant detail page, embedded in Rocq

    Sources embedded here:
    - [supabase/functions/identify-tree/index.ts] (the plants/sightings
      handler) and its two older siblings that write the [trees] table;
    - [supabase/migrations/20260102210000_create_plant_log_view.sql];
    - the plant detail page ([load], [save], [startEdit], [cancelEdit],
      [title] and [getRefImageUrl] of [PlantDetailPage]);
    - the log page over [trees] ([load] of [LogPage]);
    - the upload page ([toJpeg] and [uploadToSupabase] of [UploadPage]).

    JavaScript strings are sequences of UTF-16 code units, JSON payloads are
    a small value type with JavaScript's truthiness and property lookup, the
    database is a record of tables (lists of rows) threaded through every
    handler. *)

From Stdlib Require Import List NArith ZArith Bool Lia String Ascii DecimalString.
From Stdlib Require Import Sorting.Sorted Sorting.Permutation.
Import ListNotations.

Set Implicit Arguments.
Set Warnings "-register-all".
Open Scope N_scope.

(* ===================================================================== *)
(** ** JavaScript strings *)
(* ===================================================================== *)

(** A string is its list of UTF-16 code units (each below 65536). *)
Definition jstring := list N.

(** An ASCII literal as a JavaScript string. *)
Definition lit (s : string) : jstring :=
  map N_of_ascii (list_ascii_of_string s).

Definition jstring_eqb (a b : jstring) : bool :=
  if list_eq_dec N.eq_dec a b then true else false.

(** [\s] of a regular expression and the set [String.prototype.trim] strips:
    WhiteSpace and LineTerminator of ECMAScript. *)
Definition is_space (c : N) : bool :=
  ((9 <=? c) && (c <=? 13)) || (c =? 32) || (c =? 160) || (c =? 5760)
  || ((8192 <=? c) && (c <=? 8202)) || (c =? 8232) || (c =? 8233)
  || (c =? 8239) || (c =? 8287) || (c =? 12288) || (c =? 65279).

(** The character class [a-z0-9-]. *)
Definition is_slug_char (c : N) : bool :=
  ((97 <=? c) && (c <=? 122)) || ((48 <=? c) && (c <=? 57)) || (c =? 45).

Definition is_ascii (c : N) : bool := c <? 128.

(** Lower-casing of one ASCII code unit: [A-Z] moves to [a-z]. *)
Definition ascii_lower (c : N) : N :=
  if (65 <=? c) && (c <=? 90) then c + 32 else c.

Definition hyphen : N := 45.

Fixpoint drop_spaces (s : jstring) : jstring :=
  match s with
  | c :: t => if is_space c then drop_spaces t else s
  | [] => []
  end.

(** [s.trim()] *)
Definition trim (s : jstring) : jstring :=
  rev (drop_spaces (rev (drop_spaces s))).

(** [s.replace(/\s+/g, "-")]: every maximal run of white space becomes one
    hyphen. [in_run] tells that the previous code unit was white space. *)
Fixpoint hyphenate_from (in_run : bool) (s : jstring) : jstring :=
  match s with
  | [] => []
  | c :: t =>
      if is_space c
      then (if in_run then hyphenate_from true t
            else hyphen :: hyphenate_from true t)
      else c :: hyphenate_from false t
  end.

Definition hyphenate (s : jstring) : jstring := hyphenate_from false s.

(** [s.replace(/[^a-z0-9-]/g, "")] *)
Definition keep_slug_chars (s : jstring) : jstring := filter is_slug_char s.

(** Decimal digits of a natural number, as in a template literal. *)
Definition decimal (n : N) : jstring :=
  lit (NilZero.string_of_uint (N.to_uint n)).

(* ===================================================================== *)
(** ** What the JavaScript engine provides *)
(* ===================================================================== *)

(** Exceptions the handlers can meet. *)
Inductive exn :=
| FetchRejected (msg : jstring)   (* fetch rejected, not by the abort signal *)
| BodyUnreadable (msg : jstring)  (* blob() rejected *)
| NotCallable                     (* x.map where x has no map method *)
| NullishAccess.                  (* property read on null or undefined *)

(** Built-ins of the engine that the repository does not define: Unicode
    lower-casing, numbers (IEEE doubles) and the text of an error. Of
    [toLowerCase] only its behaviour on ASCII-only strings is fixed here. *)
Class Engine := {
  toLowerCase : jstring -> jstring;
  toLowerCase_ascii :
    forall s, forallb is_ascii s = true -> toLowerCase s = map ascii_lower s;
  number : Type;
  number_truthy : number -> bool;          (* not 0, not NaN *)
  number_to_string : number -> jstring;    (* String(n) *)
  number_of_N : N -> number;
  exn_to_string : exn -> jstring           (* String(err) *)
}.

Section Slug.
Context {E : Engine}.

(** [slugifyKey] of index.ts, lines 13-19. *)
Definition slugifyKey (s : jstring) : jstring :=
  keep_slug_chars (hyphenate (trim (toLowerCase s))).

End Slug.

(* ===================================================================== *)
(** ** JavaScript values *)
(* ===================================================================== *)

Section Values.
Context {E : Engine}.

(** What [JSON.parse] yields, plus [undefined]. An object is its list of
    own properties; the first entry for a name is the property. *)
Inductive value :=
| VUndef
| VNull
| VBool (b : bool)
| VNum (n : number)
| VStr (s : jstring)
| VArr (items : list value)
| VObj (props : list (jstring * value)).

Fixpoint lookup (k : jstring) (props : list (jstring * value)) : value :=
  match props with
  | [] => VUndef
  | (k', v) :: rest => if jstring_eqb k k' then v else lookup k rest
  end.

(** [v?.name] for the property names the handlers read. None of them is
    [length] or a method, so only a plain object answers. *)
Definition get (v : value) (name : string) : value :=
  match v with
  | VObj props => lookup (lit name) props
  | _ => VUndef
  end.

(** [v?.[i]]: an array element, a character of a string, or the property
    named by the digits of [i]. *)
Definition get_index (v : value) (i : nat) : value :=
  match v with
  | VArr items => nth i items VUndef
  | VStr s => match nth_error s i with Some c => VStr [c] | None => VUndef end
  | VObj props => lookup (decimal (N.of_nat i)) props
  | _ => VUndef
  end.

(** ToBoolean. *)
Definition truthy (v : value) : bool :=
  match v with
  | VUndef | VNull => false
  | VBool b => b
  | VNum n => number_truthy n
  | VStr s => negb (jstring_eqb s [])
  | VArr _ | VObj _ => true
  end.

(** [a || b] and [a ?? b]. *)
Definition or_else (a b : value) : value := if truthy a then a else b.

Definition nullish (v : value) : bool :=
  match v with VUndef | VNull => true | _ => false end.

Definition coalesce (a b : value) : value := if nullish a then b else a.

Definition is_undef (v : value) : bool :=
  match v with VUndef => true | _ => false end.

Definition is_number (v : value) : bool :=
  match v with VNum _ => true | _ => false end.

Definition is_string (v : value) : bool :=
  match v with VStr _ => true | _ => false end.

Definition is_array (v : value) : bool :=
  match v with VArr _ => true | _ => false end.

(** [String(v)]. Array elements are joined with commas, [null] and
    [undefined] elements as the empty string. *)
Fixpoint to_string (v : value) : jstring :=
  match v with
  | VUndef => lit "undefined"
  | VNull => lit "null"
  | VBool true => lit "true"
  | VBool false => lit "false"
  | VNum n => number_to_string n
  | VStr s => s
  | VArr items =>
      (fix join (l : list value) : jstring :=
         match l with
         | [] => []
         | x :: rest =>
             (if nullish x then [] else to_string x)
             ++ match rest with [] => [] | _ :: _ => lit "," ++ join rest end
         end) items
  | VObj _ => lit "[object Object]"
  end.

(** The value a JSON body carries for [v]: properties whose value is
    [undefined] are left out of an object, and an [undefined] array element
    is written as [null]. Numbers stay: they come from parsed JSON or from
    a status code, so they are finite. *)
Fixpoint to_json (v : value) : value :=
  match v with
  | VArr items =>
      VArr (map (fun x => if is_undef x then VNull else to_json x) items)
  | VObj props =>
      VObj ((fix go (l : list (jstring * value)) : list (jstring * value) :=
               match l with
               | [] => []
               | (k, x) :: rest =>
                   if is_undef x then go rest else (k, to_json x) :: go rest
               end) props)
  | _ => v
  end.

End Values.

(* ===================================================================== *)
(** ** Small string helpers used by the handlers *)
(* ===================================================================== *)

Fixpoint starts_with (pat s : jstring) : bool :=
  match pat, s with
  | [], _ => true
  | p :: pat', c :: s' => (p =? c) && starts_with pat' s'
  | _ :: _, [] => false
  end.

(** [s.includes(pat)] *)
Fixpoint includes (pat s : jstring) : bool :=
  starts_with pat s
  || match s with [] => false | _ :: t => includes pat t end.

(** [s.replace(pat, rep)] with a string pattern: the first occurrence only. *)
Fixpoint replace_first (pat rep s : jstring) : jstring :=
  if starts_with pat s then rep ++ skipn (List.length pat) s
  else match s with [] => [] | c :: t => c :: replace_first pat rep t end.

(** [items.join(sep)] *)
Fixpoint join (sep : jstring) (items : list jstring) : jstring :=
  match items with
  | [] => []
  | [x] => x
  | x :: rest => x ++ sep ++ join sep rest
  end.

(** The rewrite every handler applies to a localhost image URL. *)
Definition dockerize (url : jstring) : jstring :=
  replace_first (lit "http://localhost:54321")
    (lit "http://host.docker.internal:54321")
    (replace_first (lit "http://127.0.0.1:54321")
       (lit "http://host.docker.internal:54321") url).

(* ===================================================================== *)
(** ** The database *)
(* ===================================================================== *)

Section Database.
Context {E : Engine}.

(** How the database writes generated values back to a client, and how it
    stores a JSON array or object in a text column (its JSON text). *)
Class Wire := {
  id_json : N -> value;
  timestamp_json : Z -> value;
  json_text : value -> jstring
}.
Context {W : Wire}.

(** [trees], as created by the first migration. *)
Record tree_row := {
  t_id : N;
  t_created_at : Z;
  t_image_path : option jstring;
  t_image_url : option jstring;
  t_lat : option number;
  t_lng : option number;
  t_identified_name : option jstring;
  t_scientific_name : option jstring;
  t_genus : option jstring;
  t_family : option jstring;
  t_common_names : option (list (option jstring));
  t_gbif_id : option jstring;
  t_powo_id : option jstring;
  t_iucn_category : option jstring;
  t_confidence : option number;
  t_features : option (list (option jstring))
}.

(** Modelled from the spec: the migration that creates [plants] is not
    under src/. The spec has one row per species key, with taxonomy,
    reference images and the raw payload, "upserted on conflict by key";
    the columns are the ones the handler writes. Taxonomy and JSON columns
    hold the JSON value the request carried, [VNull] standing for SQL
    NULL. *)
Record plant_row := {
  p_id : N;
  p_key : jstring;
  p_key_lc : jstring;
  p_common_name : value;
  p_scientific_name : value;
  p_family : value;
  p_genus : value;
  p_reference_images : value;
  p_plant_details : value;
  p_updated_at : option Z
}.

(** Modelled from the spec: the migration that creates [sightings] is not
    under src/. One row per identification event, pointing at a plant,
    with the image, location and confidence of the event. *)
Record sighting_row := {
  s_id : N;
  s_created_at : Z;
  s_plant_id : N;
  s_image_url : value;
  s_lat : value;
  s_lng : value;
  s_confidence : value
}.

(** Modelled from the spec: the migration that creates [tree_entries] is
    not under src/. The notes of the detail page, keyed by plant key; the
    columns are the ones the page writes. *)
Record entry_row := {
  n_key : jstring;
  n_display_name : option jstring;
  n_notes : option jstring;
  n_updated_at : option Z
}.

Record database := {
  trees : list tree_row;
  plants : list plant_row;
  sightings : list sighting_row;
  tree_entries : list entry_row;
  next_id : N            (* the next generated row id *)
}.

Definition empty_database : database :=
  {| trees := []; plants := []; sightings := []; tree_entries := [];
     next_id := 1 |}.

(** JSON to SQL coercions of an insert into typed columns. *)
Definition sql_text (v : value) : option jstring :=
  match v with
  | VUndef | VNull => None
  | VStr s => Some s
  | VBool _ | VNum _ => Some (to_string v)
  | VArr _ | VObj _ => Some (json_text (to_json v))
  end.

Definition sql_double (v : value) : option number :=
  match v with VNum n => Some n | _ => None end.

Definition sql_text_array (v : value) : option (list (option jstring)) :=
  match v with VArr items => Some (map sql_text items) | _ => None end.

(** A column of the request body: a property whose value is [undefined] is
    not in the JSON text, so the column keeps [old] (the stored value on an
    update, the column default on an insert). *)
Definition sent (v old : value) : value :=
  if is_undef v then old else to_json v.

(** The object passed to [from("plants").upsert]. *)
Record plant_payload := {
  pp_key : jstring;
  pp_key_lc : jstring;
  pp_common_name : value;
  pp_scientific_name : value;
  pp_family : value;
  pp_genus : value;
  pp_reference_images : value;
  pp_plant_details : value;
  pp_updated_at : option Z
}.

Definition plant_of_payload (id : N) (p : plant_payload) : plant_row :=
  {| p_id := id;
     p_key := pp_key p;
     p_key_lc := pp_key_lc p;
     p_common_name := sent (pp_common_name p) VNull;
     p_scientific_name := sent (pp_scientific_name p) VNull;
     p_family := sent (pp_family p) VNull;
     p_genus := sent (pp_genus p) VNull;
     p_reference_images := sent (pp_reference_images p) VNull;
     p_plant_details := sent (pp_plant_details p) VNull;
     p_updated_at := pp_updated_at p |}.

(** ON CONFLICT (key) DO UPDATE: the columns of the request overwrite the
    stored ones, the id stays. *)
Definition merge_plant (p : plant_payload) (r : plant_row) : plant_row :=
  {| p_id := p_id r;
     p_key := pp_key p;
     p_key_lc := pp_key_lc p;
     p_common_name := sent (pp_common_name p) (p_common_name r);
     p_scientific_name := sent (pp_scientific_name p) (p_scientific_name r);
     p_family := sent (pp_family p) (p_family r);
     p_genus := sent (pp_genus p) (p_genus r);
     p_reference_images :=
       sent (pp_reference_images p) (p_reference_images r);
     p_plant_details := sent (pp_plant_details p) (p_plant_details r);
     p_updated_at :=
       match pp_updated_at p with Some t => Some t | None => p_updated_at r end
  |}.

Definition has_key (k : jstring) (r : plant_row) : bool :=
  jstring_eqb (p_key r) k.

(** The rows after [upsert(p, { onConflict: "key" })]: a stored row with
    the key is updated in place, otherwise a new row is appended. *)
Definition upsert_plant_rows (id : N) (p : plant_payload)
    (rows : list plant_row) : list plant_row :=
  if existsb (has_key (pp_key p)) rows
  then map (fun r => if has_key (pp_key p) r then merge_plant p r else r) rows
  else rows ++ [plant_of_payload id p].

Definition has_entry_key (k : jstring) (r : entry_row) : bool :=
  jstring_eqb (n_key r) k.

Definition upsert_entry_rows (e : entry_row) (rows : list entry_row)
    : list entry_row :=
  if existsb (has_entry_key (n_key e)) rows
  then map (fun r => if has_entry_key (n_key e) r then e else r) rows
  else rows ++ [e].

End Database.

(* ===================================================================== *)
(** ** Requests, the outside world and the handler monad *)
(* ===================================================================== *)

Section Handlers.
Context {E : Engine} {W : Wire}.

Inductive http_method := OPTIONS | POST | OtherMethod.

(** How a remote server answers a fetch: after [t] milliseconds it either
    sends a response with a status or the connection fails. [None] is a
    server that never answers. *)
Inductive settle :=
| Responds (status : N)
| Rejects (msg : jstring).

Definition server := option (N * settle).

(** What [await fetch(url, { signal })] gives under a timer that aborts the
    signal after [timeout] milliseconds. *)
Inductive fetched :=
| Resolved (status : N)
| Aborted
| Rejected (msg : jstring).

(** The result and the time spent waiting for it. *)
Definition fetch_with_timeout (timeout : N) (srv : server) : fetched * N :=
  match srv with
  | Some (t, r) =>
      if t <? timeout
      then (match r with
            | Responds st => Resolved st
            | Rejects m => Rejected m
            end, t)
      else (Aborted, timeout)
  | None => (Aborted, timeout)
  end.

(** [res.ok] *)
Definition http_ok (status : N) : bool := (200 <=? status) && (status <=? 299).

(** What [await imgRes.blob()] yields when it settles. Whether it settles,
    and when, is not said here: see [pace]. *)
Inductive blob_read :=
| BlobOk (type : jstring)
| BlobFails (msg : jstring).

(** One request together with everything the outside world answers while it
    is served. A database call fails with the error object given here. The
    record says what each await yields; how long the awaits that run
    without a timer take (the reads of the three bodies and the database
    calls), and whether they settle at all, is the [pace] of the request,
    and [settles_after] puts the two together. *)
Record env := {
  req_method : http_method;
  req_json : option value;            (* None: req.json() rejects *)
  plantnet_key : option jstring;      (* Deno.env.get("PLANTNET_KEY") *)
  supabase_env : bool;                (* URL and service key both set *)
  image_server : server;
  image_content_type : option jstring;
  image_blob : blob_read;
  plantnet_server : server;
  plantnet_json : option value;       (* None: idRes.json() rejects *)
  first_upsert_error : option value;
  upsert_error : option value;
  insert_error : option value;
  now : Z
}.

(** Calls that leave the process. *)
Inductive event :=
| FetchImage (url : jstring) (waited : N)
| CallPlantNet (filename : jstring) (organs : value) (waited : N).

Record response := { status : N; body : value }.

Record world := { db : database; trace : list event }.

(** A handler step continues with a value, returns a response, or throws. *)
Inductive step (A : Type) :=
| Next (a : A)
| Reply (r : response)
| Raise (x : exn).
Arguments Next {A} a.
Arguments Reply {A} r.
Arguments Raise {A} x.

Definition M (A : Type) := world -> step A * world.

Definition ret {A} (a : A) : M A := fun w => (Next a, w).

Definition bind {A B} (m : M A) (k : A -> M B) : M B :=
  fun w =>
    match m w with
    | (Next a, w') => k a w'
    | (Reply r, w') => (Reply r, w')
    | (Raise x, w') => (Raise x, w')
    end.

Definition reply {A} (r : response) : M A := fun w => (Reply r, w).

Definition raise {A} (x : exn) : M A := fun w => (Raise x, w).

(** [try { m } catch (err) { h err }] *)
Definition try_catch {A} (m : M A) (h : exn -> M A) : M A :=
  fun w =>
    match m w with
    | (Raise x, w') => h x w'
    | other => other
    end.

Definition emit (ev : event) : M unit :=
  fun w => (Next tt, {| db := db w; trace := trace w ++ [ev] |}).

Definition read_db : M database := fun w => (Next (db w), w).

Definition write_db (d : database) : M unit :=
  fun w => (Next tt, {| db := d; trace := trace w |}).

Notation "x <- m ;; k" := (bind m (fun x => k))
  (at level 61, m at next level, right associativity).
Notation "m ;;; k" := (bind m (fun _ => k))
  (at level 61, right associativity).

(** [Deno.serve]: the response of the handler; an exception that escapes it
    is answered with a plain 500. *)
Definition serve (h : M response) (d : database) : response * world :=
  match h {| db := d; trace := [] |} with
  | (Next r, w) => (r, w)
  | (Reply r, w) => (r, w)
  | (Raise _, w) =>
      ({| status := 500; body := VStr (lit "Internal Server Error") |}, w)
  end.

Definition json_response (st : N) (props : list (string * value)) : response :=
  {| status := st;
     body := VObj (map (fun kv => (lit (fst kv), snd kv)) props) |}.

Definition error_response (st : N) (msg : jstring) : response :=
  json_response st [("error"%string, VStr msg)].

(** *** Database calls *)

Inductive db_result (A : Type) :=
| DbOk (data : A)
| DbError (error : value).
Arguments DbOk {A} data.
Arguments DbError {A} error.

(** The database after a successful upsert of [p] into [plants]. *)
Definition with_upsert (p : plant_payload) (d : database) : database :=
  {| trees := trees d;
     plants := upsert_plant_rows (next_id d) p (plants d);
     sightings := sightings d;
     tree_entries := tree_entries d;
     next_id := next_id d + 1 |}.

(** The id of the row an upsert of key [k] writes: the stored row's, or a
    fresh one. *)
Definition upserted_id (k : jstring) (d : database) : N :=
  match find (has_key k) (plants d) with
  | Some r => p_id r
  | None => next_id d
  end.

(** [from("plants").upsert(p, { onConflict: "key" }).select("id").single()] *)
Definition plants_upsert (err : option value) (p : plant_payload)
    : M (db_result N) :=
  match err with
  | Some error => ret (DbError error)
  | None =>
      d <- read_db ;;
      write_db (with_upsert p d) ;;;
      ret (DbOk (upserted_id (pp_key p) d))
  end.

Definition with_sighting (row : sighting_row) (d : database) : database :=
  {| trees := trees d; plants := plants d;
     sightings := sightings d ++ [row];
     tree_entries := tree_entries d;
     next_id := next_id d + 1 |}.

(** The row of [from("sightings").insert({ plant_id, image_url, lat, lng,
    confidence })]. *)
Definition sighting_of (id : N) (created : Z) (plant : N)
    (image_url lat lng confidence : value) : sighting_row :=
  {| s_id := id; s_created_at := created;
     s_plant_id := plant;
     s_image_url := sent image_url VNull;
     s_lat := sent lat VNull;
     s_lng := sent lng VNull;
     s_confidence := sent confidence VNull |}.

(** [from("sightings").insert(row).select("id, created_at").single()].
    The insert itself does not look the plant up. *)
Definition sightings_insert (err : option value) (created : Z)
    (plant : N) (image_url lat lng confidence : value)
    : M (db_result (N * Z)) :=
  match err with
  | Some error => ret (DbError error)
  | None =>
      d <- read_db ;;
      write_db
        (with_sighting
           (sighting_of (next_id d) created plant image_url lat lng
              confidence) d) ;;;
      ret (DbOk (next_id d, created))
  end.

Definition with_tree (row : tree_row) (d : database) : database :=
  {| trees := trees d ++ [row];
     plants := plants d;
     sightings := sightings d;
     tree_entries := tree_entries d;
     next_id := next_id d + 1 |}.

(** [from("trees").insert(row).select("id, created_at").single()]; [row]
    gets its id and creation time from the column defaults. *)
Definition trees_insert (err : option value) (created : Z)
    (row : N -> Z -> tree_row) : M (db_result (N * Z)) :=
  match err with
  | Some error => ret (DbError error)
  | None =>
      d <- read_db ;;
      write_db (with_tree (row (next_id d) created) d) ;;;
      ret (DbOk (next_id d, created))
  end.

(** *** Steps shared by the handlers *)

Definition validOrgans : list jstring :=
  map lit ["leaf"; "flower"; "fruit"; "bark"; "auto"]%string.

(** [validOrgans.includes(organ)] *)
Definition is_valid_organ (organ : value) : bool :=
  match organ with
  | VStr s => existsb (jstring_eqb s) validOrgans
  | _ => false
  end.

Definition invalid_organ_response : response :=
  error_response 400
    (lit "Invalid organ type. Must be one of: "
     ++ join (lit ", ") validOrgans).

Definition image_timeout_ms : N := 15000.
Definition plantnet_timeout_ms : N := 30000.

Definition or_string (s alt : jstring) : jstring :=
  match s with [] => alt | _ :: _ => s end.

(** Step 1, the image download; yields the file extension. The older
    handlers catch a failing [blob()] themselves ([guarded]). *)
Definition download_image (guarded : bool) (url : jstring) (e : env)
    : M jstring :=
  let (res, waited) := fetch_with_timeout image_timeout_ms (image_server e) in
  emit (FetchImage url waited) ;;;
  match res with
  | Aborted =>
      reply (error_response 408 (lit "Image fetch timeout after 15 seconds"))
  | Rejected msg => raise (FetchRejected msg)
  | Resolved st =>
      if negb (http_ok st)
      then reply (error_response 400
                    (lit "Could not fetch imageUrl (HTTP " ++ decimal st
                     ++ lit ")"))
      else
        match image_blob e with
        | BlobFails msg =>
            if guarded
            then reply (error_response 400
                          (lit "Failed to read image data from URL"))
            else raise (BodyUnreadable msg)
        | BlobOk blob_type =>
            let contentType :=
              or_string
                (match image_content_type e with Some h => h | None => [] end)
                (or_string blob_type (lit "image/jpeg")) in
            ret (if includes (lit "png") contentType then lit "png"
                 else if includes (lit "webp") contentType then lit "webp"
                 else lit "jpg")
        end
  end.

(** Step 2, the PlantNet call; yields the parsed answer [raw]. *)
Definition ask_plantnet (extension : jstring) (organ : value) (e : env)
    : M value :=
  let (res, waited) :=
    fetch_with_timeout plantnet_timeout_ms (plantnet_server e) in
  emit (CallPlantNet (lit "tree." ++ extension) organ waited) ;;;
  match res with
  | Aborted =>
      reply (error_response 408 (lit "PlantNet API timeout after 30 seconds"))
  | Rejected msg => raise (FetchRejected msg)
  | Resolved st =>
      let raw := match plantnet_json e with Some v => v | None => VObj [] end in
      if negb (http_ok st)
      then reply (json_response 502
                    [("error", VStr (lit "PlantNet request failed"));
                     ("status", VNum (number_of_N st));
                     ("details", raw)]%string)
      else ret raw
  end.

Definition unexpected_error (x : exn) : response :=
  json_response 500
    [("error", VStr (lit "Unexpected server error"));
     ("details", VStr (exn_to_string x))]%string.

Definition number_or_null (v : value) : value :=
  if is_number v then v else VNull.

(** [v ? String(v) : null] *)
Definition string_or_null (v : value) : value :=
  if truthy v then VStr (to_string v) else VNull.

(* ===================================================================== *)
(** ** identify-tree/index.ts: the plants and sightings handler *)
(* ===================================================================== *)

Fixpoint map_m {A B} (f : A -> M B) (l : list A) : M (list B) :=
  match l with
  | [] => ret []
  | x :: rest => y <- f x ;; ys <- map_m f rest ;; ret (y :: ys)
  end.

(** The callback of [best.images.map], lines 219-226. Reading [img.organ]
    of [null] or [undefined] throws. *)
Definition reference_image (img : value) : M value :=
  if nullish img then raise NullishAccess
  else
    let url := get img "url" in
    ret (VObj [(lit "organ", get img "organ");
               (lit "author", get img "author");
               (lit "license", get img "license");
               (lit "citation", get img "citation");
               (lit "url",
                 or_else (get url "m")
                   (or_else (get url "s") (or_else (get url "o") VNull)));
               (lit "urls", coalesce url VNull)]).

(** [(best?.images ?? []).map(...)]: only an array has [map]. *)
Definition referenceImages (best : value) : M value :=
  match coalesce (get best "images") (VArr []) with
  | VArr items => imgs <- map_m reference_image items ;; ret (VArr imgs)
  | _ => raise NotCallable
  end.

(** Lines 197-201. *)
Definition commonName (best : value) : value :=
  let species := get best "species" in
  or_else (get_index (get species "commonNames") 0)
    (or_else (get species "scientificNameWithoutAuthor")
       (or_else (get species "scientificName") (VStr (lit "Unknown")))).

(** Lines 203-204. *)
Definition scientificName (best : value) : value :=
  let species := get best "species" in
  or_else (get species "scientificName")
    (or_else (get species "scientificNameWithoutAuthor") VNull).

(** Lines 229-234: the string the key is made from. *)
Definition rawKey (best : value) : value :=
  let species := get best "species" in
  or_else (get species "scientificNameWithoutAuthor")
    (or_else (get species "scientificName")
       (or_else (commonName best) (VStr (lit "unknown")))).

(** Line 235. *)
Definition plantKey (best : value) : jstring :=
  slugifyKey (to_string (rawKey best)).

(** Lines 236-239. *)
Definition plantKeyLc (key : jstring) : jstring :=
  hyphenate (toLowerCase (trim key)).

(** Everything lines 194-239 compute from the best match. *)
Record identification := {
  i_best : value;
  i_commonName : value;
  i_scientificName : value;
  i_family : value;
  i_genus : value;
  i_commonNames : value;
  i_gbifId : value;
  i_powoId : value;
  i_iucnCategory : value;
  i_confidence : value;
  i_referenceImages : value;
  i_plantKey : jstring
}.

Definition identification_of (raw : value) : M identification :=
  let best := get_index (get raw "results") 0 in
  let species := get best "species" in
  images <- referenceImages best ;;
  ret {| i_best := best;
         i_commonName := commonName best;
         i_scientificName := scientificName best;
         i_family :=
           or_else (get (get species "family") "scientificNameWithoutAuthor")
             VNull;
         i_genus :=
           or_else (get (get species "genus") "scientificNameWithoutAuthor")
             VNull;
         i_commonNames :=
           if is_array (get species "commonNames")
           then get species "commonNames" else VArr [];
         i_gbifId := string_or_null (get (get best "gbif") "id");
         i_powoId := string_or_null (get (get best "powo") "id");
         i_iucnCategory := string_or_null (get (get best "iucn") "category");
         i_confidence := number_or_null (get best "score");
         i_referenceImages := images;
         i_plantKey := plantKey best |}.

(** The two upsert payloads, lines 242-251 and 259-269. *)
Definition first_payload (i : identification) : plant_payload :=
  {| pp_key := i_plantKey i;
     pp_key_lc := plantKeyLc (i_plantKey i);
     pp_common_name := i_commonName i;
     pp_scientific_name := i_scientificName i;
     pp_family := i_family i;
     pp_genus := i_genus i;
     pp_reference_images := i_referenceImages i;
     pp_plant_details := i_best i;
     pp_updated_at := None |}.

Definition second_payload (i : identification) (t : Z) : plant_payload :=
  {| pp_key := i_plantKey i;
     pp_key_lc := toLowerCase (i_plantKey i);
     pp_common_name := i_commonName i;
     pp_scientific_name := i_scientificName i;
     pp_family := i_family i;
     pp_genus := i_genus i;
     pp_reference_images := i_referenceImages i;
     pp_plant_details := i_best i;
     pp_updated_at := Some t |}.

(** Lines 303-323. *)
Definition success_response (i : identification) (id : N) (created : Z)
    : response :=
  json_response 200
    [("key", VStr (i_plantKey i));
     ("id", id_json id);
     ("created_at", timestamp_json created);
     ("name", i_commonName i);
     ("commonName", i_commonName i);
     ("scientificName", i_scientificName i);
     ("genus", i_genus i);
     ("family", i_family i);
     ("commonNames", i_commonNames i);
     ("gbifId", i_gbifId i);
     ("powoId", i_powoId i);
     ("iucnCategory", i_iucnCategory i);
     ("confidence", i_confidence i);
     ("features", VArr []);
     ("referenceImages", i_referenceImages i);
     ("rawTop", i_best i)]%string.

(** What the request checks of lines 44-106 hand to the rest. *)
Record checked := {
  c_imageUrl : value;
  c_lat : value;
  c_lng : value;
  c_normalizedImageUrl : jstring;
  c_organ : value
}.

(** Method and body checks, the same in every handler. *)
Definition read_body (e : env) : M value :=
  match req_method e with
  | OPTIONS => reply {| status := 204; body := VNull |}
  | OtherMethod => reply (error_response 405 (lit "Method not allowed"))
  | POST =>
      match req_json e with
      | None => reply (error_response 400 (lit "Invalid JSON body"))
      | Some body => ret body
      end
  end.

Definition missing_image_url : response :=
  error_response 400 (lit "Missing required field: imageUrl").

(** PLANTNET_KEY, then (in the handlers that create their client per
    request) the Supabase settings, then the organ. Yields the organ. *)
Definition check_settings (with_supabase : bool) (e : env) (body : value)
    : M value :=
  match plantnet_key e with
  | None | Some [] =>
      reply (error_response 500
               (lit "Server misconfigured: missing PLANTNET_KEY"))
  | Some (_ :: _) =>
      if with_supabase && negb (supabase_env e)
      then reply (error_response 500
                    (lit "Server misconfigured: missing Supabase env"))
      else
        let organ := or_else (get body "organ") (VStr (lit "leaf")) in
        if negb (is_valid_organ organ) then reply invalid_organ_response
        else ret organ
  end.

(** Lines 44-106: method, body, imageUrl, PLANTNET_KEY and organ. *)
Definition check_request (e : env) : M checked :=
  body <- read_body e ;;
  let imageUrl := get body "imageUrl" in
  let lat := number_or_null (get body "lat") in
  let lng := number_or_null (get body "lng") in
  if negb (truthy imageUrl) || negb (is_string imageUrl)
  then reply missing_image_url
  else
    let normalizedImageUrl := dockerize (to_string imageUrl) in
    organ <- check_settings false e body ;;
    ret {| c_imageUrl := imageUrl; c_lat := lat; c_lng := lng;
           c_normalizedImageUrl := normalizedImageUrl;
           c_organ := organ |}.

(** Steps 4 and 5 and the response, lines 241-323. *)
Definition store_identification (e : env) (c : checked) (i : identification)
    : M response :=
  plants_upsert (first_upsert_error e) (first_payload i) ;;;
  plant <- plants_upsert (upsert_error e) (second_payload i (now e)) ;;
  match plant with
  | DbError plantError =>
      reply (json_response 500
               [("error", VStr (lit "Plant upsert failed"));
                ("details", plantError)]%string)
  | DbOk plant_id =>
      inserted <- sightings_insert (insert_error e) (now e) plant_id
                    (c_imageUrl c) (c_lat c) (c_lng c) (i_confidence i) ;;
      match inserted with
      | DbError error =>
          reply (json_response 500
                   [("error", VStr (lit "Sighting insert failed"));
                    ("details", error)]%string)
      | DbOk (id, created) => reply (success_response i id created)
      end
  end.

(** Steps 1 and 2, lines 109-191: the parsed PlantNet answer. *)
Definition fetch_answer (e : env) (c : checked) : M value :=
  extension <- download_image false (c_normalizedImageUrl c) e ;;
  ask_plantnet extension (c_organ c) e.

(** The handler passed to [Deno.serve], lines 43-330. *)
Definition identify_tree (e : env) : M response :=
  c <- check_request e ;;
  try_catch
    (raw <- fetch_answer e c ;;
     i <- identification_of raw ;;
     store_identification e c i)
    (fun err => reply (unexpected_error err)).

(** *** Derived views of a request *)

Definition blank : world := {| db := empty_database; trace := [] |}.

(** The checked request and PlantNet's answer, for a request that gets
    that far: the first two steps of [identify_tree]. *)
Definition answered (e : env) : option (checked * value) :=
  match check_request e blank with
  | (Next c, w) =>
      match fetch_answer e c w with
      | (Next raw, _) => Some (c, raw)
      | _ => None
      end
  | _ => None
  end.

(** The identification of a request that reaches the database calls. *)
Definition identified (e : env) : option (checked * identification) :=
  match answered e with
  | Some (c, raw) =>
      match identification_of raw blank with
      | (Next i, _) => Some (c, i)
      | _ => None
      end
  | None => None
  end.


(** The server sends a response with status [st] before the timer
    fires. *)
Definition answers_within (timeout : N) (srv : server) (st : N) : Prop :=
  exists t, srv = Some (t, Responds st) /\ t < timeout.

(** What [identification_of] yields when there is no best match. *)
Definition unknown_plant : identification :=
  {| i_best := VUndef;
     i_commonName := VStr (lit "Unknown");
     i_scientificName := VNull;
     i_family := VNull;
     i_genus := VNull;
     i_commonNames := VArr [];
     i_gbifId := VNull;
     i_powoId := VNull;
     i_iucnCategory := VNull;
     i_confidence := VNull;
     i_referenceImages := VArr [];
     i_plantKey := lit "unknown" |}.

(** The calls [identify_tree] makes before it turns to the database. *)
Definition calls (e : env) : list event :=
  match check_request e blank with
  | (Next c, w) => trace (snd (fetch_answer e c w))
  | _ => []
  end.

(** The database calls of [store_identification], as functions of the
    database: the first upsert (its error is ignored), the second one, the
    sighting. *)
Definition after_first_upsert (e : env) (i : identification) (d : database)
    : database :=
  match first_upsert_error e with
  | None => with_upsert (first_payload i) d
  | Some _ => d
  end.

Definition after_upserts (e : env) (i : identification) (d : database)
    : database :=
  match upsert_error e with
  | None =>
      with_upsert (second_payload i (now e)) (after_first_upsert e i d)
  | Some _ => after_first_upsert e i d
  end.

(** The sighting the request inserts. *)
Definition new_sighting (e : env) (c : checked) (i : identification)
    (d : database) : sighting_row :=
  sighting_of (next_id (after_upserts e i d)) (now e)
    (upserted_id (i_plantKey i) (after_first_upsert e i d))
    (c_imageUrl c) (c_lat c) (c_lng c) (i_confidence i).

Definition stored_db (e : env) (c : checked) (i : identification)
    (d : database) : database :=
  match upsert_error e, insert_error e with
  | None, None => with_sighting (new_sighting e c i d) (after_upserts e i d)
  | _, _ => after_upserts e i d
  end.

Definition stored_response (e : env) (i : identification) (d : database)
    : response :=
  match upsert_error e, insert_error e with
  | Some plantError, _ =>
      json_response 500
        [("error", VStr (lit "Plant upsert failed"));
         ("details", plantError)]%string
  | None, Some error =>
      json_response 500
        [("error", VStr (lit "Sighting insert failed"));
         ("details", error)]%string
  | None, None =>
      success_response i (next_id (after_upserts e i d)) (now e)
  end.

(** A computation that neither reads nor writes the world. *)
Definition silent {A} (m : M A) : Prop :=
  exists s, forall w, m w = (s, w).

(** A computation that only adds calls to the trace. *)
Definition db_free {A} (m : M A) : Prop :=
  exists s evs,
    forall w, m w = (s, {| db := db w; trace := trace w ++ evs |}).

(* ===================================================================== *)
(** ** The older handlers *)
(* ===================================================================== *)

(** The request checks of the two handlers that write [trees]. They call
    [imageUrl.replace] before they look at [imageUrl]: a missing or
    non-string imageUrl throws there, outside any [try]. *)
Definition check_request_trees (e : env) : M checked :=
  body <- read_body e ;;
  let imageUrl := get body "imageUrl" in
  match imageUrl with
  | VUndef | VNull => raise NullishAccess
  | VStr url =>
      let normalizedImageUrl := dockerize url in
      let lat := number_or_null (get body "lat") in
      let lng := number_or_null (get body "lng") in
      if negb (truthy imageUrl) || negb (is_string imageUrl)
      then reply missing_image_url
      else
        organ <- check_settings true e body ;;
        ret {| c_imageUrl := imageUrl; c_lat := lat; c_lng := lng;
               c_normalizedImageUrl := normalizedImageUrl;
               c_organ := organ |}
  | _ => raise NotCallable
  end.

(** The request checks of the handler without a database: it fetches
    [imageUrl] as it is and reads neither lat nor lng. *)
Definition check_request_plain (e : env) : M checked :=
  body <- read_body e ;;
  let imageUrl := get body "imageUrl" in
  if negb (truthy imageUrl) || negb (is_string imageUrl)
  then reply missing_image_url
  else
    organ <- check_settings false e body ;;
    ret {| c_imageUrl := imageUrl; c_lat := VNull; c_lng := VNull;
           c_normalizedImageUrl := to_string imageUrl;
           c_organ := organ |}.

Definition fetch_answer_guarded (e : env) (c : checked) : M value :=
  extension <- download_image true (c_normalizedImageUrl c) e ;;
  ask_plantnet extension (c_organ c) e.

(** [name] of the two oldest handlers: the first truthy name. *)
Definition name_of (best : value) : value :=
  let species := get best "species" in
  or_else (get_index (get species "commonNames") 0)
    (or_else (get species "scientificNameWithoutAuthor")
       (or_else (get species "scientificName") (VStr (lit "Unknown")))).

Definition db_insert_failed (error : value) : response :=
  json_response 500
    [("error", VStr (lit "DB insert failed")); ("details", error)]%string.

(** The handler that only identifies: no database call at all. *)
Definition identify_only (e : env) : M response :=
  c <- check_request_plain e ;;
  try_catch
    (raw <- fetch_answer_guarded e c ;;
     let best := get_index (get raw "results") 0 in
     reply (json_response 200
              [("name", name_of best);
               ("confidence", number_or_null (get best "score"));
               ("features", VArr []);
               ("rawTop", best)]%string))
    (fun err => reply (unexpected_error err)).

(** The first handler with a database: one [trees] row with the name and
    the confidence. *)
Definition identify_basic (e : env) : M response :=
  c <- check_request_trees e ;;
  try_catch
    (raw <- fetch_answer_guarded e c ;;
     let best := get_index (get raw "results") 0 in
     let name := name_of best in
     let confidence := number_or_null (get best "score") in
     inserted <-
       trees_insert (insert_error e) (now e)
         (fun id created =>
            {| t_id := id; t_created_at := created;
               t_image_path := sql_text (c_imageUrl c);
               t_image_url := sql_text (c_imageUrl c);
               t_lat := sql_double (c_lat c);
               t_lng := sql_double (c_lng c);
               t_identified_name := sql_text name;
               t_scientific_name := None;
               t_genus := None;
               t_family := None;
               t_common_names := None;
               t_gbif_id := None;
               t_powo_id := None;
               t_iucn_category := None;
               t_confidence := sql_double confidence;
               t_features := sql_text_array (VArr []) |}) ;;
     match inserted with
     | DbError error => reply (db_insert_failed error)
     | DbOk (id, created) =>
         reply (json_response 200
                  [("id", id_json id);
                   ("created_at", timestamp_json created);
                   ("name", name);
                   ("confidence", confidence);
                   ("features", VArr []);
                   ("rawTop", best)]%string)
     end)
    (fun err => reply (unexpected_error err)).

(** The reference images of the taxonomy handler: at most six, each with
    a url, read with [?.] throughout. *)
Definition reference_image_trees (img : value) : value :=
  let url := get img "url" in
  VObj [(lit "url",
          coalesce (get url "m") (coalesce (get url "o") (get url "s")));
        (lit "urlSmall", coalesce (get url "s") VNull);
        (lit "urlOriginal", coalesce (get url "o") VNull);
        (lit "organ", coalesce (get img "organ") VNull);
        (lit "author", coalesce (get img "author") VNull);
        (lit "license", coalesce (get img "license") VNull);
        (lit "citation", coalesce (get img "citation") VNull)].

Definition reference_images_trees (best : value) : value :=
  match get best "images" with
  | VArr items =>
      VArr (filter (fun x => truthy (get x "url"))
              (map reference_image_trees (firstn 6 items)))
  | _ => VArr []
  end.

(** The handler that stores the taxonomy in [trees]. *)
Definition identify_taxonomy (e : env) : M response :=
  c <- check_request_trees e ;;
  try_catch
    (raw <- fetch_answer_guarded e c ;;
     let best := get_index (get raw "results") 0 in
     let species := get best "species" in
     let commonName :=
       coalesce (get_index (get species "commonNames") 0)
         (coalesce (get species "scientificNameWithoutAuthor")
            (coalesce (get species "scientificName")
               (VStr (lit "Unknown")))) in
     let scientificName :=
       coalesce (get species "scientificNameWithoutAuthor")
         (coalesce (get species "scientificName") VNull) in
     let genus :=
       coalesce (get (get species "genus") "scientificNameWithoutAuthor")
         VNull in
     let family :=
       coalesce (get (get species "family") "scientificNameWithoutAuthor")
         VNull in
     let commonNames :=
       if is_array (get species "commonNames")
       then get species "commonNames" else VArr [] in
     let gbifId := string_or_null (get (get best "gbif") "id") in
     let powoId := string_or_null (get (get best "powo") "id") in
     let iucnCategory := string_or_null (get (get best "iucn") "category") in
     let confidence := number_or_null (get best "score") in
     inserted <-
       trees_insert (insert_error e) (now e)
         (fun id created =>
            {| t_id := id; t_created_at := created;
               t_image_path := sql_text (c_imageUrl c);
               t_image_url := sql_text (c_imageUrl c);
               t_lat := sql_double (c_lat c);
               t_lng := sql_double (c_lng c);
               t_identified_name := sql_text commonName;
               t_scientific_name := sql_text scientificName;
               t_genus := sql_text genus;
               t_family := sql_text family;
               t_common_names := sql_text_array commonNames;
               t_gbif_id := sql_text gbifId;
               t_powo_id := sql_text powoId;
               t_iucn_category := sql_text iucnCategory;
               t_confidence := sql_double confidence;
               t_features := sql_text_array (VArr []) |}) ;;
     match inserted with
     | DbError error => reply (db_insert_failed error)
     | DbOk (id, created) =>
         reply (json_response 200
                  [("id", id_json id);
                   ("created_at", timestamp_json created);
                   ("name", commonName);
                   ("commonName", commonName);
                   ("scientificName", scientificName);
                   ("genus", genus);
                   ("family", family);
                   ("commonNames", commonNames);
                   ("gbifId", gbifId);
                   ("powoId", powoId);
                   ("iucnCategory", iucnCategory);
                   ("confidence", confidence);
                   ("features", VArr []);
                   ("referenceImages", reference_images_trees best);
                   ("rawTop", best)]%string)
     end)
    (fun err => reply (unexpected_error err)).

End Handlers.

Arguments Next {E A} a.
Arguments Reply {E A} r.
Arguments Raise {E A} x.
Arguments DbOk {E A} data.
Arguments DbError {E A} error.

(* ===================================================================== *)
(** ** The plant detail page *)
(* ===================================================================== *)

Section DetailPage.
Context {E : Engine} {W : Wire}.

(** A row of the [plant_log] view as the page selects it. The view with
    these columns is not under src/: what the query answers is part of
    the visit. *)
Record log_row := {
  l_key : jstring;
  l_name : option jstring;
  l_sightings_count : N;
  l_last_seen : option Z;
  l_thumbnail_url : option jstring
}.

(** One mount of the page for [plantKey], with what the backend answers.
    A [Some message] is the error of that call. The effect of unmounting is
    [v_unmounted]: the number of awaits that complete before [cancelled]
    is set. *)
Record visit := {
  v_plantKey : jstring;
  v_log : option log_row;
  v_log_error : option jstring;
  v_entry_error : option jstring;
  v_create_error : option jstring;
  v_plant_error : bool;
  v_unmounted : option nat
}.

Definition cancelled (v : visit) (awaits : nat) : bool :=
  match v_unmounted v with
  | Some n => Nat.ltb n awaits
  | None => false
  end.

(** The React state of [PlantDetailPage]. *)
Record page := {
  loading : bool;
  saving : bool;
  error : option jstring;
  logRow : option log_row;
  entryRow : option entry_row;
  plant : option plant_row;
  isEditing : bool;
  displayName : jstring;
  notes : jstring;
  originalRef : jstring * jstring;
  toast : option jstring
}.

Definition initial_page : page :=
  {| loading := true; saving := false; error := None; logRow := None;
     entryRow := None; plant := None; isEditing := false;
     displayName := []; notes := []; originalRef := ([], []);
     toast := None |}.

Definition set_error (msg : jstring) (p : page) : page :=
  {| loading := false; saving := saving p; error := Some msg;
     logRow := logRow p; entryRow := entryRow p; plant := plant p;
     isEditing := isEditing p; displayName := displayName p;
     notes := notes p; originalRef := originalRef p; toast := toast p |}.

Definition with_entries (rows : list entry_row) (d : database) : database :=
  {| trees := trees d; plants := plants d; sightings := sightings d;
     tree_entries := rows; next_id := next_id d |}.

Definition or_empty (s : option jstring) : jstring :=
  match s with Some x => x | None => [] end.

(** [load] of the effect, lines 117-217 of the page. *)
Definition load (v : visit) (p0 : page) (d : database) : page * database :=
  let p :=
    {| loading := true; saving := saving p0; error := None;
       logRow := logRow p0; entryRow := entryRow p0; plant := plant p0;
       isEditing := false; displayName := displayName p0;
       notes := notes p0; originalRef := originalRef p0;
       toast := toast p0 |} in
  match v_plantKey v with
  | [] =>
      (set_error
         (lit "Missing plant key in URL. Make sure your folder is web/app/plants/[key]/page.tsx (or update useParams accordingly).")
         p, d)
  | _ :: _ =>
  (* 1) the deduplicated log row *)
  if cancelled v 1 then (p, d) else
  match v_log_error v with
  | Some msg => (set_error (lit "Error loading plant_log: " ++ msg) p, d)
  | None =>
  let log := v_log v in
  let p :=
    {| loading := loading p; saving := saving p; error := error p;
       logRow := log; entryRow := entryRow p; plant := plant p;
       isEditing := isEditing p; displayName := displayName p;
       notes := notes p; originalRef := originalRef p; toast := toast p |} in
  (* 2) the notes row; created when missing *)
  if cancelled v 2 then (p, d) else
  match v_entry_error v with
  | Some msg => (set_error (lit "Error loading tree_entries: " ++ msg) p, d)
  | None =>
  let entry := find (has_entry_key (v_plantKey v)) (tree_entries d) in
  let log_name := match log with Some l => l_name l | None => None end in
  let created :=
    {| n_key := v_plantKey v; n_display_name := log_name;
       n_notes := None; n_updated_at := None |} in
  let finish (resolved : entry_row) (d' : database) : page * database :=
    let dn :=
      match n_display_name resolved with
      | Some x => x
      | None => or_empty log_name
      end in
    let nt := or_empty (n_notes resolved) in
    let p :=
      {| loading := loading p; saving := saving p; error := error p;
         logRow := logRow p; entryRow := Some resolved; plant := plant p;
         isEditing := isEditing p; displayName := dn; notes := nt;
         originalRef := (dn, nt); toast := toast p |} in
    (* 3) the plant, by lower-cased key *)
    let keyLc := toLowerCase (v_plantKey v) in
    let plantData :=
      if v_plant_error v then None
      else match filter (fun r => jstring_eqb (p_key_lc r) keyLc)
                   (plants d') with
           | [r] => Some r
           | _ => None
           end in
    if cancelled v (match entry with Some _ => 3 | None => 4 end)%nat
    then (p, d')
    else
      ({| loading := false; saving := saving p; error := error p;
          logRow := logRow p; entryRow := entryRow p; plant := plantData;
          isEditing := isEditing p; displayName := displayName p;
          notes := notes p; originalRef := originalRef p;
          toast := toast p |}, d') in
  match entry with
  | Some resolved => finish resolved d
  | None =>
      match v_create_error v with
      | Some msg =>
          if cancelled v 3 then (p, d)
          else (set_error (lit "Error creating tree_entries row: " ++ msg) p, d)
      | None =>
          let d' := with_entries (tree_entries d ++ [created]) d in
          if cancelled v 3 then (p, d') else finish created d'
      end
  end
  end
  end
  end.

(** What the user typed when pressing Save, and the backend's answer. *)
Record submit := {
  u_plantKey : jstring;
  u_now : Z;
  u_error : option jstring
}.

Definition trimmed_or_null (s : jstring) : option jstring :=
  match trim s with
  | [] => None
  | _ :: _ => Some (trim s)
  end.

(** [save], lines 237-270 of the page. *)
Definition save (u : submit) (p : page) (d : database) : page * database :=
  let payload :=
    {| n_key := u_plantKey u;
       n_display_name := trimmed_or_null (displayName p);
       n_notes := trimmed_or_null (notes p);
       n_updated_at := Some (u_now u) |} in
  match u_error u with
  | Some msg =>
      ({| loading := loading p; saving := false;
          error := Some (lit "Save failed: " ++ msg);
          logRow := logRow p; entryRow := entryRow p; plant := plant p;
          isEditing := isEditing p; displayName := displayName p;
          notes := notes p; originalRef := originalRef p;
          toast := toast p |}, d)
  | None =>
      let d' := with_entries (upsert_entry_rows payload (tree_entries d)) d in
      ({| loading := loading p; saving := false; error := None;
          logRow := logRow p; entryRow := Some payload; plant := plant p;
          isEditing := false; displayName := displayName p;
          notes := notes p;
          originalRef := (or_empty (n_display_name payload),
                          or_empty (n_notes payload));
          toast := Some (lit "Saved") |}, d')
  end.

End DetailPage.

(* ===================================================================== *)
(** ** The plant_log view and the log page *)
(* ===================================================================== *)

Section PlantLog.
Context {E : Engine} {W : Wire}.

(** Text order of the database, code unit by code unit. *)
Fixpoint text_compare (a b : jstring) : comparison :=
  match a, b with
  | [], [] => Eq
  | [], _ :: _ => Lt
  | _ :: _, [] => Gt
  | x :: a', y :: b' =>
      match x ?= y with
      | Eq => text_compare a' b'
      | c => c
      end
  end.

(** Ascending order of a nullable text column: NULL sorts last. *)
Definition name_compare (a b : option jstring) : comparison :=
  match a, b with
  | Some x, Some y => text_compare x y
  | Some _, None => Lt
  | None, Some _ => Gt
  | None, None => Eq
  end.

(** [ORDER BY scientific_name, created_at DESC]: [a] may stand before [b]. *)
Definition precedes (a b : tree_row) : bool :=
  match name_compare (t_scientific_name a) (t_scientific_name b) with
  | Lt => true
  | Gt => false
  | Eq => (t_created_at b <=? t_created_at a)%Z
  end.

(** [a] may stand before [b] in the order of the view. *)
Definition before (a b : tree_row) : Prop := precedes a b = true.

(** Sorting by insertion; [ahead a b] tells that [a] may stand before
    [b]. *)
Fixpoint insert_by (ahead : tree_row -> tree_row -> bool) (r : tree_row)
    (l : list tree_row) : list tree_row :=
  match l with
  | [] => [r]
  | x :: rest =>
      if ahead r x then r :: l else x :: insert_by ahead r rest
  end.

Definition order_by (ahead : tree_row -> tree_row -> bool)
    (l : list tree_row) : list tree_row :=
  fold_right (insert_by ahead) [] l.

Definition same_name (a b : option jstring) : bool :=
  match name_compare a b with Eq => true | _ => false end.

(** [DISTINCT ON (scientific_name)] over sorted rows: the first row of
    every run of equal names. [prev] is the name of the row before. *)
Fixpoint distinct_from (prev : option (option jstring)) (l : list tree_row)
    : list tree_row :=
  match l with
  | [] => []
  | r :: rest =>
      let skip :=
        match prev with
        | Some k => same_name k (t_scientific_name r)
        | None => false
        end in
      if skip then distinct_from prev rest
      else r :: distinct_from (Some (t_scientific_name r)) rest
  end.

Definition distinct_on_name (l : list tree_row) : list tree_row :=
  distinct_from None l.

(** A row of [plant_log]. *)
Record plant_log_row := {
  g_id : N;
  g_scientific_name : option jstring;
  g_identified_name : option jstring;
  g_genus : option jstring;
  g_family : option jstring;
  g_common_names : option (list (option jstring));
  g_gbif_id : option jstring;
  g_powo_id : option jstring;
  g_iucn_category : option jstring;
  g_confidence : option number;
  g_image_url : option jstring;
  g_image_path : option jstring;
  g_lat : option number;
  g_lng : option number;
  g_features : option (list (option jstring));
  g_last_seen : Z
}.

(** The select list of the view. *)
Definition select_columns (t : tree_row) : plant_log_row :=
  {| g_id := t_id t;
     g_scientific_name := t_scientific_name t;
     g_identified_name := t_identified_name t;
     g_genus := t_genus t;
     g_family := t_family t;
     g_common_names := t_common_names t;
     g_gbif_id := t_gbif_id t;
     g_powo_id := t_powo_id t;
     g_iucn_category := t_iucn_category t;
     g_confidence := t_confidence t;
     g_image_url := t_image_url t;
     g_image_path := t_image_path t;
     g_lat := t_lat t;
     g_lng := t_lng t;
     g_features := t_features t;
     g_last_seen := t_created_at t |}.

(** [WHERE scientific_name IS NOT NULL] *)
Definition named (t : tree_row) : bool :=
  match t_scientific_name t with Some _ => true | None => false end.

(** The view of the migration, lines 3-23. *)
Definition plant_log (ts : list tree_row) : list plant_log_row :=
  map select_columns
    (distinct_on_name (order_by precedes (filter named ts))).

(** The query of the log page: newest first, at most fifty rows. *)
Definition newest_first (a b : tree_row) : bool :=
  (t_created_at b <=? t_created_at a)%Z.

Definition log_page_rows (d : database) : list tree_row :=
  firstn 50 (order_by newest_first (trees d)).

End PlantLog.

(* ===================================================================== *)
(** ** Everything that touches the database *)
(* ===================================================================== *)

Section System.
Context {E : Engine} {W : Wire}.

Inductive op :=
| Identify (e : env)            (* identify-tree/index.ts *)
| IdentifyTaxonomy (e : env)    (* the trees handler with taxonomy *)
| IdentifyBasic (e : env)       (* the first trees handler *)
| IdentifyOnly (e : env)        (* the handler without a database *)
| OpenLog                       (* a log page: selects only *)
| OpenDetail (v : visit) (p : page)
| SaveDetail (u : submit) (p : page).

Definition perform (o : op) (d : database) : database :=
  match o with
  | Identify e => db (snd (serve (identify_tree e) d))
  | IdentifyTaxonomy e => db (snd (serve (identify_taxonomy e) d))
  | IdentifyBasic e => db (snd (serve (identify_basic e) d))
  | IdentifyOnly e => db (snd (serve (identify_only e) d))
  | OpenLog => d
  | OpenDetail v p => snd (load v p d)
  | SaveDetail u p => snd (save u p d)
  end.

Definition run (ops : list op) (d : database) : database :=
  fold_left (fun d' o => perform o d') ops d.

(** *** Properties of a database state *)

(** [plants.key] is unique. *)
Definition keys_unique (d : database) : Prop :=
  NoDup (map p_key (plants d)).

(** Every sighting points at a stored plant. *)
Definition references_hold (d : database) : Prop :=
  forall s, In s (sightings d) ->
    exists p, In p (plants d) /\ p_id p = s_plant_id s.

(** [tree_entries.key] is unique. *)
Definition entry_keys_unique (d : database) : Prop :=
  NoDup (map n_key (tree_entries d)).

(** A stored column holds the value of the request, when the request
    carries one. *)
Definition overwritten_by (v stored : value) : Prop :=
  v <> VUndef -> stored = to_json v.

(** Row [r] holds what the upsert payload [p] carries. *)
Definition carries (p : plant_payload) (r : plant_row) : Prop :=
  p_key r = pp_key p
  /\ overwritten_by (pp_common_name p) (p_common_name r)
  /\ overwritten_by (pp_scientific_name p) (p_scientific_name r)
  /\ overwritten_by (pp_family p) (p_family r)
  /\ overwritten_by (pp_genus p) (p_genus r)
  /\ overwritten_by (pp_reference_images p) (p_reference_images r)
  /\ overwritten_by (pp_plant_details p) (p_plant_details r).

End System.

(* ===================================================================== *)
(** ** A reference engine for ASCII data *)
(* ===================================================================== *)

(** Integers stand for numbers, lower-casing touches [A-Z] only: enough to
    run the handlers on ASCII payloads. *)
Definition decimal_Z (z : Z) : jstring :=
  lit (NilZero.string_of_int (Z.to_int z)).

#[export] Instance ascii_engine : Engine :=
  {| toLowerCase := map ascii_lower;
     toLowerCase_ascii := fun s _ => eq_refl;
     number := Z;
     number_truthy := fun z => negb (z =? 0)%Z;
     number_to_string := decimal_Z;
     number_of_N := Z.of_N;
     exn_to_string := fun x =>
       match x with
       | FetchRejected m => m
       | BodyUnreadable m => m
       | NotCallable => lit "TypeError: not a function"
       | NullishAccess => lit "TypeError: cannot read properties"
       end |}.

#[export] Instance ascii_wire : Wire :=
  {| id_json := fun n => VNum (Z.of_N n);
     timestamp_json := fun t => VNum t;
     json_text := fun v => to_string v |}.

(* ===================================================================== *)
(** ** Example requests *)
(* ===================================================================== *)

(** PlantNet's answer for a photo of an oak. *)
Definition oak_answer : value :=
  VObj [(lit "results",
         VArr [VObj [(lit "score", VNum 1%Z);
                     (lit "species",
                      VObj [(lit "scientificNameWithoutAuthor",
                             VStr (lit "Quercus robur"));
                            (lit "scientificName",
                             VStr (lit "Quercus robur L."));
                            (lit "commonNames",
                             VArr [VStr (lit "English oak")])])]])].

(** A well-formed request that everything answers in time. *)
Definition oak_request : env :=
  {| req_method := POST;
     req_json :=
       Some (VObj [(lit "imageUrl",
                    VStr (lit "http://localhost:54321/oak.png"));
                   (lit "lat", VNum 52%Z);
                   (lit "lng", VNum 13%Z)]);
     plantnet_key := Some (lit "secret");
     supabase_env := true;
     image_server := Some (120, Responds 200);
     image_content_type := Some (lit "image/png");
     image_blob := BlobOk (lit "image/png");
     plantnet_server := Some (900, Responds 200);
     plantnet_json := Some oak_answer;
     first_upsert_error := None;
     upsert_error := None;
     insert_error := None;
     now := 1767387600000%Z |}.

(** The same request with another body or another PlantNet answer. *)
Definition with_body (body : value) (e : env) : env :=
  {| req_method := req_method e;
     req_json := Some body;
     plantnet_key := plantnet_key e;
     supabase_env := supabase_env e;
     image_server := image_server e;
     image_content_type := image_content_type e;
     image_blob := image_blob e;
     plantnet_server := plantnet_server e;
     plantnet_json := plantnet_json e;
     first_upsert_error := first_upsert_error e;
     upsert_error := upsert_error e;
     insert_error := insert_error e;
     now := now e |}.

Definition with_answer (raw : value) (e : env) : env :=
  {| req_method := req_method e;
     req_json := req_json e;
     plantnet_key := plantnet_key e;
     supabase_env := supabase_env e;
     image_server := image_server e;
     image_content_type := image_content_type e;
     image_blob := image_blob e;
     plantnet_server := plantnet_server e;
     plantnet_json := Some raw;
     first_upsert_error := first_upsert_error e;
     upsert_error := upsert_error e;
     insert_error := insert_error e;
     now := now e |}.

Definition with_servers (image plantnet : server) (e : env) : env :=
  {| req_method := req_method e;
     req_json := req_json e;
     plantnet_key := plantnet_key e;
     supabase_env := supabase_env e;
     image_server := image;
     image_content_type := image_content_type e;
     image_blob := image_blob e;
     plantnet_server := plantnet;
     plantnet_json := plantnet_json e;
     first_upsert_error := first_upsert_error e;
     upsert_error := upsert_error e;
     insert_error := insert_error e;
     now := now e |}.

(** A request whose PlantNet answer has no result. *)
Definition no_match_request : env :=
  with_answer (VObj [(lit "results", VArr [])]) oak_request.

(** A request whose second plants upsert the database refuses. *)
Definition failed_upsert_request : env :=
  {| req_method := req_method oak_request;
     req_json := req_json oak_request;
     plantnet_key := plantnet_key oak_request;
     supabase_env := supabase_env oak_request;
     image_server := image_server oak_request;
     image_content_type := image_content_type oak_request;
     image_blob := image_blob oak_request;
     plantnet_server := plantnet_server oak_request;
     plantnet_json := plantnet_json oak_request;
     first_upsert_error := None;
     upsert_error :=
       Some (VObj [(lit "message", VStr (lit "permission denied"))]);
     insert_error := None;
     now := now oak_request |}.

(** A request that names the organ "auto". *)
Definition auto_request : env :=
  with_body
    (VObj [(lit "imageUrl", VStr (lit "http://localhost:54321/oak.png"));
           (lit "organ", VStr (lit "auto"))]) oak_request.

(* ===================================================================== *)
(** ** The rest of the plant detail page *)
(* ===================================================================== *)

Section DetailPageEditing.
Context {E : Engine} {W : Wire}.

(** [startEdit], lines 225-228 of the page. *)
Definition startEdit (p : page) : page :=
  {| loading := loading p; saving := saving p; error := error p;
     logRow := logRow p; entryRow := entryRow p; plant := plant p;
     isEditing := true; displayName := displayName p; notes := notes p;
     originalRef := (displayName p, notes p); toast := toast p |}.

(** [cancelEdit], lines 230-235. *)
Definition cancelEdit (p : page) : page :=
  {| loading := loading p; saving := saving p; error := None;
     logRow := logRow p; entryRow := entryRow p; plant := plant p;
     isEditing := false; displayName := fst (originalRef p);
     notes := snd (originalRef p);
     originalRef := originalRef p; toast := toast p |}.

(** The [onChange] handlers of the two inputs. *)
Definition setDisplayName (s : jstring) (p : page) : page :=
  {| loading := loading p; saving := saving p; error := error p;
     logRow := logRow p; entryRow := entryRow p; plant := plant p;
     isEditing := isEditing p; displayName := s; notes := notes p;
     originalRef := originalRef p; toast := toast p |}.

Definition setNotes (s : jstring) (p : page) : page :=
  {| loading := loading p; saving := saving p; error := error p;
     logRow := logRow p; entryRow := entryRow p; plant := plant p;
     isEditing := isEditing p; displayName := displayName p; notes := s;
     originalRef := originalRef p; toast := toast p |}.

(** What the user does to the form between Edit and Cancel or Save. *)
Inductive keystroke :=
| TypeName (s : jstring)
| TypeNotes (s : jstring).

Definition type_in (p : page) (k : keystroke) : page :=
  match k with
  | TypeName s => setDisplayName s p
  | TypeNotes s => setNotes s p
  end.

(** [a || b] on nullable strings: [null] and the empty string are falsy. *)
Definition or_text (a : option jstring) (b : jstring) : jstring :=
  match a with
  | Some (c :: s) => c :: s
  | _ => b
  end.

(** [title], line 272:
    [entryRow?.display_name || logRow?.name || "Unknown plant"]. *)
Definition title (p : page) : jstring :=
  or_text (match entryRow p with Some r => n_display_name r | None => None end)
    (or_text (match logRow p with Some l => l_name l | None => None end)
       (lit "Unknown plant")).

(** [getRefImageUrl], lines 49-60. *)
Definition getRefImageUrl (img : value) : value :=
  or_else (get img "url")
    (or_else (get (get img "urls") "m")
       (or_else (get (get img "urls") "s")
          (or_else (get (get img "urls") "o")
             (or_else (get (get img "url") "m")
                (or_else (get (get img "url") "s")
                   (or_else (get (get img "url") "o") VNull)))))).

End DetailPageEditing.

(* ===================================================================== *)
(** ** The log page over trees *)
(* ===================================================================== *)

Section LogPage.
Context {E : Engine} {W : Wire}.

(** [TreeRow] of web/app/log/page.tsx: the selected columns. *)
Record TreeRow := {
  r_id : N;
  r_created_at : Z;
  r_image_url : option jstring;
  r_identified_name : option jstring;
  r_scientific_name : option jstring;
  r_confidence : option number
}.

Definition select_TreeRow (t : tree_row) : TreeRow :=
  {| r_id := t_id t;
     r_created_at := t_created_at t;
     r_image_url := t_image_url t;
     r_identified_name := t_identified_name t;
     r_scientific_name := t_scientific_name t;
     r_confidence := t_confidence t |}.

(** [a] is at least as new as [b]. *)
Definition newer (a b : tree_row) : Prop :=
  (t_created_at b <= t_created_at a)%Z.

(** The state of [LogPage]. *)
Record log_state := {
  lg_rows : list TreeRow;
  lg_loading : bool;
  lg_error : option jstring
}.

(** [load] of the effect, lines 22-44: the query
    [.order("created_at", { ascending: false }).limit(limit)] and what the
    page keeps of it. [err] is the message of a failing query; the page
    asks for 50 rows. *)
Definition load_log (limit : nat) (err : option jstring) (d : database)
    : log_state :=
  match err with
  | Some msg => {| lg_rows := []; lg_loading := false; lg_error := Some msg |}
  | None =>
      {| lg_rows :=
           map select_TreeRow
             (firstn limit (order_by newest_first (trees d)));
         lg_loading := false;
         lg_error := None |}
  end.

Definition LogPage_load : option jstring -> database -> log_state :=
  load_log 50.

End LogPage.

(* ===================================================================== *)
(** ** The upload page *)
(* ===================================================================== *)

Section UploadPage.
Context {E : Engine} {W : Wire}.

(** A [File]: name, MIME type and content. *)
Record file := {
  file_name : jstring;
  file_type : jstring;
  file_bytes : list N
}.

(** What the browser makes of the picture in [toJpeg]: the image fails to
    load, the canvas has no 2d context, [toBlob] gives no blob, or it gives
    the JPEG bytes. *)
Inductive conversion :=
| Unreadable
| NoContext
| NoBlob
| Drawn (jpeg : list N).

(** [toJpeg], lines 6-39 of the upload page: the file, or the message of
    the error thrown. *)
Definition toJpeg (conv : conversion) (f : file) : file + jstring :=
  if jstring_eqb (file_type f) (lit "image/jpeg")
     || jstring_eqb (file_type f) (lit "image/jpg")
  then inl f
  else
    match conv with
    | Unreadable => inr (lit "Could not read image for conversion")
    | NoContext => inr (lit "Canvas not supported")
    | NoBlob => inr (lit "JPEG conversion failed")
    | Drawn jpeg =>
        inl {| file_name := lit "tree.jpg";
               file_type := lit "image/jpeg";
               file_bytes := jpeg |}
    end.

(** How the call of the edge function ends: [fetch] rejects, the body is
    not JSON, or a status with a parsed body arrives. *)
Inductive identify_reply :=
| CallFails (msg : jstring)
| NotJson (msg : jstring)
| Answer (status : N) (json : value).

(** Everything outside the page during one click on Upload. *)
Record upload_env := {
  up_uuid : jstring;                     (* crypto.randomUUID() *)
  up_conversion : conversion;
  up_upload_error : option jstring;      (* uploadErr.message *)
  up_public_url : jstring -> jstring;    (* getPublicUrl(path).data.publicUrl *)
  up_identify : identify_reply
}.

(** The state of [UploadPage]. *)
Record upload_state := {
  up_file : option file;
  up_fileName : option jstring;
  up_busy : bool;
  up_publicUrl : option jstring;
  up_error : option jstring;
  up_identifyResult : value
}.

(** What one click sends out: the object put into the bucket and the body
    posted to the edge function. *)
Record upload_calls := {
  up_stored : option (jstring * file);
  up_posted : option value
}.

Definition upload_failed (msg : jstring) (url : option jstring)
    (s : upload_state) : upload_state :=
  {| up_file := up_file s; up_fileName := up_fileName s; up_busy := false;
     up_publicUrl := url; up_error := Some msg;
     up_identifyResult := VNull |}.

(** [uploadToSupabase], lines 50-106. *)
Definition uploadToSupabase (u : upload_env) (s : upload_state)
    : upload_state * upload_calls :=
  match up_file s with
  | None =>
      ({| up_file := up_file s; up_fileName := up_fileName s;
          up_busy := up_busy s; up_publicUrl := None;
          up_error := Some (lit "Please choose a photo first.");
          up_identifyResult := VNull |},
       {| up_stored := None; up_posted := None |})
  | Some f =>
      match toJpeg (up_conversion u) f with
      | inr msg =>
          (upload_failed msg None s,
           {| up_stored := None; up_posted := None |})
      | inl safeFile =>
          let path := lit "uploads/" ++ up_uuid u ++ lit ".jpg" in
          match up_upload_error u with
          | Some msg =>
              (upload_failed msg None s,
               {| up_stored := Some (path, safeFile); up_posted := None |})
          | None =>
              let url := up_public_url u path in
              let body := VObj [(lit "imageUrl", VStr url)] in
              let calls :=
                {| up_stored := Some (path, safeFile);
                   up_posted := Some body |} in
              match up_identify u with
              | CallFails msg => (upload_failed msg (Some url) s, calls)
              | NotJson msg => (upload_failed msg (Some url) s, calls)
              | Answer status json =>
                  if negb (http_ok status)
                  then
                    (upload_failed
                       (to_string
                          (or_else (get json "error")
                             (VStr (lit "Identify failed"))))
                       (Some url) s, calls)
                  else
                    ({| up_file := up_file s;
                        up_fileName := up_fileName s;
                        up_busy := false;
                        up_publicUrl := Some url;
                        up_error := None;
                        up_identifyResult := json |}, calls)
              end
          end
      end
  end.

(** The request the edge function sees when the page posts [body]: the
    surroundings of [base], method POST and that JSON body. *)
Definition posted (base : env) (body : value) : env :=
  {| req_method := POST;
     req_json := Some body;
     plantnet_key := plantnet_key base;
     supabase_env := supabase_env base;
     image_server := image_server base;
     image_content_type := image_content_type base;
     image_blob := image_blob base;
     plantnet_server := plantnet_server base;
     plantnet_json := plantnet_json base;
     first_upsert_error := first_upsert_error base;
     upsert_error := upsert_error base;
     insert_error := insert_error base;
     now := now base |}.

(** The reply the page gets when the edge function is [identify_tree]
    serving that request on database [d]: the status and the JSON text of
    the response body, parsed again. *)
Definition edge_reply (base : env) (d : database) (sent_body : value)
    : identify_reply :=
  let r := fst (serve (identify_tree (posted base sent_body)) d) in
  Answer (status r) (to_json (body r)).

End UploadPage.

(* ===================================================================== *)
(** ** Responses of the request checks *)
(* ===================================================================== *)

Section CheckFailures.
Context {E : Engine} {W : Wire}.

(** The responses the request checks can give. *)
Definition check_failures : list response :=
  [ {| status := 204; body := VNull |};
    error_response 405 (lit "Method not allowed");
    error_response 400 (lit "Invalid JSON body");
    error_response 400 (lit "Missing required field: imageUrl");
    error_response 500 (lit "Server misconfigured: missing PLANTNET_KEY");
    error_response 400
      (lit "Invalid organ type. Must be one of: leaf, flower, fruit, bark, auto") ].

(** A response as a client can rely on it: one of seven statuses, and an
    [error] text unless the status is 200 or 204. *)
Definition proper_response (r : response) : Prop :=
  In (status r) [200; 204; 400; 405; 408; 500; 502]
  /\ (status r = 200 \/ status r = 204
      \/ exists msg, get (body r) "error" = VStr msg /\ msg <> []).

End CheckFailures.

(* ===================================================================== *)
(** ** More example inputs *)
(* ===================================================================== *)

(** A POST whose body has no imageUrl. *)
Definition empty_body_request : env := with_body (VObj []) oak_request.

(** The image server refuses the connection. *)
Definition refused_image_request : env :=
  with_servers (Some (40, Rejects (lit "connection refused")))
    (plantnet_server oak_request) oak_request.

(** The image arrives but its body cannot be read. *)
Definition unreadable_image_request : env :=
  {| req_method := req_method oak_request;
     req_json := req_json oak_request;
     plantnet_key := plantnet_key oak_request;
     supabase_env := supabase_env oak_request;
     image_server := image_server oak_request;
     image_content_type := image_content_type oak_request;
     image_blob := BlobFails (lit "body stream already read");
     plantnet_server := plantnet_server oak_request;
     plantnet_json := plantnet_json oak_request;
     first_upsert_error := None;
     upsert_error := None;
     insert_error := None;
     now := now oak_request |}.

(** PlantNet answers 200 with a body that is not JSON. *)
Definition garbled_answer_request : env :=
  {| req_method := req_method oak_request;
     req_json := req_json oak_request;
     plantnet_key := plantnet_key oak_request;
     supabase_env := supabase_env oak_request;
     image_server := image_server oak_request;
     image_content_type := image_content_type oak_request;
     image_blob := image_blob oak_request;
     plantnet_server := plantnet_server oak_request;
     plantnet_json := None;
     first_upsert_error := None;
     upsert_error := None;
     insert_error := None;
     now := now oak_request |}.

(** A best match whose list of images holds a null. *)
Definition null_image_request : env :=
  with_answer
    (VObj [(lit "results",
            VArr [VObj [(lit "score", VNum 1%Z);
                        (lit "images", VArr [VNull])]])])
    oak_request.

(** A best match named with punctuation only. *)
Definition unnamed_match : value :=
  VObj [(lit "species",
         VObj [(lit "scientificNameWithoutAuthor", VStr (lit "???"))])].

(** The oak request again, a day later. *)
Definition oak_request_later : env :=
  {| req_method := req_method oak_request;
     req_json := req_json oak_request;
     plantnet_key := plantnet_key oak_request;
     supabase_env := supabase_env oak_request;
     image_server := image_server oak_request;
     image_content_type := image_content_type oak_request;
     image_blob := image_blob oak_request;
     plantnet_server := plantnet_server oak_request;
     plantnet_json := plantnet_json oak_request;
     first_upsert_error := None;
     upsert_error := None;
     insert_error := None;
     now := 1767474000000%Z |}.

(** An image of a reference list as PlantNet sends it. *)
Definition oak_image : value :=
  VObj [(lit "organ", VStr (lit "leaf"));
        (lit "url",
         VObj [(lit "s", VStr (lit "https://img.example/s.jpg"));
               (lit "o", VStr (lit "https://img.example/o.jpg"))])].

(** A visit of the detail page of the oak that every call answers. *)
Definition oak_visit : visit :=
  {| v_plantKey := lit "quercus-robur";
     v_log := Some {| l_key := lit "quercus-robur";
                      l_name := Some (lit "English oak");
                      l_sightings_count := 1;
                      l_last_seen := Some 1767387600000%Z;
                      l_thumbnail_url := None |};
     v_log_error := None;
     v_entry_error := None;
     v_create_error := None;
     v_plant_error := false;
     v_unmounted := None |}.

(** The form with a name and notes typed in, and a Save that succeeds. *)
Definition oak_form : page :=
  setNotes (lit " by the pond ")
    (setDisplayName (lit "  Old oak ") (startEdit initial_page)).

Definition oak_submit : submit :=
  {| u_plantKey := lit "quercus-robur";
     u_now := 1767387600000%Z;
     u_error := None |}.

(** A PNG chosen on the upload page, and surroundings in which the
    conversion and the upload succeed. [answer] is what the edge function
    sends. *)
Definition oak_photo : file :=
  {| file_name := lit "oak.png";
     file_type := lit "image/png";
     file_bytes := [137; 80; 78; 71] |}.

Definition oak_chosen : upload_state :=
  {| up_file := Some oak_photo;
     up_fileName := Some (lit "oak.png");
     up_busy := false;
     up_publicUrl := None;
     up_error := None;
     up_identifyResult := VNull |}.

Definition oak_upload (answer : identify_reply) : upload_env :=
  {| up_uuid := lit "0b7e";
     up_conversion := Drawn [255; 216; 255];
     up_upload_error := None;
     up_public_url := fun path =>
       lit "http://localhost:54321/storage/v1/object/public/tree-photos/"
       ++ path;
     up_identify := answer |}.

(** The body the page posts for that upload. *)
Definition oak_upload_body : value :=
  VObj [(lit "imageUrl",
         VStr (lit "http://localhost:54321/storage/v1/object/public/tree-photos/uploads/0b7e.jpg"))].

(* ===================================================================== *)
(** ** The slug in the words of the specification *)
(* ===================================================================== *)

(** [s] is empty or begins with a code unit that is not white space. *)
Definition starts_without_space (s : jstring) : Prop :=
  match s with
  | [] => True
  | c :: _ => is_space c = false
  end.

(** [t] is [s] trimmed: [s] is [t] between two runs of white space, and
    [t] neither begins nor ends with white space. *)
Definition trimmed (s t : jstring) : Prop :=
  exists pre post,
    s = pre ++ t ++ post
    /\ forallb is_space pre = true
    /\ forallb is_space post = true
    /\ starts_without_space t
    /\ starts_without_space (rev t).

(** [t] is [s] with every run of white space replaced by one hyphen: a
    code unit that is not white space stays, and a run (taken whole, up to
    the end or to the next code unit that is not white space) becomes
    "-". *)
Inductive hyphenated : jstring -> jstring -> Prop :=
| hyphenated_end : hyphenated [] []
| hyphenated_unit (c : N) (s t : jstring) :
    is_space c = false -> hyphenated s t -> hyphenated (c :: s) (c :: t)
| hyphenated_run (run s t : jstring) :
    run <> [] -> forallb is_space run = true -> starts_without_space s ->
    hyphenated s t -> hyphenated (run ++ s) (hyphen :: t).

Section SlugSpec.
Context {E : Engine}.

(** [k] is the slug of [s] as the specification words it: [s] lower-cased,
    trimmed, with white-space runs replaced by "-" and every code unit
    outside [a-z0-9-] removed. *)
Definition slug_of (s k : jstring) : Prop :=
  exists t h,
    trimmed (toLowerCase s) t
    /\ hyphenated t h
    /\ k = filter is_slug_char h.

End SlugSpec.

(* ===================================================================== *)
(** ** How long the handler takes to answer *)
(* ===================================================================== *)

Section Pace.
Context {E : Engine} {W : Wire}.

(** An [env] tells what every await of the handler yields; a [pace] tells
    how long the awaits without a timer take before they settle, in
    milliseconds. [None] is an await that never settles. The two fetches
    are not here: they run under their timers, and [fetch_with_timeout]
    gives their wait. Both timers are cleared as soon as [fetch] resolves
    (lines 126 and 178), before the bodies are read. *)
Record pace := {
  request_time : option N;        (* await req.json(), line 60 *)
  blob_time : option N;           (* await imgRes.blob(), line 135 *)
  json_time : option N;           (* await idRes.json(), line 180 *)
  first_upsert_time : option N;   (* the plants upsert of lines 241-253 *)
  upsert_time : option N;         (* the plants upsert of lines 256-273 *)
  insert_time : option N          (* the sightings insert, lines 283-293 *)
}.

(** From time [t] on, an await that takes [d], then [k]. *)
Definition wait (t : N) (d : option N) (k : N -> option N) : option N :=
  match d with
  | Some x => k (t + x)
  | None => None
  end.

(** The time at which the handler of lines 43-329 returns its response,
    counted from the arrival of the request; [None] when it never
    returns. Work between the awaits takes no time. *)
Definition settles_after (e : env) (p : pace) : option N :=
  match req_method e with
  | POST =>
      wait 0 (request_time p) (fun t0 =>
      match fst (check_request e blank) with
      | Next c =>
          let (res, t1) :=
            fetch_with_timeout image_timeout_ms (image_server e) in
          match res with
          | Resolved st =>
              if negb (http_ok st) then Some (t0 + t1)
              else
                wait (t0 + t1) (blob_time p) (fun t2 =>
                match image_blob e with
                | BlobFails _ => Some t2
                | BlobOk _ =>
                    let (res', t3) :=
                      fetch_with_timeout plantnet_timeout_ms
                        (plantnet_server e) in
                    match res' with
                    | Resolved st' =>
                        wait (t2 + t3) (json_time p) (fun t4 =>
                        let raw :=
                          match plantnet_json e with
                          | Some v => v
                          | None => VObj []
                          end in
                        if negb (http_ok st') then Some t4
                        else
                          match fst (identification_of raw blank) with
                          | Next _ =>
                              wait t4 (first_upsert_time p) (fun t5 =>
                              wait t5 (upsert_time p) (fun t6 =>
                              match upsert_error e with
                              | Some _ => Some t6
                              | None => wait t6 (insert_time p) Some
                              end))
                          | _ => Some t4
                          end)
                    | _ => Some (t2 + t3)
                    end
                end)
          | _ => Some (t0 + t1)
          end
      | _ => Some t0
      end)
  | _ => Some 0
  end.





(** Every await without a timer settles at once. *)
Definition instant : pace :=
  {| request_time := Some 0; blob_time := Some 0; json_time := Some 0;
     first_upsert_time := Some 0; upsert_time := Some 0;
     insert_time := Some 0 |}.

(** The wait of a call, and of a list of calls. *)
Definition waited (ev : event) : N :=
  match ev with
  | FetchImage _ t => t
  | CallPlantNet _ _ t => t
  end.

Definition total_wait (evs : list event) : N :=
  fold_right (fun ev t => waited ev + t) 0 evs.

End Pace.

(* ===================================================================== *)
(** ** Example inputs for the edges of the claims *)
(* ===================================================================== *)

(** PlantNet names the oak with white space around and inside the name. *)
Definition padded_oak_request : env :=
  with_answer
    (VObj [(lit "results",
            VArr [VObj [(lit "score", VNum 1%Z);
                        (lit "species",
                         VObj [(lit "scientificNameWithoutAuthor",
                                VStr (lit " Quercus   robur "))])]])])
    oak_request.

(** A best match whose name is the word "Unknown", and a request that is
    answered with it. *)
Definition match_named_unknown : value :=
  VObj [(lit "score", VNum 1%Z);
        (lit "species",
         VObj [(lit "scientificNameWithoutAuthor", VStr (lit "Unknown"))])].

Definition named_unknown_request : env :=
  with_answer (VObj [(lit "results", VArr [match_named_unknown])])
    oak_request.

(** The form of the detail page with a padded name and blank notes. *)
Definition blank_notes_form : page := setNotes (lit "   ") oak_form.


(** The oak request with another method, with a body that is not JSON, and
    without the PlantNet key. *)
Definition with_method (m : http_method) (e : env) : env :=
  {| req_method := m;
     req_json := req_json e;
     plantnet_key := plantnet_key e;
     supabase_env := supabase_env e;
     image_server := image_server e;
     image_content_type := image_content_type e;
     image_blob := image_blob e;
     plantnet_server := plantnet_server e;
     plantnet_json := plantnet_json e;
     first_upsert_error := first_upsert_error e;
     upsert_error := upsert_error e;
     insert_error := insert_error e;
     now := now e |}.

Definition garbled_body_request : env :=
  {| req_method := POST;
     req_json := None;
     plantnet_key := plantnet_key oak_request;
     supabase_env := supabase_env oak_request;
     image_server := image_server oak_request;
     image_content_type := image_content_type oak_request;
     image_blob := image_blob oak_request;
     plantnet_server := plantnet_server oak_request;
     plantnet_json := plantnet_json oak_request;
     first_upsert_error := None;
     upsert_error := None;
     insert_error := None;
     now := now oak_request |}.

Definition keyless_request : env :=
  {| req_method := POST;
     req_json := req_json oak_request;
     plantnet_key := None;
     supabase_env := supabase_env oak_request;
     image_server := image_server oak_request;
     image_content_type := image_content_type oak_request;
     image_blob := image_blob oak_request;
     plantnet_server := plantnet_server oak_request;
     plantnet_json := plantnet_json oak_request;
     first_upsert_error := None;
     upsert_error := None;
     insert_error := None;
     now := now oak_request |}.

(* ===================================================================== *)
(** * Theorems *)
(* ===================================================================== *)

(** ** Code units and slugs *)

Lemma jstring_eqb_eq (a b : jstring) : jstring_eqb a b = true <-> a = b.
Proof.
  unfold jstring_eqb. destruct (list_eq_dec N.eq_dec a b); split; congruence.
Qed.

Lemma jstring_eqb_refl (a : jstring) : jstring_eqb a a = true.
Proof. now apply jstring_eqb_eq. Qed.

Lemma jstring_eqb_neq (a b : jstring) : jstring_eqb a b = false <-> a <> b.
Proof.
  unfold jstring_eqb. destruct (list_eq_dec N.eq_dec a b); split; congruence.
Qed.

(** Turns boolean range tests on code units into arithmetic facts. *)
Ltac unit_facts :=
  repeat match goal with
  | H : (_ && _) = true |- _ => apply andb_true_iff in H; destruct H
  | H : (_ || _) = true |- _ => apply orb_true_iff in H; destruct H
  | H : (_ <=? _) = true |- _ => apply N.leb_le in H
  | H : (_ <? _) = true |- _ => apply N.ltb_lt in H
  | H : (_ =? _) = true |- _ => apply N.eqb_eq in H
  end.

Lemma slug_char_not_space (c : N) : is_slug_char c = true -> is_space c = false.
Proof.
  intro H. apply not_true_is_false. intro S.
  unfold is_slug_char in H. unfold is_space in S. unit_facts; lia.
Qed.

Lemma slug_char_ascii (c : N) : is_slug_char c = true -> is_ascii c = true.
Proof.
  intro H. unfold is_slug_char in H. unfold is_ascii.
  apply N.ltb_lt. unit_facts; lia.
Qed.

Lemma slug_char_lower (c : N) : is_slug_char c = true -> ascii_lower c = c.
Proof.
  intro H. unfold ascii_lower.
  destruct ((65 <=? c) && (c <=? 90)) eqn:U; [|reflexivity].
  unfold is_slug_char in H. unit_facts; lia.
Qed.

Lemma keep_slug_chars_all (s : jstring) :
  forallb is_slug_char (keep_slug_chars s) = true.
Proof.
  apply forallb_forall. intros c H. apply filter_In in H. tauto.
Qed.

Lemma keep_slug_chars_fixed (s : jstring) :
  forallb is_slug_char s = true -> keep_slug_chars s = s.
Proof.
  induction s as [|c s IH]; simpl; [reflexivity|].
  intro H. apply andb_true_iff in H. destruct H as [Hc Hs].
  rewrite Hc. f_equal. now apply IH.
Qed.

Lemma drop_spaces_fixed (s : jstring) :
  forallb is_slug_char s = true -> drop_spaces s = s.
Proof.
  destruct s as [|c s]; simpl; [reflexivity|].
  intro H. apply andb_true_iff in H. destruct H as [Hc _].
  now rewrite (slug_char_not_space _ Hc).
Qed.

Lemma forallb_rev (f : N -> bool) (s : jstring) :
  forallb f s = true -> forallb f (rev s) = true.
Proof.
  rewrite !forallb_forall. intros H c Hc. apply H. now apply in_rev.
Qed.

Lemma trim_fixed (s : jstring) : forallb is_slug_char s = true -> trim s = s.
Proof.
  intro H. unfold trim. rewrite (drop_spaces_fixed _ H).
  rewrite (drop_spaces_fixed _ (forallb_rev _ _ H)). apply rev_involutive.
Qed.

Lemma hyphenate_from_fixed (s : jstring) (in_run : bool) :
  forallb is_slug_char s = true -> hyphenate_from in_run s = s.
Proof.
  revert in_run. induction s as [|c s IH]; simpl; intros in_run H.
  - reflexivity.
  - apply andb_true_iff in H. destruct H as [Hc Hs].
    rewrite (slug_char_not_space _ Hc). f_equal. now apply IH.
Qed.

Lemma hyphenate_fixed (s : jstring) :
  forallb is_slug_char s = true -> hyphenate s = s.
Proof. apply hyphenate_from_fixed. Qed.

(** [slugifyKey] on names as PlantNet writes them. *)
Example slugifyKey_species :
  slugifyKey (lit "Quercus robur") = lit "quercus-robur".
Proof. reflexivity. Qed.

Example slugifyKey_spaces_and_author :
  slugifyKey (lit "  Acer  pseudoplatanus L. ") = lit "acer-pseudoplatanus-l".
Proof. reflexivity. Qed.

Example slugifyKey_hybrid_sign :
  slugifyKey (lit "Rosa " ++ [215] ++ lit " alba") = lit "rosa--alba".
Proof. reflexivity. Qed.

Example oak_request_is_recorded :
  status (fst (serve (identify_tree oak_request) empty_database)) = 200
  /\ map p_key
       (plants (db (snd (serve (identify_tree oak_request) empty_database))))
     = [lit "quercus-robur"]
  /\ map s_plant_id
       (sightings
          (db (snd (serve (identify_tree oak_request) empty_database))))
     = [1].
Proof. vm_compute. auto. Qed.

Section SlugFacts.
Context {E : Engine}.

Lemma toLowerCase_fixed (s : jstring) :
  forallb is_slug_char s = true -> toLowerCase s = s.
Proof.
  intro H. rewrite toLowerCase_ascii.
  - induction s as [|c s IH]; simpl; [reflexivity|].
    simpl in H. apply andb_true_iff in H. destruct H as [Hc Hs].
    rewrite (slug_char_lower _ Hc). f_equal. now apply IH.
  - apply forallb_forall. intros c Hc.
    apply slug_char_ascii. rewrite forallb_forall in H. now apply H.
Qed.

Lemma slugifyKey_all (s : jstring) :
  forallb is_slug_char (slugifyKey s) = true.
Proof. apply keep_slug_chars_all. Qed.

Lemma slug_fixed (k : jstring) :
  forallb is_slug_char k = true ->
  slugifyKey k = k /\ hyphenate (toLowerCase (trim k)) = k
  /\ toLowerCase k = k.
Proof.
  intro H. unfold slugifyKey.
  rewrite (trim_fixed _ H), (toLowerCase_fixed _ H), (trim_fixed _ H),
    (hyphenate_fixed _ H), (keep_slug_chars_fixed _ H).
  auto.
Qed.

End SlugFacts.

(** *** The slug of the specification is what [slugifyKey] computes *)

Section SlugSpecFacts.
Context {E : Engine}.

Lemma drop_spaces_run (run s : jstring) :
  forallb is_space run = true -> drop_spaces (run ++ s) = drop_spaces s.
Proof.
  induction run as [|c run IH]; simpl; intro H; [reflexivity|].
  apply andb_true_iff in H as [Hc Hr]. rewrite Hc. now apply IH.
Qed.

Lemma drop_spaces_start (s : jstring) :
  starts_without_space s -> drop_spaces s = s.
Proof. destruct s as [|c s]; simpl; intro H; [reflexivity|now rewrite H]. Qed.

Lemma drop_spaces_starts (s : jstring) :
  starts_without_space (drop_spaces s).
Proof.
  induction s as [|c s IH]; simpl; [exact I|].
  destruct (is_space c) eqn:C; [exact IH|exact C].
Qed.

(** The white space [drop_spaces] removes is a prefix. *)
Lemma drop_spaces_prefix (s : jstring) :
  exists run, s = run ++ drop_spaces s /\ forallb is_space run = true.
Proof.
  induction s as [|c s [run [Hs Hr]]]; simpl.
  - now exists [].
  - destruct (is_space c) eqn:C.
    + exists (c :: run). simpl. rewrite C, Hr. split; [now f_equal|reflexivity].
    + now exists [].
Qed.

Lemma starts_without_space_app (t post : jstring) :
  t <> [] -> starts_without_space t -> starts_without_space (t ++ post).
Proof. destruct t as [|c t]; [contradiction|auto]. Qed.

(** [trim] does what "trimmed" says, and nothing else does. *)
Lemma trim_trimmed (s : jstring) : trimmed s (trim s).
Proof.
  unfold trimmed, trim.
  destruct (drop_spaces_prefix s) as [pre [Hs Hpre]].
  destruct (drop_spaces_prefix (rev (drop_spaces s))) as [post [Hr Hpost]].
  exists pre, (rev post). split; [|split; [exact Hpre|split; [|split]]].
  - rewrite <- rev_app_distr, <- Hr, rev_involutive. exact Hs.
  - apply forallb_rev. exact Hpost.
  - set (t := rev (drop_spaces (rev (drop_spaces s)))).
    assert (drop_spaces s = t ++ rev post) as Ht.
    { unfold t. rewrite <- rev_app_distr, <- Hr. now rewrite rev_involutive. }
    pose proof (drop_spaces_starts s) as St. rewrite Ht in St.
    destruct t as [|c t']; [exact I|exact St].
  - rewrite rev_involutive. apply drop_spaces_starts.
Qed.

Lemma trimmed_trim (s t : jstring) : trimmed s t -> t = trim s.
Proof.
  intros [pre [post [Hs [Hpre [Hpost [St Sr]]]]]]. subst s. unfold trim.
  rewrite (@drop_spaces_run pre _ Hpre).
  destruct t as [|c t].
  - assert (drop_spaces post = []) as Hp.
    { rewrite <- (app_nil_r post). rewrite (@drop_spaces_run post _ Hpost).
      reflexivity. }
    simpl. now rewrite Hp.
  - rewrite (drop_spaces_start ((c :: t) ++ post))
      by (apply starts_without_space_app; [discriminate|exact St]).
    rewrite rev_app_distr.
    rewrite (@drop_spaces_run (rev post) _ (forallb_rev _ _ Hpost)).
    rewrite (@drop_spaces_start _ Sr). now rewrite rev_involutive.
Qed.

Lemma hyphenate_from_run (run s : jstring) :
  forallb is_space run = true -> starts_without_space s ->
  hyphenate_from true (run ++ s) = hyphenate_from false s.
Proof.
  induction run as [|c run IH]; simpl; intros Hr Hs.
  - destruct s as [|c s]; [reflexivity|]. simpl in *. now rewrite Hs.
  - apply andb_true_iff in Hr as [Hc Hr]. rewrite Hc. now apply IH.
Qed.

Lemma hyphenate_run (run s : jstring) :
  run <> [] -> forallb is_space run = true -> starts_without_space s ->
  hyphenate (run ++ s) = hyphen :: hyphenate s.
Proof.
  destruct run as [|c run]; [contradiction|]. intros _ Hr Hs.
  simpl in Hr. apply andb_true_iff in Hr as [Hc Hr].
  unfold hyphenate. simpl. rewrite Hc. f_equal.
  now apply hyphenate_from_run.
Qed.

Lemma hyphenated_hyphenate (s t : jstring) :
  hyphenated s t -> t = hyphenate s.
Proof.
  induction 1 as [|c s t Hc _ IH|run s t Hn Hr Hs _ IH].
  - reflexivity.
  - unfold hyphenate. simpl. rewrite Hc. f_equal. exact IH.
  - rewrite (@hyphenate_run run s Hn Hr Hs). f_equal. exact IH.
Qed.

Lemma drop_spaces_length (s : jstring) :
  (List.length (drop_spaces s) <= List.length s)%nat.
Proof.
  induction s as [|c s IH]; simpl; [lia|].
  destruct (is_space c); simpl; lia.
Qed.

Lemma hyphenate_hyphenated (s : jstring) : hyphenated s (hyphenate s).
Proof.
  remember (List.length s) as n eqn:Hn. revert s Hn.
  induction n as [n IH] using (well_founded_induction Wf_nat.lt_wf).
  intros [|c s] Hn; [constructor|].
  destruct (is_space c) eqn:C.
  - destruct (drop_spaces_prefix s) as [run [Hs Hr]].
    assert (c :: s = (c :: run) ++ drop_spaces s) as Split
      by (simpl; now f_equal).
    rewrite Split.
    rewrite hyphenate_run;
      [|discriminate|simpl; now rewrite C|apply drop_spaces_starts].
    constructor; [discriminate|simpl; now rewrite C|apply drop_spaces_starts|].
    apply (IH (List.length (drop_spaces s))); [|reflexivity].
    subst n. simpl. pose proof (drop_spaces_length s). lia.
  - unfold hyphenate. simpl. rewrite C. constructor; [exact C|].
    apply (IH (List.length s)); [subst n; simpl; lia|reflexivity].
Qed.

(** [slugifyKey] computes the slug of the specification, and the slug is
    unique. *)
Lemma slugifyKey_slug_of (s : jstring) : slug_of s (slugifyKey s).
Proof.
  exists (trim (toLowerCase s)), (hyphenate (trim (toLowerCase s))).
  split; [apply trim_trimmed|]. split; [apply hyphenate_hyphenated|].
  reflexivity.
Qed.

Lemma slug_of_slugifyKey (s k : jstring) : slug_of s k -> k = slugifyKey s.
Proof.
  intros [t [h [Ht [Hh ->]]]]. apply trimmed_trim in Ht.
  apply hyphenated_hyphenate in Hh. subst t h. reflexivity.
Qed.

End SlugSpecFacts.

(* ===================================================================== *)
(** ** The handler monad *)
(* ===================================================================== *)

Section MonadFacts.
Context {E : Engine} {W : Wire}.

Lemma silent_ret {A} (a : A) : silent (ret a).
Proof. now exists (Next a). Qed.

Lemma silent_reply {A} (r : response) : silent (reply r : M A).
Proof. now exists (Reply r). Qed.

Lemma silent_raise {A} (x : exn) : silent (raise x : M A).
Proof. now exists (Raise x). Qed.

Lemma silent_bind {A B} (m : M A) (k : A -> M B) :
  silent m -> (forall a, silent (k a)) -> silent (bind m k).
Proof.
  intros [s Hm] Hk. unfold bind. destruct s as [a|r|x].
  - destruct (Hk a) as [s' Hs']. exists s'. intro w. now rewrite Hm, Hs'.
  - exists (Reply r). intro w. now rewrite Hm.
  - exists (Raise x). intro w. now rewrite Hm.
Qed.

Lemma silent_db_free {A} (m : M A) : silent m -> db_free m.
Proof.
  intros [s H]. exists s, []. intro w. rewrite H, app_nil_r. now destruct w.
Qed.

Lemma db_free_emit (ev : event) : db_free (emit ev).
Proof. now exists (Next tt), [ev]. Qed.

Lemma db_free_bind {A B} (m : M A) (k : A -> M B) :
  db_free m -> (forall a, db_free (k a)) -> db_free (bind m k).
Proof.
  intros [s [evs Hm]] Hk. unfold bind. destruct s as [a|r|x].
  - destruct (Hk a) as [s' [evs' Hs']]. exists s', (evs ++ evs'). intro w.
    rewrite Hm, Hs'. simpl. now rewrite app_assoc.
  - exists (Reply r), evs. intro w. now rewrite Hm.
  - exists (Raise x), evs. intro w. now rewrite Hm.
Qed.

Ltac quiet :=
  cbv zeta;
  repeat match goal with
  | |- silent (ret _) => apply silent_ret
  | |- silent (reply _) => apply silent_reply
  | |- silent (raise _) => apply silent_raise
  | |- silent (bind _ _) => apply silent_bind; [|intros]
  | |- silent (match ?x with _ => _ end) => destruct x
  | |- db_free (emit _) => apply db_free_emit
  | |- db_free (ret _) => apply silent_db_free, silent_ret
  | |- db_free (reply _) => apply silent_db_free, silent_reply
  | |- db_free (raise _) => apply silent_db_free, silent_raise
  | |- db_free (bind _ _) => apply db_free_bind; [|intros]
  | |- db_free (match ?x with _ => _ end) => destruct x
  end.

Lemma silent_read_body (e : env) : silent (read_body e).
Proof. unfold read_body. quiet. Qed.

Lemma silent_check_settings (s : bool) (e : env) (body : value) :
  silent (check_settings s e body).
Proof. unfold check_settings. quiet. Qed.

Lemma silent_check_request (e : env) : silent (check_request e).
Proof.
  unfold check_request. apply silent_bind; [apply silent_read_body|].
  intro body. quiet. apply silent_check_settings.
Qed.

Lemma silent_map_m {A B} (f : A -> M B) (l : list A) :
  (forall a, silent (f a)) -> silent (map_m f l).
Proof.
  intro Hf. induction l as [|x l IH]; simpl.
  - apply silent_ret.
  - apply silent_bind; [apply Hf|]. intro y.
    apply silent_bind; [apply IH|]. intro ys. apply silent_ret.
Qed.

Lemma silent_reference_image (img : value) : silent (reference_image img).
Proof. unfold reference_image. quiet. Qed.

Lemma silent_identification_of (raw : value) :
  silent (identification_of raw).
Proof.
  unfold identification_of, referenceImages. cbv zeta.
  apply silent_bind; [|intro; apply silent_ret].
  destruct (coalesce _ _); try apply silent_raise.
  apply silent_bind; [|intro; apply silent_ret].
  apply silent_map_m, silent_reference_image.
Qed.

Lemma db_free_download_image (g : bool) (url : jstring) (e : env) :
  db_free (download_image g url e).
Proof. unfold download_image. quiet. Qed.

Lemma db_free_ask_plantnet (ext : jstring) (organ : value) (e : env) :
  db_free (ask_plantnet ext organ e).
Proof. unfold ask_plantnet. quiet. Qed.

Lemma db_free_fetch_answer (e : env) (c : checked) :
  db_free (fetch_answer e c).
Proof.
  unfold fetch_answer. apply db_free_bind.
  - apply db_free_download_image.
  - intro. apply db_free_ask_plantnet.
Qed.

End MonadFacts.

(* ===================================================================== *)
(** ** What identify_tree does to the database *)
(* ===================================================================== *)

Section IdentifyFacts.
Context {E : Engine} {W : Wire}.

Lemma store_identification_run (e : env) (c : checked) (i : identification)
    (w : world) :
  store_identification e c i w
  = (Reply (stored_response e i (db w)),
     {| db := stored_db e c i (db w); trace := trace w |}).
Proof.
  unfold store_identification, stored_response, stored_db, new_sighting,
    after_upserts, after_first_upsert, plants_upsert, sightings_insert.
  destruct w as [d tr].
  destruct (first_upsert_error e), (upsert_error e), (insert_error e);
    reflexivity.
Qed.

Lemma identify_tree_identified (e : env) (c : checked) (i : identification)
    (d : database) :
  identified e = Some (c, i) ->
  serve (identify_tree e) d
  = (stored_response e i d, {| db := stored_db e c i d; trace := calls e |}).
Proof.
  unfold identified, answered, calls, serve, identify_tree, bind, try_catch.
  destruct (silent_check_request e) as [s1 H1]. rewrite !H1.
  destruct s1 as [c1|r|x]; try discriminate.
  destruct (db_free_fetch_answer e c1) as [s2 [evs H2]]. rewrite !H2.
  destruct s2 as [raw|r|x]; try discriminate.
  destruct (silent_identification_of raw) as [s3 H3]. rewrite !H3.
  destruct s3 as [i1|r|x]; try discriminate.
  intro H. inversion H. subst c1 i1.
  rewrite store_identification_run. reflexivity.
Qed.

Lemma identify_tree_unidentified (e : env) (d : database) :
  identified e = None -> db (snd (serve (identify_tree e) d)) = d.
Proof.
  unfold identified, answered, serve, identify_tree, bind, try_catch, reply.
  destruct (silent_check_request e) as [s1 H1]. rewrite !H1.
  destruct s1 as [c1|r|x]; try reflexivity.
  destruct (db_free_fetch_answer e c1) as [s2 [evs H2]]. rewrite !H2.
  destruct s2 as [raw|r|x]; try reflexivity.
  destruct (silent_identification_of raw) as [s3 H3]. rewrite !H3.
  destruct s3 as [i1|r|x]; try reflexivity.
  discriminate.
Qed.

(** The database after any request. *)
Lemma identify_tree_db (e : env) (d : database) :
  db (snd (serve (identify_tree e) d))
  = match identified e with
    | Some (c, i) => stored_db e c i d
    | None => d
    end.
Proof.
  destruct (identified e) as [[c i]|] eqn:H.
  - now rewrite (identify_tree_identified e d H).
  - now apply identify_tree_unidentified.
Qed.

End IdentifyFacts.

(* ===================================================================== *)
(** ** Upserts into plants *)
(* ===================================================================== *)

Section PlantsFacts.
Context {E : Engine} {W : Wire}.

Lemma has_key_true (k : jstring) (r : plant_row) :
  has_key k r = true <-> p_key r = k.
Proof. apply jstring_eqb_eq. Qed.

Lemma has_key_false (k : jstring) (r : plant_row) :
  has_key k r = false <-> p_key r <> k.
Proof. apply jstring_eqb_neq. Qed.

Lemma existsb_has_key (k : jstring) (rows : list plant_row) :
  existsb (has_key k) rows = true <-> In k (map p_key rows).
Proof.
  rewrite existsb_exists, in_map_iff. split.
  - intros [r [Hin Hk]]. exists r. apply has_key_true in Hk. auto.
  - intros [r [Hk Hin]]. exists r. split; [auto|]. now apply has_key_true.
Qed.

Lemma overwritten_by_sent (v old : value) : overwritten_by v (sent v old).
Proof. unfold overwritten_by, sent. destruct v; simpl; congruence. Qed.

Lemma carries_merge (p : plant_payload) (r : plant_row) :
  carries p (merge_plant p r).
Proof.
  unfold carries, merge_plant; simpl.
  repeat split; apply overwritten_by_sent.
Qed.

Lemma carries_fresh (p : plant_payload) (id : N) :
  carries p (plant_of_payload id p).
Proof.
  unfold carries, plant_of_payload; simpl.
  repeat split; apply overwritten_by_sent.
Qed.

(** Rows that do not hold key [k] are left alone. *)
Lemma merge_elsewhere (p : plant_payload) (rows : list plant_row) :
  ~ In (pp_key p) (map p_key rows) ->
  map (fun r => if has_key (pp_key p) r then merge_plant p r else r) rows
  = rows
  /\ filter (has_key (pp_key p)) rows = [].
Proof.
  induction rows as [|x rows IH]; simpl; intro H; [auto|].
  destruct (has_key (pp_key p) x) eqn:K.
  - apply has_key_true in K. tauto.
  - destruct IH as [IH1 IH2]; [tauto|]. now rewrite IH1, IH2.
Qed.

Lemma upsert_keys (id : N) (p : plant_payload) (rows : list plant_row) :
  map p_key (upsert_plant_rows id p rows)
  = if existsb (has_key (pp_key p)) rows then map p_key rows
    else map p_key rows ++ [pp_key p].
Proof.
  unfold upsert_plant_rows. destruct (existsb _ rows).
  - rewrite map_map. apply map_ext_in. intros r _.
    destruct (has_key (pp_key p) r) eqn:K; [|reflexivity].
    apply has_key_true in K. now simpl.
  - now rewrite map_app.
Qed.

Lemma upsert_ids (id : N) (p : plant_payload) (rows : list plant_row) :
  map p_id (upsert_plant_rows id p rows)
  = if existsb (has_key (pp_key p)) rows then map p_id rows
    else map p_id rows ++ [id].
Proof.
  unfold upsert_plant_rows. destruct (existsb _ rows).
  - rewrite map_map. apply map_ext_in. intros r _.
    now destruct (has_key (pp_key p) r).
  - now rewrite map_app.
Qed.

Lemma upsert_keeps_unique (id : N) (p : plant_payload)
    (rows : list plant_row) :
  NoDup (map p_key rows) -> NoDup (map p_key (upsert_plant_rows id p rows)).
Proof.
  intro H. rewrite upsert_keys.
  destruct (existsb (has_key (pp_key p)) rows) eqn:X; [assumption|].
  apply NoDup_app; [assumption|repeat constructor; simpl; tauto|].
  intros k Hk [Hp|[]]. subst k.
  apply existsb_has_key in Hk. congruence.
Qed.

Lemma upsert_length (id : N) (p : plant_payload) (rows : list plant_row) :
  List.length (upsert_plant_rows id p rows)
  = (List.length rows
     + if existsb (has_key (pp_key p)) rows then 0 else 1)%nat.
Proof.
  unfold upsert_plant_rows. destruct (existsb _ rows).
  - rewrite length_map. lia.
  - now rewrite length_app.
Qed.

(** After an upsert exactly one row holds the key, and it carries the
    payload; its id is the one the upsert selects. *)
Lemma upsert_one (id : N) (p : plant_payload) (rows : list plant_row) :
  NoDup (map p_key rows) ->
  exists r,
    filter (has_key (pp_key p)) (upsert_plant_rows id p rows) = [r]
    /\ carries p r
    /\ p_id r = match find (has_key (pp_key p)) rows with
                | Some r0 => p_id r0
                | None => id
                end.
Proof.
  unfold upsert_plant_rows.
  induction rows as [|x rows IH]; simpl; intro H.
  - exists (plant_of_payload id p). simpl.
    unfold has_key at 1. simpl. rewrite jstring_eqb_refl.
    split; [reflexivity|]. split; [apply carries_fresh|reflexivity].
  - inversion H as [|? ? Hx Hr]; subst.
    destruct (has_key (pp_key p) x) eqn:K; simpl.
    + exists (merge_plant p x).
      apply has_key_true in K. rewrite K in Hx.
      destruct (merge_elsewhere p rows Hx) as [M F].
      assert (has_key (pp_key p) (merge_plant p x) = true) as K'
        by (now apply has_key_true).
      rewrite K', M, F.
      split; [reflexivity|]. split; [apply carries_merge|reflexivity].
    + destruct (IH Hr) as [r [F [C I]]].
      destruct (existsb (has_key (pp_key p)) rows) eqn:X; simpl.
      * rewrite K. exists r. auto.
      * rewrite K. exists r. auto.
Qed.

End PlantsFacts.

(* ===================================================================== *)
(** ** What every operation does to the tables *)
(* ===================================================================== *)

Section OpsFacts.
Context {E : Engine} {W : Wire}.

Lemma silent_check_request_trees (e : env) : silent (check_request_trees e).
Proof.
  unfold check_request_trees. apply silent_bind; [apply silent_read_body|].
  intro body. cbv zeta.
  destruct (get body "imageUrl"); try apply silent_raise.
  destruct (_ || _); [apply silent_reply|].
  apply silent_bind; [apply silent_check_settings|].
  intro. apply silent_ret.
Qed.

Lemma silent_check_request_plain (e : env) : silent (check_request_plain e).
Proof.
  unfold check_request_plain. apply silent_bind; [apply silent_read_body|].
  intro body. cbv zeta.
  destruct (_ || _); [apply silent_reply|].
  apply silent_bind; [apply silent_check_settings|].
  intro. apply silent_ret.
Qed.

Lemma db_free_fetch_answer_guarded (e : env) (c : checked) :
  db_free (fetch_answer_guarded e c).
Proof.
  unfold fetch_answer_guarded. apply db_free_bind.
  - apply db_free_download_image.
  - intro. apply db_free_ask_plantnet.
Qed.

(** The two [trees] handlers leave the database alone or append one row
    to [trees]. *)
Lemma identify_basic_db (e : env) (d : database) :
  db (snd (serve (identify_basic e) d)) = d
  \/ exists row, db (snd (serve (identify_basic e) d)) = with_tree row d.
Proof.
  unfold serve, identify_basic, bind, try_catch, reply.
  destruct (silent_check_request_trees e) as [s1 H1]. rewrite !H1.
  destruct s1 as [c|r|x]; try (left; reflexivity).
  destruct (db_free_fetch_answer_guarded e c) as [s2 [evs H2]]. rewrite !H2.
  destruct s2 as [raw|r|x]; try (left; reflexivity).
  cbv zeta. unfold trees_insert, bind.
  destruct (insert_error e); simpl; [left; reflexivity|].
  right. eexists. reflexivity.
Qed.

Lemma identify_taxonomy_db (e : env) (d : database) :
  db (snd (serve (identify_taxonomy e) d)) = d
  \/ exists row, db (snd (serve (identify_taxonomy e) d)) = with_tree row d.
Proof.
  unfold serve, identify_taxonomy, bind, try_catch, reply.
  destruct (silent_check_request_trees e) as [s1 H1]. rewrite !H1.
  destruct s1 as [c|r|x]; try (left; reflexivity).
  destruct (db_free_fetch_answer_guarded e c) as [s2 [evs H2]]. rewrite !H2.
  destruct s2 as [raw|r|x]; try (left; reflexivity).
  cbv zeta. unfold trees_insert, bind.
  destruct (insert_error e); simpl; [left; reflexivity|].
  right. eexists. reflexivity.
Qed.

Lemma identify_only_db (e : env) (d : database) :
  db (snd (serve (identify_only e) d)) = d.
Proof.
  unfold serve, identify_only, bind, try_catch, reply.
  destruct (silent_check_request_plain e) as [s1 H1]. rewrite !H1.
  destruct s1 as [c|r|x]; try reflexivity.
  destruct (db_free_fetch_answer_guarded e c) as [s2 [evs H2]]. rewrite !H2.
  destruct s2 as [raw|r|x]; reflexivity.
Qed.

(** The detail page touches [tree_entries] only. *)
Lemma load_db (v : visit) (p : page) (d : database) :
  snd (load v p d) = d
  \/ (find (has_entry_key (v_plantKey v)) (tree_entries d) = None
      /\ snd (load v p d)
         = with_entries
             (tree_entries d
              ++ [{| n_key := v_plantKey v;
                     n_display_name :=
                       match v_log v with
                       | Some l => l_name l
                       | None => None
                       end;
                     n_notes := None;
                     n_updated_at := None |}]) d).
Proof.
  unfold load. cbv zeta.
  destruct (v_plantKey v); [now left|].
  destruct (cancelled v 1); [now left|].
  destruct (v_log_error v); [now left|].
  destruct (cancelled v 2); [now left|].
  destruct (v_entry_error v); [now left|].
  destruct (find _ (tree_entries d)) eqn:F.
  - left. now destruct (cancelled v 3).
  - destruct (v_create_error v).
    + left. now destruct (cancelled v 3).
    + right. split; [reflexivity|].
      destruct (cancelled v 3); [reflexivity|].
      now destruct (cancelled v 4).
Qed.

Lemma save_db (u : submit) (p : page) (d : database) :
  snd (save u p d)
  = match u_error u with
    | Some _ => d
    | None =>
        with_entries
          (upsert_entry_rows
             {| n_key := u_plantKey u;
                n_display_name := trimmed_or_null (displayName p);
                n_notes := trimmed_or_null (notes p);
                n_updated_at := Some (u_now u) |} (tree_entries d)) d
    end.
Proof. unfold save. now destruct (u_error u). Qed.

End OpsFacts.

(* ===================================================================== *)
(** ** The trees table only grows *)
(* ===================================================================== *)

Section TreesFacts.
Context {E : Engine} {W : Wire}.

Lemma stored_db_trees (e : env) (c : checked) (i : identification)
    (d : database) :
  trees (stored_db e c i d) = trees d.
Proof.
  unfold stored_db, after_upserts, after_first_upsert.
  now destruct (first_upsert_error e), (upsert_error e), (insert_error e).
Qed.

Lemma perform_trees (o : op) (d : database) :
  trees (perform o d) = trees d
  \/ exists row, trees (perform o d) = trees d ++ [row].
Proof.
  destruct o as [e|e|e|e| |v p|u p]; simpl.
  - left. rewrite identify_tree_db.
    destruct (identified e) as [[c i]|]; [apply stored_db_trees|reflexivity].
  - destruct (identify_taxonomy_db e d) as [H|[row H]]; rewrite H;
      [now left|right; now exists row].
  - destruct (identify_basic_db e d) as [H|[row H]]; rewrite H;
      [now left|right; now exists row].
  - left. now rewrite identify_only_db.
  - now left.
  - left. now destruct (load_db v p d) as [H|[_ H]]; rewrite H.
  - left. rewrite save_db. now destruct (u_error u).
Qed.

(** C8. Every operation of the system either leaves [trees] as it is or
    appends one new row to it, so after any sequence of operations the
    rows that were in [trees] are still there, unchanged and in place:
    the table after the run is the table before it followed by the rows
    added since. *)
Theorem trees_append_only :
  (forall (o : op) (d : database),
     trees (perform o d) = trees d
     \/ exists row, trees (perform o d) = trees d ++ [row])
  /\ (forall (ops : list op) (d : database),
        exists added, trees (run ops d) = trees d ++ added).
Proof.
  split; [apply perform_trees|].
  unfold run. induction ops as [|o ops IH]; intro d; simpl.
  - exists []. now rewrite app_nil_r.
  - destruct (IH (perform o d)) as [added H]. rewrite H.
    destruct (perform_trees o d) as [T|[row T]]; rewrite T.
    + now exists added.
    + exists (row :: added). now rewrite <- app_assoc.
Qed.

End TreesFacts.

(* ===================================================================== *)
(** ** What an identification holds *)
(* ===================================================================== *)

Section IdentificationFacts.
Context {E : Engine} {W : Wire}.

Lemma or_else_defined (a b : value) : b <> VUndef -> or_else a b <> VUndef.
Proof.
  unfold or_else. intro H. destruct (truthy a) eqn:T; [|assumption].
  intro U. subst a. discriminate.
Qed.

Lemma or_else_truthy (a b : value) :
  truthy b = true -> truthy (or_else a b) = true.
Proof. unfold or_else. intro H. now destruct (truthy a) eqn:T. Qed.

Lemma reference_images_of_array (best : value) (w w' : world) (v : value) :
  referenceImages best w = (Next v, w') -> is_array v = true.
Proof.
  unfold referenceImages, bind, ret, raise.
  destruct (coalesce _ _); try discriminate.
  destruct (map_m reference_image items w) as [[imgs|r|x] w1];
    try discriminate.
  intro H. now inversion H.
Qed.

(** The fields of an identification, in terms of the best match. *)
Lemma identification_of_fields (raw : value) (w w' : world)
    (i : identification) :
  identification_of raw w = (Next i, w') ->
  i_best i = get_index (get raw "results") 0
  /\ i_commonName i = commonName (i_best i)
  /\ i_scientificName i = scientificName (i_best i)
  /\ i_family i
     = or_else (get (get (get (i_best i) "species") "family")
                  "scientificNameWithoutAuthor") VNull
  /\ i_genus i
     = or_else (get (get (get (i_best i) "species") "genus")
                  "scientificNameWithoutAuthor") VNull
  /\ i_confidence i = number_or_null (get (i_best i) "score")
  /\ is_array (i_referenceImages i) = true
  /\ i_plantKey i = plantKey (i_best i).
Proof.
  unfold identification_of. cbv zeta. unfold bind at 1.
  destruct (referenceImages _ w) as [[imgs|r|x] w1] eqn:R;
    try discriminate.
  unfold ret. intro H. inversion H. subst. simpl.
  apply reference_images_of_array in R. tauto.
Qed.

Lemma identified_answered (e : env) (c : checked) (i : identification) :
  identified e = Some (c, i) ->
  exists raw w,
    answered e = Some (c, raw) /\ identification_of raw blank = (Next i, w).
Proof.
  unfold identified. destruct (answered e) as [[c1 raw]|]; [|discriminate].
  destruct (identification_of raw blank) as [[i1|r|x] w] eqn:I;
    try discriminate.
  intro H. inversion H. subst. now exists raw, w.
Qed.

Lemma identified_fields (e : env) (c : checked) (i : identification) :
  identified e = Some (c, i) ->
  i_commonName i = commonName (i_best i)
  /\ i_scientificName i = scientificName (i_best i)
  /\ i_commonName i <> VUndef
  /\ i_scientificName i <> VUndef
  /\ i_family i <> VUndef
  /\ i_genus i <> VUndef
  /\ i_referenceImages i <> VUndef
  /\ i_plantKey i = plantKey (i_best i).
Proof.
  intro H. destruct (identified_answered e H) as [raw [w [_ I]]].
  destruct (identification_of_fields _ _ I)
    as [_ [Hc [Hs [Hf [Hg [_ [Hr Hk]]]]]]].
  repeat split; try assumption.
  - rewrite Hc. unfold commonName.
    repeat apply or_else_defined. discriminate.
  - rewrite Hs. unfold scientificName.
    repeat apply or_else_defined. discriminate.
  - rewrite Hf. apply or_else_defined. discriminate.
  - rewrite Hg. apply or_else_defined. discriminate.
  - intro U. rewrite U in Hr. discriminate.
Qed.

Lemma plant_key_slug (best : value) :
  forallb is_slug_char (plantKey best) = true.
Proof. apply slugifyKey_all. Qed.

End IdentificationFacts.

(* ===================================================================== *)
(** ** Invariants of plants and sightings *)
(* ===================================================================== *)

Section Invariants.
Context {E : Engine} {W : Wire}.

Lemma run_invariant (P : database -> Prop) :
  (forall o d, P d -> P (perform o d)) ->
  forall ops d, P d -> P (run ops d).
Proof.
  intro H. unfold run. induction ops as [|o ops IH]; simpl; intros d Hd.
  - assumption.
  - apply IH, H, Hd.
Qed.

Lemma run_snoc (ops : list op) (o : op) (d : database) :
  run (ops ++ [o]) d = perform o (run ops d).
Proof. unfold run. now rewrite fold_left_app. Qed.

(** Only [identify_tree] writes [plants] and [sightings]. *)
Lemma perform_other (o : op) (d : database) :
  match o with
  | Identify _ => True
  | _ => plants (perform o d) = plants d
         /\ sightings (perform o d) = sightings d
  end.
Proof.
  destruct o as [e|e|e|e| |v p|u p]; simpl; auto.
  - destruct (identify_taxonomy_db e d) as [H|[row H]]; now rewrite H.
  - destruct (identify_basic_db e d) as [H|[row H]]; now rewrite H.
  - now rewrite identify_only_db.
  - destruct (load_db v p d) as [H|[_ H]]; now rewrite H.
  - rewrite save_db. now destruct (u_error u).
Qed.

(** For an operation other than [Identify]: [P] and [S] say that it
    leaves [plants] and [sightings] as they are. *)
Ltac other_ops d :=
  match goal with
  | |- context [perform ?o d] =>
      let PO := fresh "PO" in
      pose proof (perform_other o d) as PO; cbv beta iota in PO;
      destruct PO as [P S]
  end.

(** A property of the rows of [plants] that every upsert of the request
    keeps, holds after the request. *)
Lemma after_upserts_keeps (Q : list plant_row -> Prop) (e : env)
    (i : identification) (d : database) :
  (forall id p rows,
     p = first_payload i \/ p = second_payload i (now e) ->
     Q rows -> Q (upsert_plant_rows id p rows)) ->
  Q (plants d) -> Q (plants (after_upserts e i d)).
Proof.
  intros H Hd. unfold after_upserts, after_first_upsert.
  destruct (first_upsert_error e), (upsert_error e); simpl; auto.
Qed.

Lemma stored_db_plants (e : env) (c : checked) (i : identification)
    (d : database) :
  plants (stored_db e c i d) = plants (after_upserts e i d).
Proof.
  unfold stored_db. now destruct (upsert_error e), (insert_error e).
Qed.

Lemma stored_db_sightings (e : env) (c : checked) (i : identification)
    (d : database) :
  sightings (stored_db e c i d)
  = match upsert_error e, insert_error e with
    | None, None => sightings d ++ [new_sighting e c i d]
    | _, _ => sightings d
    end.
Proof.
  unfold stored_db, after_upserts, after_first_upsert.
  now destruct (first_upsert_error e), (upsert_error e), (insert_error e).
Qed.

(** The row an upsert selects is in the table and carries the payload. *)
Lemma upsert_selected (id : N) (p : plant_payload) (rows : list plant_row) :
  exists r,
    In r (upsert_plant_rows id p rows)
    /\ carries p r
    /\ p_id r = match find (has_key (pp_key p)) rows with
                | Some r0 => p_id r0
                | None => id
                end.
Proof.
  unfold upsert_plant_rows. induction rows as [|x rows IH]; simpl.
  - exists (plant_of_payload id p).
    split; [now left|]. split; [apply carries_fresh|reflexivity].
  - destruct (has_key (pp_key p) x) eqn:K; simpl.
    + rewrite ?K. exists (merge_plant p x).
      split; [now left|]. split; [apply carries_merge|reflexivity].
    + destruct IH as [r [Hin [C I]]].
      destruct (existsb (has_key (pp_key p)) rows); simpl;
        rewrite ?K; exists r; (split; [now right|auto]).
Qed.

Lemma upsert_key_lc (id : N) (p : plant_payload) (rows : list plant_row) :
  pp_key_lc p = pp_key p ->
  Forall (fun r => p_key_lc r = p_key r) rows ->
  Forall (fun r => p_key_lc r = p_key r) (upsert_plant_rows id p rows).
Proof.
  intros Hp H. unfold upsert_plant_rows.
  destruct (existsb (has_key (pp_key p)) rows).
  - apply Forall_map. eapply Forall_impl; [|exact H].
    intros r Hr. simpl. now destruct (has_key (pp_key p) r).
  - apply Forall_app. split; [assumption|].
    constructor; [assumption|constructor].
Qed.

Lemma upsert_keeps_ids (id : N) (p : plant_payload) (rows : list plant_row)
    (known : list N) :
  incl known (map p_id rows) ->
  incl known (map p_id (upsert_plant_rows id p rows)).
Proof.
  intros H x Hx. rewrite upsert_ids.
  destruct (existsb (has_key (pp_key p)) rows); [now apply H|].
  apply in_or_app. left. now apply H.
Qed.

(** The sighting of a request points at the row its second upsert
    selected: a stored row that holds the key of the request. *)
Lemma new_sighting_reference (e : env) (c : checked) (i : identification)
    (d : database) :
  upsert_error e = None ->
  exists p,
    In p (plants (after_upserts e i d))
    /\ p_key p = i_plantKey i
    /\ p_id p = s_plant_id (new_sighting e c i d).
Proof.
  intro U. unfold after_upserts, new_sighting, upserted_id. rewrite U.
  simpl.
  destruct (upsert_selected (next_id (after_first_upsert e i d))
              (second_payload i (now e))
              (plants (after_first_upsert e i d))) as [r [Hin [C I]]].
  exists r. split; [assumption|]. split; [apply C|exact I].
Qed.

Lemma perform_keeps_references (o : op) (d : database) :
  references_hold d -> references_hold (perform o d).
Proof.
  intro H. destruct o as [e|e|e|e| |v p|u p];
    [|other_ops d; unfold references_hold; rewrite P, S; exact H ..].
  simpl. rewrite identify_tree_db.
  destruct (identified e) as [[c i]|]; [|assumption].
  assert (incl (map p_id (plants d))
            (map p_id (plants (after_upserts e i d)))) as Ids.
  { apply (after_upserts_keeps
             (fun rows => incl (map p_id (plants d)) (map p_id rows))).
    - intros id p rows _. apply upsert_keeps_ids.
    - apply incl_refl. }
  assert (forall s, In s (sightings d) ->
            exists p, In p (plants (after_upserts e i d))
                      /\ p_id p = s_plant_id s) as Old.
  { intros s Hs. destruct (H s Hs) as [p [Hp Hid]].
    assert (In (p_id p) (map p_id (plants (after_upserts e i d)))) as K
      by (apply Ids; now apply in_map).
    apply in_map_iff in K. destruct K as [p' [Hid' Hp']].
    exists p'. split; [assumption|congruence]. }
  unfold references_hold. rewrite stored_db_plants, stored_db_sightings.
  destruct (upsert_error e) eqn:U; [exact Old|].
  destruct (insert_error e); [exact Old|].
  intros s Hs. apply in_app_or in Hs. destruct Hs as [Hs|[Hs|[]]].
  - now apply Old.
  - subst s. destruct (new_sighting_reference e c i d U) as [p [Hp [_ Hid]]].
    now exists p.
Qed.

Lemma perform_keeps_keys (o : op) (d : database) :
  keys_unique d -> keys_unique (perform o d).
Proof.
  intro H. destruct o as [e|e|e|e| |v p|u p];
    [|other_ops d; unfold keys_unique; rewrite P; exact H ..].
  simpl. rewrite identify_tree_db.
  destruct (identified e) as [[c i]|]; [|assumption].
  unfold keys_unique. rewrite stored_db_plants.
  apply (after_upserts_keeps (fun rows => NoDup (map p_key rows))).
  - intros id p rows _. apply upsert_keeps_unique.
  - exact H.
Qed.

Lemma perform_keeps_key_lc (o : op) (d : database) :
  Forall (fun r => p_key_lc r = p_key r) (plants d) ->
  Forall (fun r => p_key_lc r = p_key r) (plants (perform o d)).
Proof.
  intro H. destruct o as [e|e|e|e| |v p|u p];
    [|other_ops d; rewrite P; exact H ..].
  simpl. rewrite identify_tree_db.
  destruct (identified e) as [[c i]|] eqn:I; [|assumption].
  rewrite stored_db_plants.
  destruct (identified_fields e I) as [_ [_ [_ [_ [_ [_ [_ K]]]]]]].
  destruct (slug_fixed (i_plantKey i)) as [_ [L1 L2]];
    [rewrite K; apply plant_key_slug|].
  apply (after_upserts_keeps
           (fun rows => Forall (fun r => p_key_lc r = p_key r) rows));
    [|exact H].
  intros id p rows [Hp|Hp] Hr; subst p; apply upsert_key_lc; auto.
Qed.

End Invariants.

(* ===================================================================== *)
(** ** key and key_lc *)
(* ===================================================================== *)

Section KeyLc.
Context {E : Engine} {W : Wire}.

(** C10. [slugifyKey] is idempotent; the two values the handler computes
    for [key_lc] from a plant key (trim, lower-case, white space to
    hyphens in the first upsert, lower-case alone in the second) are the
    key itself; and in every database the system can reach, every row of
    [plants] has [key_lc] equal to [key]. *)
Theorem slugifyKey_idempotent_key_lc :
  (forall s, slugifyKey (slugifyKey s) = slugifyKey s)
  /\ (forall best,
        plantKeyLc (plantKey best) = plantKey best
        /\ toLowerCase (plantKey best) = plantKey best)
  /\ (forall ops,
        Forall (fun r => p_key_lc r = p_key r)
          (plants (run ops empty_database))).
Proof.
  split; [|split].
  - intro s. apply (slug_fixed (slugifyKey s)), slugifyKey_all.
  - intro best. unfold plantKeyLc.
    destruct (slug_fixed (plantKey best)) as [_ [L1 L2]];
      [apply plant_key_slug|auto].
  - intro ops.
    apply (run_invariant
             (fun d => Forall (fun r => p_key_lc r = p_key r) (plants d))).
    + apply perform_keeps_key_lc.
    + constructor.
Qed.

End KeyLc.

(* ===================================================================== *)
(** ** One plants row per key *)
(* ===================================================================== *)

Section OneRowPerKey.
Context {E : Engine} {W : Wire}.

Lemma reachable_keys_unique (ops : list op) :
  keys_unique (run ops empty_database).
Proof.
  apply (run_invariant keys_unique).
  - apply perform_keeps_keys.
  - constructor.
Qed.

Lemma upsert_has_key (id : N) (p : plant_payload) (rows : list plant_row) :
  existsb (has_key (pp_key p)) (upsert_plant_rows id p rows) = true.
Proof.
  destruct (upsert_selected id p rows) as [r [Hin [[K _] _]]].
  apply existsb_exists. exists r. split; [assumption|].
  now apply has_key_true.
Qed.

Lemma carries_second (i : identification) (t : Z) (r : plant_row) :
  carries (second_payload i t) r -> carries (first_payload i) r.
Proof. unfold carries. simpl. tauto. Qed.

(** After the upserts of a request of which at least one succeeded, one
    row holds the key; it carries the payload; the table grew by that row
    if the key was new and not at all otherwise. *)
Lemma after_upserts_one (e : env) (i : identification) (d : database) :
  keys_unique d ->
  first_upsert_error e = None \/ upsert_error e = None ->
  exists r,
    filter (has_key (i_plantKey i)) (plants (after_upserts e i d)) = [r]
    /\ carries (first_payload i) r
    /\ List.length (plants (after_upserts e i d))
       = (List.length (plants d)
          + if existsb (has_key (i_plantKey i)) (plants d) then 0 else 1)%nat.
Proof.
  intros U Ok. unfold after_upserts, after_first_upsert.
  destruct (first_upsert_error e) as [err1|] eqn:F1;
    destruct (upsert_error e) as [err2|] eqn:F2; simpl.
  - destruct Ok; discriminate.
  - destruct (upsert_one (next_id d) (second_payload i (now e)) (plants d) U)
      as [r [Hf [C _]]].
    exists r. split; [exact Hf|]. split; [now apply carries_second in C|].
    apply (upsert_length (next_id d) (second_payload i (now e))).
  - destruct (upsert_one (next_id d) (first_payload i) (plants d) U)
      as [r [Hf [C _]]].
    exists r. split; [exact Hf|]. split; [exact C|].
    apply (upsert_length (next_id d) (first_payload i)).
  - pose proof (upsert_keeps_unique (next_id d) (first_payload i) (plants d) U)
      as U1.
    destruct (upsert_one (next_id d + 1) (second_payload i (now e)) _ U1)
      as [r [Hf [C _]]].
    exists r. split; [exact Hf|]. split; [now apply carries_second in C|].
    rewrite (upsert_length (next_id d + 1) (second_payload i (now e))).
    pose proof (upsert_has_key (next_id d) (first_payload i) (plants d))
      as X.
    simpl pp_key in *. rewrite X.
    rewrite (upsert_length (next_id d) (first_payload i)). simpl pp_key.
    lia.
Qed.

Lemma find_filter {A} (f : A -> bool) (l : list A) :
  find f l = hd_error (filter f l).
Proof.
  induction l as [|x l IH]; simpl; [reflexivity|].
  now destruct (f x).
Qed.

(** An upsert that sends no [plant_details] leaves that column of the row
    as it is stored, NULL on a new row. *)
Lemma upsert_unsent_details (id : N) (p : plant_payload)
    (rows : list plant_row) :
  NoDup (map p_key rows) ->
  pp_plant_details p = VUndef ->
  exists r,
    filter (has_key (pp_key p)) (upsert_plant_rows id p rows) = [r]
    /\ p_plant_details r
       = match find (has_key (pp_key p)) rows with
         | Some r0 => p_plant_details r0
         | None => VNull
         end.
Proof.
  intros ND Un. unfold upsert_plant_rows.
  induction rows as [|x rows IH]; simpl.
  - exists (plant_of_payload id p). simpl.
    unfold has_key at 1. simpl. rewrite jstring_eqb_refl.
    split; [reflexivity|]. now rewrite Un.
  - inversion ND as [|? ? Hx Hr]; subst.
    destruct (has_key (pp_key p) x) eqn:K; simpl.
    + exists (merge_plant p x).
      apply has_key_true in K. rewrite K in Hx.
      destruct (merge_elsewhere p rows Hx) as [M F].
      assert (has_key (pp_key p) (merge_plant p x) = true) as K'
        by (now apply has_key_true).
      rewrite K', M, F.
      split; [reflexivity|]. simpl. now rewrite Un.
    + destruct (IH Hr) as [r [F D]].
      destruct (existsb (has_key (pp_key p)) rows) eqn:X; simpl;
        rewrite K; exists r; auto.
Qed.

Lemma after_upserts_unsent_details (e : env) (i : identification)
    (d : database) :
  keys_unique d ->
  first_upsert_error e = None \/ upsert_error e = None ->
  i_best i = VUndef ->
  exists r,
    filter (has_key (i_plantKey i)) (plants (after_upserts e i d)) = [r]
    /\ p_plant_details r
       = match find (has_key (i_plantKey i)) (plants d) with
         | Some r0 => p_plant_details r0
         | None => VNull
         end.
Proof.
  intros U Ok Un. unfold after_upserts, after_first_upsert.
  destruct (first_upsert_error e) as [err1|] eqn:F1;
    destruct (upsert_error e) as [err2|] eqn:F2; simpl.
  - destruct Ok; discriminate.
  - apply (upsert_unsent_details (next_id d) (second_payload i (now e))
             (plants d) U Un).
  - apply (upsert_unsent_details (next_id d) (first_payload i)
             (plants d) U Un).
  - pose proof (upsert_keeps_unique (next_id d) (first_payload i) (plants d) U)
      as U1.
    destruct (upsert_unsent_details (next_id d) (first_payload i)
                (plants d) U Un) as [r1 [F R1]].
    destruct (upsert_unsent_details (next_id d + 1)
                (second_payload i (now e)) _ U1 Un) as [r [Fr R]].
    exists r. split; [exact Fr|]. rewrite R.
    rewrite find_filter. simpl pp_key in *. rewrite F. simpl. exact R1.
Qed.

(** C3. In any database the system can reach, a request that the handler
    identifies and whose plants upsert succeeds (either of the two the
    handler issues) leaves exactly one [plants] row with the key of the
    request. That row holds the common name, scientific name, family,
    genus and reference images of this request. Its [plant_details] is
    the best match of this request when there is one; a request without
    a best match sends no [plant_details] column, and the row keeps the
    value it had (NULL on a new row). No second row is inserted: the
    table grows by one row if the key was new and keeps its length
    otherwise, and the keys stay unique. *)
Theorem plants_one_row_per_key (ops : list op) (e : env) (c : checked)
    (i : identification) :
  identified e = Some (c, i) ->
  first_upsert_error e = None \/ upsert_error e = None ->
  let d := run ops empty_database in
  let d' := perform (Identify e) d in
  keys_unique d'
  /\ exists r,
       filter (has_key (i_plantKey i)) (plants d') = [r]
       /\ p_common_name r = to_json (i_commonName i)
       /\ p_scientific_name r = to_json (i_scientificName i)
       /\ p_family r = to_json (i_family i)
       /\ p_genus r = to_json (i_genus i)
       /\ p_reference_images r = to_json (i_referenceImages i)
       /\ (i_best i <> VUndef -> p_plant_details r = to_json (i_best i))
       /\ (i_best i = VUndef ->
           p_plant_details r
           = match find (has_key (i_plantKey i)) (plants d) with
             | Some r0 => p_plant_details r0
             | None => VNull
             end)
       /\ List.length (plants d')
          = (List.length (plants d)
             + if existsb (has_key (i_plantKey i)) (plants d)
               then 0 else 1)%nat.
Proof.
  intros I Ok d d'. subst d'.
  split; [apply perform_keeps_keys, reachable_keys_unique|].
  simpl. rewrite identify_tree_db, I, stored_db_plants.
  destruct (after_upserts_one e i (reachable_keys_unique ops) Ok)
    as [r [Hf [C L]]].
  destruct (identified_fields e I) as [_ [_ [N1 [N2 [N3 [N4 [N5 _]]]]]]].
  destruct C as [_ [C1 [C2 [C3 [C4 [C5 C6]]]]]]. simpl in *.
  exists r. repeat split; auto.
  intro Un.
  destruct (after_upserts_unsent_details e i (reachable_keys_unique ops)
              Ok Un) as [r' [Hf' D]].
  fold d in Hf, Hf', D. rewrite Hf in Hf'. now injection Hf' as <-.
Qed.

End OneRowPerKey.

(** The oak request, sent twice: still one row for its key. *)
Lemma plants_one_row_per_key_witness :
  exists c i,
    identified oak_request = Some (c, i)
    /\ (first_upsert_error oak_request = None
        \/ upsert_error oak_request = None)
    /\ exists r,
         filter (has_key (i_plantKey i))
           (plants (run [Identify oak_request; Identify oak_request]
                      empty_database)) = [r]
         /\ p_common_name r = to_json (i_commonName i).
Proof.
  assert (match identified oak_request with
          | Some _ => true
          | None => false
          end = true) as H by (vm_compute; reflexivity).
  destruct (identified oak_request) as [[c i]|] eqn:I; [|discriminate H].
  exists c, i. split; [reflexivity|].
  split; [left; reflexivity|].
  destruct (@plants_one_row_per_key _ _ [Identify oak_request] oak_request
              c i I (or_introl eq_refl))
    as [_ [r [F [C _]]]].
  exists r. split; [exact F|exact C].
Defined.

(** After a request whose best match is named "Unknown", a request without
    a best match has the same key, and its result holds no best match; the
    row of the key still holds the best match of the earlier request as
    [plant_details], not anything of the latest result. *)
Lemma plant_details_survive_a_no_match :
  match identified no_match_request with
  | Some (_, i) =>
      i_best i = VUndef /\ i_plantKey i = lit "unknown"
  | None => False
  end
  /\ first_upsert_error no_match_request = None
  /\ upsert_error no_match_request = None
  /\ map p_plant_details
       (filter (has_key (lit "unknown"))
          (plants (run [Identify named_unknown_request;
                        Identify no_match_request] empty_database)))
     = [match_named_unknown].
Proof.
  split; [vm_compute; split; reflexivity|].
  split; [reflexivity|]. split; [reflexivity|].
  vm_compute. reflexivity.
Qed.

(* ===================================================================== *)
(** ** Sightings point at stored plants *)
(* ===================================================================== *)

Section SightingsReference.
Context {E : Engine} {W : Wire}.

(** The id a successful plants upsert hands back. *)
Lemma plants_upsert_selects (p : plant_payload) (w : world) :
  plants_upsert None p w
  = (Next (DbOk (upserted_id (pp_key p) (db w))),
     {| db := with_upsert p (db w); trace := trace w |}).
Proof. reflexivity. Qed.

(** C4. In every database the system can reach, each sighting points at
    a stored plant. Within one request of the identify handler: the
    sightings table is either untouched or gains one row, the latter only
    when the second plants upsert succeeded, and the plant_id of that row
    is the id this upsert selected, the id of a stored row holding the
    key of the request. No other operation writes sightings. *)
Theorem sightings_reference_plants :
  (forall ops, references_hold (run ops empty_database))
  /\ (forall e d,
        let d' := perform (Identify e) d in
        sightings d' = sightings d
        \/ exists c i s p,
             identified e = Some (c, i)
             /\ upsert_error e = None
             /\ sightings d' = sightings d ++ [s]
             /\ s_plant_id s
                = upserted_id (pp_key (second_payload i (now e)))
                    (after_first_upsert e i d)
             /\ In p (plants d')
             /\ p_key p = i_plantKey i
             /\ p_id p = s_plant_id s)
  /\ (forall e d,
        upsert_error e <> None ->
        sightings (perform (Identify e) d) = sightings d)
  /\ (forall o d,
        (forall e, o <> Identify e) ->
        sightings (perform o d) = sightings d).
Proof.
  split; [|split; [|split]].
  - intro ops. apply (run_invariant references_hold).
    + apply perform_keeps_references.
    + intros s [].
  - intros e d d'. subst d'. simpl. rewrite identify_tree_db.
    destruct (identified e) as [[c i]|] eqn:I; [|now left].
    rewrite stored_db_sightings, stored_db_plants.
    destruct (upsert_error e) eqn:U; [now left|].
    destruct (insert_error e); [now left|].
    right. destruct (new_sighting_reference e c i d U) as [p [Hp [K Hid]]].
    exists c, i, (new_sighting e c i d), p. repeat split; auto.
  - intros e d U. simpl. rewrite identify_tree_db.
    destruct (identified e) as [[c i]|]; [|reflexivity].
    rewrite stored_db_sightings. now destruct (upsert_error e).
  - intros o d H. pose proof (perform_other o d) as PO.
    destruct o; try (now destruct PO). now destruct (H e).
Qed.

End SightingsReference.

(** A request whose second upsert fails inserts no sighting. *)
Lemma sightings_reference_plants_witness :
  upsert_error failed_upsert_request <> None
  /\ sightings (perform (Identify failed_upsert_request) empty_database)
     = sightings empty_database.
Proof.
  assert (upsert_error failed_upsert_request <> None) as U by discriminate.
  split; [exact U|].
  destruct sightings_reference_plants as [_ [_ [H _]]].
  exact (H failed_upsert_request empty_database U).
Defined.

(* ===================================================================== *)
(** ** The plant key *)
(* ===================================================================== *)

Section PlantKey.
Context {E : Engine} {W : Wire}.

Lemma common_name_truthy (best : value) :
  truthy (commonName best) = true.
Proof. unfold commonName. now repeat apply or_else_truthy. Qed.

(** The last alternative of [rawKey] is never taken. *)
Lemma raw_key_of_source (best : value) :
  rawKey best
  = or_else (get (get best "species") "scientificNameWithoutAuthor")
      (or_else (get (get best "species") "scientificName")
         (commonName best)).
Proof.
  unfold rawKey. cbv zeta.
  unfold or_else at 3. now rewrite common_name_truthy.
Qed.

Lemma upsert_touches_key (id : N) (p : plant_payload)
    (rows : list plant_row) (r : plant_row) :
  In r (upsert_plant_rows id p rows) -> In r rows \/ p_key r = pp_key p.
Proof.
  unfold upsert_plant_rows. destruct (existsb _ rows).
  - intro H. apply in_map_iff in H. destruct H as [r0 [Hr Hin]].
    destruct (has_key (pp_key p) r0); subst r; [now right|now left].
  - intro H. apply in_app_or in H. destruct H as [H|[H|[]]];
      [now left|subst r; now right].
Qed.

Lemma lookup_key_of_success (i : identification) (id : N) (t : Z) :
  get (body (success_response i id t)) "key" = VStr (i_plantKey i).
Proof. reflexivity. Qed.

(** C1. For a request the handler identifies, the plant key is
    [slugifyKey] of the first truthy one of scientificNameWithoutAuthor,
    scientificName and the common name, written as a string. It is the
    slug of that string in the words of the specification ([slug_of]: the
    string lower-cased, then without the white space around it, then with
    each run of white space turned into one hyphen, then without every
    code unit outside [a-z0-9-]), and the only one; so the key has no
    other code unit. Every [plants] row the request writes has this key,
    a row with this key is stored once one of its upserts succeeds, and a
    200 response carries the same key in its [key] field. *)
Theorem plant_key_is_slug_of_name (e : env) (c : checked)
    (i : identification) (d : database) :
  identified e = Some (c, i) ->
  let species := get (i_best i) "species" in
  let source :=
    or_else (get species "scientificNameWithoutAuthor")
      (or_else (get species "scientificName") (i_commonName i)) in
  let r := fst (serve (identify_tree e) d) in
  let d' := db (snd (serve (identify_tree e) d)) in
  i_plantKey i = slugifyKey (to_string source)
  /\ i_plantKey i
     = keep_slug_chars (hyphenate (trim (toLowerCase (to_string source))))
  /\ slug_of (to_string source) (i_plantKey i)
  /\ (forall k, slug_of (to_string source) k -> k = i_plantKey i)
  /\ forallb is_slug_char (i_plantKey i) = true
  /\ (forall row, In row (plants d') ->
        In row (plants d) \/ p_key row = i_plantKey i)
  /\ (first_upsert_error e = None \/ upsert_error e = None ->
      exists row, In row (plants d') /\ p_key row = i_plantKey i)
  /\ (status r = 200 ->
      get (body r) "key" = VStr (i_plantKey i)
      /\ exists row, In row (plants d') /\ p_key row = i_plantKey i).
Proof.
  intros I species source r d'. subst species source r d'.
  destruct (identified_fields e I) as [Hc [_ [_ [_ [_ [_ [_ K]]]]]]].
  assert (i_plantKey i
          = slugifyKey
              (to_string
                 (or_else
                    (get (get (i_best i) "species")
                       "scientificNameWithoutAuthor")
                    (or_else (get (get (i_best i) "species") "scientificName")
                       (i_commonName i))))) as Key.
  { rewrite K, Hc. unfold plantKey. now rewrite raw_key_of_source. }
  assert (forall rows id p,
            p = first_payload i \/ p = second_payload i (now e) ->
            exists row, In row (upsert_plant_rows id p rows)
                        /\ p_key row = i_plantKey i) as Stored.
  { intros rows id p Hp.
    destruct (upsert_selected id p rows) as [row [Hin [[Hk _] _]]].
    exists row. split; [assumption|]. now destruct Hp; subst p. }
  assert (first_upsert_error e = None \/ upsert_error e = None ->
          exists row, In row (plants (after_upserts e i d))
                      /\ p_key row = i_plantKey i) as Written.
  { unfold after_upserts, after_first_upsert.
    destruct (first_upsert_error e), (upsert_error e); simpl; intro Ok;
      try (apply Stored; auto).
    destruct Ok; discriminate. }
  rewrite (identify_tree_identified e d I). simpl.
  rewrite stored_db_plants.
  split; [exact Key|]. split; [exact Key|].
  split; [rewrite Key; apply slugifyKey_slug_of|].
  split; [intros k Hk; rewrite Key; now apply slug_of_slugifyKey|].
  split; [rewrite K; apply plant_key_slug|].
  split; [|split].
  - apply (after_upserts_keeps
             (fun rows => forall row, In row rows ->
                In row (plants d) \/ p_key row = i_plantKey i)).
    + intros id p rows Hp Q row Hin.
      apply upsert_touches_key in Hin. destruct Hin as [Hin|Hk].
      * now apply Q.
      * right. now destruct Hp; subst p.
    + auto.
  - exact Written.
  - unfold stored_response.
    destruct (upsert_error e) eqn:U; [discriminate|].
    destruct (insert_error e); [discriminate|]. intros _.
    split; [apply lookup_key_of_success|]. apply Written. now right.
Qed.

End PlantKey.

(** A request whose best match is named " Quercus   robur ": the white
    space around the name is gone from the key, and the run inside it is
    one hyphen. *)
Lemma plant_key_is_slug_of_name_witness :
  exists c i,
    identified padded_oak_request = Some (c, i)
    /\ i_plantKey i = lit "quercus-robur"
    /\ slug_of (lit " Quercus   robur ") (lit "quercus-robur")
    /\ get (body (fst (serve (identify_tree padded_oak_request)
                         empty_database)))
         "key" = VStr (lit "quercus-robur").
Proof.
  assert (match identified padded_oak_request with
          | Some (_, i) =>
              match get (get (i_best i) "species")
                      "scientificNameWithoutAuthor" with
              | VStr s => jstring_eqb s (lit " Quercus   robur ")
              | _ => false
              end
          | None => false
          end = true) as H by (vm_compute; reflexivity).
  assert (status (fst (serve (identify_tree padded_oak_request)
                         empty_database)) = 200) as S
    by (vm_compute; reflexivity).
  destruct (identified padded_oak_request) as [[c i]|] eqn:I;
    [|discriminate H].
  destruct (@plant_key_is_slug_of_name _ _ padded_oak_request c i
              empty_database I)
    as [Key [_ [Spec [_ [_ [_ [_ R]]]]]]].
  destruct (get (get (i_best i) "species") "scientificNameWithoutAuthor")
    as [| |b|n|s|l|p] eqn:Nm; try discriminate H.
  apply jstring_eqb_eq in H. subst s.
  assert (i_plantKey i = lit "quercus-robur") as K.
  { rewrite Key. vm_compute. reflexivity. }
  exists c, i. split; [reflexivity|]. split; [exact K|].
  rewrite K in Spec, R. split.
  - exact Spec.
  - now destruct (R S) as [G _].
Defined.

(* ===================================================================== *)
(** ** A PlantNet answer without results *)
(* ===================================================================== *)

Section NoMatch.
Context {E : Engine} {W : Wire}.

Lemma slug_of_Unknown : slugifyKey (lit "Unknown") = lit "unknown".
Proof.
  unfold slugifyKey. rewrite toLowerCase_ascii by reflexivity. reflexivity.
Qed.

Lemma no_best_match (raw : value) :
  get raw "results" = VArr [] \/ get raw "results" = VUndef ->
  get_index (get raw "results") 0 = VUndef.
Proof. intros [H|H]; now rewrite H. Qed.

(** The identification of an answer without a best match. *)
Lemma identification_of_no_match (raw : value) (w : world) :
  get_index (get raw "results") 0 = VUndef ->
  identification_of raw w
  = (Next unknown_plant, w).
Proof.
  intro H. unfold identification_of. rewrite H. cbv zeta.
  unfold plantKey.
  replace (rawKey VUndef) with (VStr (lit "Unknown")) by reflexivity.
  simpl to_string. rewrite slug_of_Unknown. reflexivity.
Qed.

(** C9. When PlantNet answers with valid JSON whose results are empty or
    missing, and the plants upsert and the sighting insert succeed, the
    handler answers 200: the name is "Unknown", scientificName, family,
    genus and confidence are null, referenceImages is empty, the key is
    "unknown"; a plants row with key "unknown" is stored and one sighting
    that points at it is added. *)
Theorem no_match_still_recorded (e : env) (c : checked) (raw : value)
    (d : database) :
  answered e = Some (c, raw) ->
  get raw "results" = VArr [] \/ get raw "results" = VUndef ->
  upsert_error e = None ->
  insert_error e = None ->
  let r := fst (serve (identify_tree e) d) in
  let d' := db (snd (serve (identify_tree e) d)) in
  status r = 200
  /\ get (body r) "name" = VStr (lit "Unknown")
  /\ get (body r) "scientificName" = VNull
  /\ get (body r) "family" = VNull
  /\ get (body r) "genus" = VNull
  /\ get (body r) "confidence" = VNull
  /\ get (body r) "referenceImages" = VArr []
  /\ get (body r) "key" = VStr (lit "unknown")
  /\ exists p s,
       In p (plants d')
       /\ p_key p = lit "unknown"
       /\ sightings d' = sightings d ++ [s]
       /\ s_plant_id s = p_id p.
Proof.
  intros A R U S r d'. subst r d'.
  pose proof (identification_of_no_match raw blank (no_best_match raw R))
    as I0.
  assert (identified e = Some (c, unknown_plant)) as I.
  { unfold identified. now rewrite A, I0. }
  rewrite (identify_tree_identified e d I). simpl.
  unfold stored_response. rewrite U, S.
  repeat (split; [reflexivity|]).
  rewrite stored_db_plants, stored_db_sightings, U, S.
  destruct (new_sighting_reference e c unknown_plant d U)
    as [p [Hp [K Hid]]].
  exists p, (new_sighting e c unknown_plant d). repeat split; eauto.
Qed.

End NoMatch.

(** The request whose PlantNet answer has an empty results array. *)
Lemma no_match_still_recorded_witness :
  exists c raw,
    answered no_match_request = Some (c, raw)
    /\ get raw "results" = VArr []
    /\ upsert_error no_match_request = None
    /\ insert_error no_match_request = None
    /\ status (fst (serve (identify_tree no_match_request) empty_database))
       = 200.
Proof.
  assert (exists c raw,
            answered no_match_request = Some (c, raw)
            /\ get raw "results" = VArr []) as [c [raw [A R]]]
    by (eexists; eexists; split; vm_compute; reflexivity).
  exists c, raw. split; [exact A|].
  split; [exact R|]. split; [reflexivity|]. split; [reflexivity|].
  apply (no_match_still_recorded no_match_request empty_database A
           (or_introl R) eq_refl eq_refl).
Defined.

(* ===================================================================== *)
(** ** Fetches under a timer *)
(* ===================================================================== *)

Section Fetches.
Context {E : Engine} {W : Wire}.

Lemma fetch_with_timeout_bound (timeout : N) (srv : server) :
  snd (fetch_with_timeout timeout srv) <= timeout.
Proof.
  unfold fetch_with_timeout. destruct srv as [[t r]|]; simpl; [|lia].
  destruct (t <? timeout) eqn:T; simpl; [|lia].
  apply N.ltb_lt in T. lia.
Qed.



(** The calls of [fetch_answer]: the image download, then at most one
    PlantNet call, each with the wait the timer allows. *)
Lemma fetch_answer_trace (e : env) (c : checked) (w : world) :
  exists t1, t1 <= 15000 /\
    (trace (snd (fetch_answer e c w))
     = trace w ++ [FetchImage (c_normalizedImageUrl c) t1]
     \/ exists f t2, t2 <= 30000 /\
          trace (snd (fetch_answer e c w))
          = trace w ++ [FetchImage (c_normalizedImageUrl c) t1;
                        CallPlantNet f (c_organ c) t2]).
Proof.
  pose proof (fetch_with_timeout_bound image_timeout_ms (image_server e))
    as B1.
  pose proof (fetch_with_timeout_bound plantnet_timeout_ms
                (plantnet_server e)) as B2.
  unfold fetch_answer, download_image, ask_plantnet.
  destruct (fetch_with_timeout image_timeout_ms (image_server e))
    as [res1 t1].
  destruct (fetch_with_timeout plantnet_timeout_ms (plantnet_server e))
    as [res2 t2].
  simpl in B1, B2. exists t1. split; [exact B1|].
  unfold bind, emit, reply, raise, ret. simpl.
  destruct res1 as [st| |m]; simpl; auto.
  destruct (http_ok st); simpl; auto.
  destruct (image_blob e); simpl; auto.
  right. eexists. exists t2. split; [exact B2|].
  rewrite <- app_assoc.
  destruct res2 as [st2| |m2]; simpl; try reflexivity.
  destruct (http_ok st2); reflexivity.
Qed.

(** The trace of a request is what [calls] says, whatever happens after
    the fetches. *)
Lemma identify_tree_trace (e : env) (d : database) :
  trace (snd (serve (identify_tree e) d)) = calls e.
Proof.
  unfold calls, serve, identify_tree, bind, try_catch, reply.
  destruct (silent_check_request e) as [s1 H1]. rewrite !H1.
  destruct s1 as [c1|r|x]; try reflexivity.
  destruct (db_free_fetch_answer e c1) as [s2 [evs H2]]. rewrite !H2.
  destruct s2 as [raw|r|x]; try reflexivity.
  destruct (silent_identification_of raw) as [s3 H3]. rewrite !H3.
  destruct s3 as [i1|r|x]; try reflexivity.
  now rewrite store_identification_run.
Qed.

Lemma check_request_anywhere (e : env) (c : checked) (w : world) :
  fst (check_request e blank) = Next c -> check_request e w = (Next c, w).
Proof.
  destruct (silent_check_request e) as [s H]. rewrite !H. simpl.
  now intros ->.
Qed.

End Fetches.

Section PaceFacts.
Context {E : Engine} {W : Wire}.


(** With every untimed await settling at once the handler answers when
    its calls are over: [settles_after] follows the same path as the
    handler. *)
Lemma settles_with_calls (e : env) :
  settles_after e instant = Some (total_wait (calls e)).
Proof.
  unfold settles_after, calls.
  destruct (silent_check_request e) as [s1 H1]. rewrite !H1. simpl.
  destruct (req_method e) eqn:M.
  - pose proof (H1 blank) as Q.
    unfold check_request, read_body, bind, reply in Q. rewrite M in Q.
    inversion Q. reflexivity.
  - destruct s1 as [c|r|x]; try reflexivity.
    unfold fetch_answer, download_image, ask_plantnet.
    destruct (fetch_with_timeout image_timeout_ms (image_server e))
      as [res1 t1].
    destruct (fetch_with_timeout plantnet_timeout_ms (plantnet_server e))
      as [res2 t2].
    unfold bind, emit, reply, raise, ret, wait. simpl.
    destruct res1 as [st| |m]; simpl; try (f_equal; lia).
    destruct (http_ok st); simpl; try (f_equal; lia).
    destruct (image_blob e); simpl; try (f_equal; lia).
    destruct res2 as [st2| |m2]; simpl; try (f_equal; lia).
    destruct (http_ok st2); simpl; try (f_equal; lia).
    destruct (fst (identification_of _ blank)); try (f_equal; lia).
    destruct (upsert_error e); f_equal; lia.
  - pose proof (H1 blank) as Q.
    unfold check_request, read_body, bind, reply in Q. rewrite M in Q.
    inversion Q. reflexivity.
Qed.





End PaceFacts.

Section Timeouts.
Context {E : Engine} {W : Wire}.





End Timeouts.



(* ===================================================================== *)
(** ** The organ parameter *)
(* ===================================================================== *)

(** The organ "auto" is none of leaf, flower, fruit and bark, and the
    handler accepts it: the request is answered 200 and PlantNet is asked
    with organ "auto". *)
Lemma organ_auto_is_accepted :
  req_json auto_request
  = Some (VObj [(lit "imageUrl", VStr (lit "http://localhost:54321/oak.png"));
                (lit "organ", VStr (lit "auto"))])
  /\ ~ In (lit "auto") (map lit ["leaf"; "flower"; "fruit"; "bark"]%string)
  /\ status (fst (serve (identify_tree auto_request) empty_database)) = 200
  /\ In (CallPlantNet (lit "tree.png") (VStr (lit "auto")) 900)
       (trace (snd (serve (identify_tree auto_request) empty_database))).
Proof.
  split; [reflexivity|]. split; [|split].
  - vm_compute. intros [H|[H|[H|[H|[]]]]]; discriminate.
  - vm_compute. reflexivity.
  - vm_compute. right. left. reflexivity.
Qed.

Section Organ.
Context {E : Engine} {W : Wire}.

Lemma is_valid_organ_false (s : jstring) :
  ~ In s validOrgans -> is_valid_organ (VStr s) = false.
Proof.
  intro H. unfold is_valid_organ. apply not_true_is_false. intro X.
  apply existsb_exists in X. destruct X as [o [Hin Heq]].
  apply jstring_eqb_eq in Heq. now subst o.
Qed.

Lemma is_valid_organ_true (s : jstring) :
  In s validOrgans -> is_valid_organ (VStr s) = true.
Proof.
  intro H. unfold is_valid_organ. apply existsb_exists. exists s.
  split; [assumption|apply jstring_eqb_refl].
Qed.

Lemma truthy_nonempty (s : jstring) : s <> [] -> truthy (VStr s) = true.
Proof.
  intro H. simpl. apply jstring_eqb_neq in H. now rewrite H.
Qed.

(** The request checks of a POST with a JSON body, an image URL and a
    PlantNet key come down to the organ. *)
Lemma check_request_organ (e : env) (body : value) (url key : jstring)
    (w : world) :
  req_method e = POST ->
  req_json e = Some body ->
  get body "imageUrl" = VStr url -> url <> [] ->
  plantnet_key e = Some key -> key <> [] ->
  check_request e w
  = let organ := or_else (get body "organ") (VStr (lit "leaf")) in
    if is_valid_organ organ
    then (Next {| c_imageUrl := VStr url;
                  c_lat := number_or_null (get body "lat");
                  c_lng := number_or_null (get body "lng");
                  c_normalizedImageUrl := dockerize url;
                  c_organ := organ |}, w)
    else (Reply invalid_organ_response, w).
Proof.
  intros Hm Hj Hu Hne Hk Hkne.
  unfold check_request, read_body, check_settings, bind.
  rewrite Hm, Hj. unfold ret at 1. rewrite Hu, Hk.
  rewrite (truthy_nonempty Hne). simpl.
  destruct key as [|k0 key]; [contradiction|].
  now destruct (is_valid_organ _).
Qed.

(** The settings check that every handler runs rejects an unknown organ
    in the same way. *)
Lemma check_settings_rejects (with_supabase : bool) (e : env) (body : value)
    (key s : jstring) (w : world) :
  plantnet_key e = Some key -> key <> [] ->
  (with_supabase = true -> supabase_env e = true) ->
  get body "organ" = VStr s -> s <> [] ->
  ~ In s validOrgans ->
  check_settings with_supabase e body w = (Reply invalid_organ_response, w).
Proof.
  intros Hk Hkne Hs Ho Hne Bad. unfold check_settings.
  rewrite Hk. destruct key as [|k0 key]; [contradiction|].
  assert (with_supabase && negb (supabase_env e) = false) as X.
  { destruct with_supabase; [|reflexivity]. now rewrite Hs. }
  rewrite X, Ho. unfold or_else. rewrite (truthy_nonempty Hne).
  now rewrite (is_valid_organ_false Bad).
Qed.

(** C6, amended. For a POST request with a JSON body, a non-empty string
    imageUrl and a configured PlantNet key: if the organ field is a
    non-empty string other than leaf, flower, fruit, bark and auto, the
    handler answers 400 with the message that lists these five values and
    makes no call; each of the five values is accepted as it is; if the
    organ field is omitted the handler goes on with organ "leaf": it
    downloads the image, and any PlantNet call it makes carries "leaf". *)
Theorem organ_validation (e : env) (body : value) (url key : jstring)
    (d : database) :
  req_method e = POST ->
  req_json e = Some body ->
  get body "imageUrl" = VStr url -> url <> [] ->
  plantnet_key e = Some key -> key <> [] ->
  let r := fst (serve (identify_tree e) d) in
  let w := snd (serve (identify_tree e) d) in
  (forall s,
     get body "organ" = VStr s -> s <> [] ->
     ~ In s (map lit ["leaf"; "flower"; "fruit"; "bark"; "auto"]%string) ->
     r = error_response 400
           (lit "Invalid organ type. Must be one of: leaf, flower, fruit, bark, auto")
     /\ status r = 400
     /\ w = {| db := d; trace := [] |})
  /\ (forall s,
        get body "organ" = VStr s ->
        In s (map lit ["leaf"; "flower"; "fruit"; "bark"; "auto"]%string) ->
        exists c, fst (check_request e blank) = Next c /\ c_organ c = VStr s)
  /\ (get body "organ" = VUndef ->
      (exists c,
         fst (check_request e blank) = Next c
         /\ c_organ c = VStr (lit "leaf"))
      /\ (exists t rest, trace w = FetchImage (dockerize url) t :: rest)
      /\ (forall f o t,
            In (CallPlantNet f o t) (trace w) -> o = VStr (lit "leaf"))).
Proof.
  intros Hm Hj Hu Hne Hk Hkne r w. subst r w.
  pose proof (fun w => check_request_organ e w Hm Hj Hu Hne Hk Hkne) as C.
  cbv zeta in C.
  split; [|split].
  - intros s Ho Hs Bad.
    assert (serve (identify_tree e) d
            = (invalid_organ_response, {| db := d; trace := [] |})) as R.
    { unfold serve, identify_tree, bind. rewrite C, Ho.
      unfold or_else. rewrite (truthy_nonempty Hs).
      now rewrite (is_valid_organ_false Bad). }
    rewrite R. auto.
  - intros s Ho Good.
    assert (s <> []) as Hs.
    { intro X. subst s. vm_compute in Good.
      destruct Good as [G|[G|[G|[G|[G|[]]]]]]; discriminate. }
    rewrite C, Ho. unfold or_else. rewrite (truthy_nonempty Hs).
    rewrite (is_valid_organ_true Good). eexists. split; reflexivity.
  - intro Ho.
    assert (fst (check_request e blank)
            = Next {| c_imageUrl := VStr url;
                      c_lat := number_or_null (get body "lat");
                      c_lng := number_or_null (get body "lng");
                      c_normalizedImageUrl := dockerize url;
                      c_organ := VStr (lit "leaf") |}) as Checked.
    { rewrite C, Ho. reflexivity. }
    split; [eexists; split; [exact Checked|reflexivity]|].
    rewrite identify_tree_trace. unfold calls.
    rewrite (check_request_anywhere e blank Checked).
    destruct (fetch_answer_trace e
                {| c_imageUrl := VStr url;
                   c_lat := number_or_null (get body "lat");
                   c_lng := number_or_null (get body "lng");
                   c_normalizedImageUrl := dockerize url;
                   c_organ := VStr (lit "leaf") |} blank)
      as [t1 [_ [T|[f [t2 [_ T]]]]]]; rewrite T; simpl; split.
    + now exists t1, [].
    + intros f o t [Hin|[]]. discriminate.
    + now exists t1, [CallPlantNet f (VStr (lit "leaf")) t2].
    + intros f' o t [Hin|[Hin|[]]]; [discriminate|]. now inversion Hin.
Qed.

End Organ.

(** The oak request names no organ: it is checked with organ "leaf". *)
Lemma organ_validation_witness :
  req_method oak_request = POST
  /\ (exists c,
        fst (check_request oak_request blank) = Next c
        /\ c_organ c = VStr (lit "leaf")).
Proof.
  split; [reflexivity|].
  destruct (organ_validation oak_request (body := _) (url := _) (key := _)
              empty_database eq_refl eq_refl eq_refl
              ltac:(discriminate) eq_refl ltac:(discriminate))
    as [_ [_ H]].
  destruct (H eq_refl) as [C _]. exact C.
Defined.

(* ===================================================================== *)
(** ** The notes row of the detail page *)
(* ===================================================================== *)

Section Entries.
Context {E : Engine} {W : Wire}.

Lemma has_entry_key_true (k : jstring) (r : entry_row) :
  has_entry_key k r = true <-> n_key r = k.
Proof. apply jstring_eqb_eq. Qed.

Lemma find_entry_none (k : jstring) (rows : list entry_row) :
  find (has_entry_key k) rows = None -> ~ In k (map n_key rows).
Proof.
  intros F H. apply in_map_iff in H. destruct H as [r [Hk Hin]].
  pose proof (find_none _ _ F r Hin) as X.
  apply has_entry_key_true in Hk. congruence.
Qed.

Lemma entries_elsewhere (e : entry_row) (rows : list entry_row) :
  ~ In (n_key e) (map n_key rows) ->
  map (fun r => if has_entry_key (n_key e) r then e else r) rows = rows
  /\ filter (has_entry_key (n_key e)) rows = [].
Proof.
  induction rows as [|x rows IH]; simpl; intro H; [auto|].
  destruct (has_entry_key (n_key e) x) eqn:K.
  - apply has_entry_key_true in K. tauto.
  - destruct IH as [IH1 IH2]; [tauto|]. now rewrite IH1, IH2.
Qed.

Lemma upsert_entry_keys (e : entry_row) (rows : list entry_row) :
  map n_key (upsert_entry_rows e rows)
  = if existsb (has_entry_key (n_key e)) rows then map n_key rows
    else map n_key rows ++ [n_key e].
Proof.
  unfold upsert_entry_rows. destruct (existsb _ rows).
  - rewrite map_map. apply map_ext_in. intros r _.
    destruct (has_entry_key (n_key e) r) eqn:K; [|reflexivity].
    apply has_entry_key_true in K. now simpl.
  - now rewrite map_app.
Qed.

Lemma upsert_entry_keeps_unique (e : entry_row) (rows : list entry_row) :
  NoDup (map n_key rows) -> NoDup (map n_key (upsert_entry_rows e rows)).
Proof.
  intro H. rewrite upsert_entry_keys.
  destruct (existsb (has_entry_key (n_key e)) rows) eqn:X; [assumption|].
  apply NoDup_app; [assumption|repeat constructor; simpl; tauto|].
  intros k Hk [Hp|[]]. subst k.
  apply in_map_iff in Hk. destruct Hk as [r [Hr Hin]].
  assert (existsb (has_entry_key (n_key e)) rows = true) as Y.
  { apply existsb_exists. exists r. split; [assumption|].
    now apply has_entry_key_true. }
  congruence.
Qed.

(** After the upsert the row of the key is the payload, and it is the
    only one. *)
Lemma upsert_entry_one (e : entry_row) (rows : list entry_row) :
  NoDup (map n_key rows) ->
  filter (has_entry_key (n_key e)) (upsert_entry_rows e rows) = [e].
Proof.
  unfold upsert_entry_rows.
  assert (has_entry_key (n_key e) e = true) as Ke
    by (now apply has_entry_key_true).
  induction rows as [|x rows IH]; simpl; intro H.
  - now rewrite Ke.
  - inversion H as [|? ? Hx Hr]; subst.
    destruct (has_entry_key (n_key e) x) eqn:K; simpl.
    + apply has_entry_key_true in K. rewrite K in Hx.
      destruct (entries_elsewhere e rows Hx) as [M F].
      now rewrite Ke, M, F.
    + specialize (IH Hr).
      destruct (existsb (has_entry_key (n_key e)) rows); simpl;
        now rewrite K.
Qed.

Lemma cancelled_earlier (v : visit) :
  cancelled v 2 = false -> cancelled v 1 = false.
Proof.
  unfold cancelled. destruct (v_unmounted v) as [n|]; [|reflexivity].
  intro H. apply Nat.ltb_ge in H. apply Nat.ltb_ge. lia.
Qed.

Lemma perform_keeps_entry_keys (o : op) (d : database) :
  entry_keys_unique d -> entry_keys_unique (perform o d).
Proof.
  unfold entry_keys_unique. intro H.
  destruct o as [e|e|e|e| |v p|u p]; simpl.
  - rewrite identify_tree_db. destruct (identified e) as [[c i]|]; [|exact H].
    unfold stored_db, after_upserts, after_first_upsert.
    now destruct (first_upsert_error e), (upsert_error e), (insert_error e).
  - now destruct (identify_taxonomy_db e d) as [X|[row X]]; rewrite X.
  - now destruct (identify_basic_db e d) as [X|[row X]]; rewrite X.
  - now rewrite identify_only_db.
  - exact H.
  - destruct (load_db v p d) as [X|[F X]]; rewrite X; [exact H|]. simpl.
    rewrite map_app. apply NoDup_app; [exact H|repeat constructor; simpl; tauto|].
    intros k Hk [Hp|[]]. subst k. now apply find_entry_none in F.
  - rewrite save_db. destruct (u_error u); [exact H|]. simpl.
    now apply upsert_entry_keeps_unique.
Qed.

(** [trimmed_or_null] in the words of the specification. *)
Lemma trimmed_or_null_trimmed (s t : jstring) :
  trimmed s t ->
  trimmed_or_null s = match t with [] => None | _ :: _ => Some t end.
Proof.
  intro H. apply trimmed_trim in H. subst t. reflexivity.
Qed.

(** C5. The detail page creates the [tree_entries] row of a plant key
    when it loads and finds none: with a plant key in the URL, the log and
    notes queries answered and the page still mounted, it inserts the row
    with the name of the log row as display_name (null without a log row
    or a name), null notes, and nothing else; when a row exists the load
    writes nothing. Save upserts by key: afterwards the one row of the key
    holds the trimmed display name and the trimmed notes, null where the
    trimmed text is empty. Trimmed is meant as the specification says it
    ([trimmed]: the text without the white space before and after it),
    and every text has exactly one trimmed form. The keys of
    [tree_entries] stay unique in every database the system can reach. *)
Theorem tree_entry_created_lazily_and_saved :
  (forall v p d,
     v_plantKey v <> [] ->
     cancelled v 2 = false ->
     v_log_error v = None ->
     v_entry_error v = None ->
     v_create_error v = None ->
     find (has_entry_key (v_plantKey v)) (tree_entries d) = None ->
     tree_entries (snd (load v p d))
     = tree_entries d
       ++ [{| n_key := v_plantKey v;
              n_display_name :=
                match v_log v with Some l => l_name l | None => None end;
              n_notes := None;
              n_updated_at := None |}])
  /\ (forall v p d row,
        find (has_entry_key (v_plantKey v)) (tree_entries d) = Some row ->
        snd (load v p d) = d)
  /\ (forall u p d,
        u_error u = None ->
        entry_keys_unique d ->
        let d' := snd (save u p d) in
        filter (has_entry_key (u_plantKey u)) (tree_entries d')
        = [{| n_key := u_plantKey u;
              n_display_name := trimmed_or_null (displayName p);
              n_notes := trimmed_or_null (notes p);
              n_updated_at := Some (u_now u) |}]
        /\ entry_keys_unique d')
  /\ (forall s,
        (trim s = [] -> trimmed_or_null s = None)
        /\ (trim s <> [] -> trimmed_or_null s = Some (trim s)))
  /\ (forall u p d name text,
        u_error u = None ->
        entry_keys_unique d ->
        trimmed (displayName p) name ->
        trimmed (notes p) text ->
        filter (has_entry_key (u_plantKey u))
          (tree_entries (snd (save u p d)))
        = [{| n_key := u_plantKey u;
              n_display_name :=
                match name with [] => None | _ :: _ => Some name end;
              n_notes := match text with [] => None | _ :: _ => Some text end;
              n_updated_at := Some (u_now u) |}])
  /\ (forall s,
        (exists t, trimmed s t)
        /\ (forall t t', trimmed s t -> trimmed s t' -> t = t')
        /\ (forallb is_space s = true -> trimmed s []))
  /\ (forall ops, entry_keys_unique (run ops empty_database)).
Proof.
  assert (forall u p d,
            u_error u = None ->
            entry_keys_unique d ->
            filter (has_entry_key (u_plantKey u))
              (tree_entries (snd (save u p d)))
            = [{| n_key := u_plantKey u;
                  n_display_name := trimmed_or_null (displayName p);
                  n_notes := trimmed_or_null (notes p);
                  n_updated_at := Some (u_now u) |}]) as Saved.
  { intros u p d Ok U. rewrite save_db, Ok. simpl.
    apply (upsert_entry_one
             {| n_key := u_plantKey u;
                n_display_name := trimmed_or_null (displayName p);
                n_notes := trimmed_or_null (notes p);
                n_updated_at := Some (u_now u) |} (tree_entries d) U). }
  split; [|split; [|split; [|split; [|split; [|split]]]]].
  - intros v p d Key C2 L En Cr F.
    pose proof (cancelled_earlier v C2) as C1.
    unfold load. cbv zeta.
    destruct (v_plantKey v) as [|k0 k] eqn:K; [contradiction|].
    rewrite C1, L, C2, En, F, Cr.
    destruct (cancelled v 3); [reflexivity|].
    now destruct (cancelled v 4).
  - intros v p d row F.
    destruct (load_db v p d) as [X|[F' _]]; [exact X|congruence].
  - intros u p d Ok U d'. subst d'. split; [now apply Saved|].
    rewrite save_db, Ok. simpl.
    unfold entry_keys_unique. simpl. now apply upsert_entry_keeps_unique.
  - intro s. unfold trimmed_or_null.
    destruct (trim s); split; congruence.
  - intros u p d name text Ok U Hn Ht.
    rewrite (Saved u p d Ok U).
    now rewrite (trimmed_or_null_trimmed Hn), (trimmed_or_null_trimmed Ht).
  - intro s. split; [exists (trim s); apply trim_trimmed|]. split.
    + intros t t' H H'. apply trimmed_trim in H, H'. congruence.
    + intro H. exists s, []. rewrite app_nil_r. repeat split; assumption.
  - intro ops. apply (run_invariant entry_keys_unique).
    + apply perform_keeps_entry_keys.
    + constructor.
Qed.

End Entries.

(** The first visit of the page of a plant that the log knows, and a save
    of the name "  Old oak " with notes of three blanks. *)
Lemma tree_entry_created_lazily_and_saved_witness :
  tree_entries (snd (load oak_visit initial_page empty_database))
  = [{| n_key := lit "quercus-robur";
        n_display_name := Some (lit "English oak");
        n_notes := None;
        n_updated_at := None |}]
  /\ trimmed (lit "  Old oak ") (lit "Old oak")
  /\ trimmed (lit "   ") []
  /\ filter (has_entry_key (lit "quercus-robur"))
       (tree_entries (snd (save oak_submit blank_notes_form empty_database)))
     = [{| n_key := lit "quercus-robur";
           n_display_name := Some (lit "Old oak");
           n_notes := None;
           n_updated_at := Some 1767387600000%Z |}].
Proof.
  destruct (@tree_entry_created_lazily_and_saved ascii_engine ascii_wire)
    as [L [_ [_ [_ [S _]]]]].
  assert (trimmed (lit "  Old oak ") (lit "Old oak")) as Tn.
  { exists (lit "  "), (lit " "). repeat split; reflexivity. }
  assert (trimmed (lit "   ") []) as Tt.
  { exists (lit "   "), []. repeat split; reflexivity. }
  split; [|split; [exact Tn|split; [exact Tt|]]].
  - apply (L oak_visit initial_page empty_database); try reflexivity.
    discriminate.
  - apply (S oak_submit blank_notes_form empty_database (lit "Old oak") []
             eq_refl).
    + constructor.
    + exact Tn.
    + exact Tt.
Defined.

(* ===================================================================== *)
(** ** The plant_log view *)
(* ===================================================================== *)

Lemma text_compare_refl (a : jstring) : text_compare a a = Eq.
Proof.
  induction a as [|x a IH]; simpl; [reflexivity|].
  now rewrite N.compare_refl.
Qed.

Lemma text_compare_eq (a b : jstring) : text_compare a b = Eq <-> a = b.
Proof.
  split; [|intros ->; apply text_compare_refl].
  revert b. induction a as [|x a IH]; destruct b as [|y b]; simpl;
    try discriminate; [reflexivity|].
  destruct (x ?= y) eqn:C; try discriminate.
  apply N.compare_eq in C. intro H. f_equal; [assumption|now apply IH].
Qed.

Lemma text_compare_antisym (a b : jstring) :
  text_compare b a = CompOpp (text_compare a b).
Proof.
  revert b. induction a as [|x a IH]; destruct b as [|y b]; simpl;
    try reflexivity.
  rewrite (N.compare_antisym x y).
  destruct (x ?= y); simpl; [apply IH|reflexivity|reflexivity].
Qed.

Lemma text_compare_lt_trans (a b c : jstring) :
  text_compare a b = Lt -> text_compare b c = Lt -> text_compare a c = Lt.
Proof.
  revert b c. induction a as [|x a IH]; destruct b as [|y b];
    destruct c as [|z c]; simpl; try discriminate; try reflexivity.
  destruct (x ?= y) eqn:XY; try discriminate;
    destruct (y ?= z) eqn:YZ; try discriminate; intros H1 H2.
  - apply N.compare_eq in XY, YZ. subst. rewrite N.compare_refl.
    now apply (IH b c).
  - apply N.compare_eq in XY. subst. now rewrite YZ.
  - apply N.compare_eq in YZ. subst. now rewrite XY.
  - rewrite N.compare_lt_iff in XY, YZ.
    assert (x < z) as XZ by lia. apply N.compare_lt_iff in XZ.
    now rewrite XZ.
Qed.

Lemma name_compare_eq (a b : option jstring) :
  name_compare a b = Eq <-> a = b.
Proof.
  destruct a as [x|], b as [y|]; simpl; try (split; congruence).
  rewrite text_compare_eq. split; congruence.
Qed.

Lemma name_compare_antisym (a b : option jstring) :
  name_compare b a = CompOpp (name_compare a b).
Proof.
  destruct a as [x|], b as [y|]; simpl; try reflexivity.
  apply text_compare_antisym.
Qed.

Lemma name_compare_lt_trans (a b c : option jstring) :
  name_compare a b = Lt -> name_compare b c = Lt -> name_compare a c = Lt.
Proof.
  destruct a as [x|], b as [y|], c as [z|]; simpl; try discriminate;
    try reflexivity.
  apply text_compare_lt_trans.
Qed.

Lemma same_name_eq (a b : option jstring) : same_name a b = true <-> a = b.
Proof.
  unfold same_name. rewrite <- name_compare_eq.
  destruct (name_compare a b); split; congruence.
Qed.

Section ViewFacts.
Context {E : Engine} {W : Wire}.

Lemma precedes_total (a b : tree_row) :
  precedes a b = true \/ precedes b a = true.
Proof.
  unfold precedes.
  rewrite (name_compare_antisym (t_scientific_name a) (t_scientific_name b)).
  destruct (name_compare _ _); simpl; auto.
  rewrite !Z.leb_le. lia.
Qed.

Lemma precedes_trans (a b c : tree_row) :
  before a b -> before b c -> before a c.
Proof.
  unfold before, precedes.
  destruct (name_compare (t_scientific_name a) (t_scientific_name b)) eqn:AB;
    try discriminate;
    destruct (name_compare (t_scientific_name b) (t_scientific_name c))
      eqn:BC; try discriminate.
  - apply name_compare_eq in AB. rewrite AB, BC, !Z.leb_le. lia.
  - apply name_compare_eq in AB. now rewrite AB, BC.
  - apply name_compare_eq in BC. now rewrite <- BC, AB.
  - now rewrite (name_compare_lt_trans _ _ _ AB BC).
Qed.

Lemma insert_by_perm (f : tree_row -> tree_row -> bool) (r : tree_row)
    (l : list tree_row) :
  Permutation (r :: l) (insert_by f r l).
Proof.
  induction l as [|x l IH]; simpl; [reflexivity|].
  destruct (f r x); [reflexivity|].
  rewrite perm_swap. now constructor.
Qed.

Lemma order_by_perm (f : tree_row -> tree_row -> bool) (l : list tree_row) :
  Permutation l (order_by f l).
Proof.
  induction l as [|x l IH]; simpl; [reflexivity|].
  rewrite <- insert_by_perm. now constructor.
Qed.

Lemma insert_by_sorted (r : tree_row) (l : list tree_row) :
  StronglySorted before l -> StronglySorted before (insert_by precedes r l).
Proof.
  induction 1 as [|x l S IH F]; simpl.
  - repeat constructor.
  - destruct (precedes r x) eqn:P.
    + constructor; [now constructor|].
      constructor; [exact P|].
      eapply Forall_impl; [|exact F]. intros y Hy.
      now apply (precedes_trans P).
    + constructor; [exact IH|].
      apply (Permutation_Forall (insert_by_perm precedes r l)).
      constructor; [|exact F].
      destruct (precedes_total r x) as [X|X]; [congruence|exact X].
Qed.

Lemma order_by_sorted (l : list tree_row) :
  StronglySorted before (order_by precedes l).
Proof.
  induction l as [|x l IH]; simpl; [constructor|].
  now apply insert_by_sorted.
Qed.

(** [DISTINCT ON] over sorted rows: each row kept is the newest of its
    name, every name is kept, and no name twice. [prev], the name before
    the list, is no greater than the names in it. *)
Lemma distinct_from_sorted (l : list tree_row) :
  StronglySorted before l ->
  forall prev,
    (forall k, prev = Some k ->
       forall x, In x l -> name_compare k (t_scientific_name x) <> Gt) ->
    (forall r, In r (distinct_from prev l) ->
       In r l /\ prev <> Some (t_scientific_name r)
       /\ forall r', In r' l ->
            t_scientific_name r' = t_scientific_name r ->
            (t_created_at r' <= t_created_at r)%Z)
    /\ (forall r, In r l -> prev <> Some (t_scientific_name r) ->
          exists r0, In r0 (distinct_from prev l)
                     /\ t_scientific_name r0 = t_scientific_name r)
    /\ NoDup (map t_scientific_name (distinct_from prev l)).
Proof.
  induction 1 as [|x l S IH F]; intros prev Low; simpl.
  - split; [intros r []|]. split; [intros r []|constructor].
  - rewrite Forall_forall in F.
    assert (forall y, In y l ->
              name_compare (t_scientific_name x) (t_scientific_name y) <> Gt)
      as Lx.
    { intros y Hy. specialize (F y Hy). unfold before, precedes in F.
      destruct (name_compare _ _); congruence. }
    destruct (match prev with
              | Some k => same_name k (t_scientific_name x)
              | None => false
              end) eqn:Skip.
    + destruct prev as [k|]; [|discriminate].
      apply same_name_eq in Skip. subst k.
      destruct (IH (Some (t_scientific_name x))) as [A [B C]].
      { intros k Hk y Hy. inversion Hk. subst k. now apply Lx. }
      split; [|split; [|exact C]].
      * intros r Hr. destruct (A r Hr) as [A1 [A2 A3]].
        split; [now right|]. split; [exact A2|].
        intros r' [Hr'|Hr'] K; [|now apply A3].
        subst r'. congruence.
      * intros r [Hr|Hr] N; [subst r; congruence|now apply B].
    + assert (prev <> Some (t_scientific_name x)) as Px.
      { intro X. subst prev.
        destruct (same_name_eq (t_scientific_name x) (t_scientific_name x))
          as [_ Y]. rewrite Y in Skip; [discriminate|reflexivity]. }
      destruct (IH (Some (t_scientific_name x))) as [A [B C]].
      { intros k Hk y Hy. inversion Hk. subst k. now apply Lx. }
      split; [|split].
      * intros r [Hr|Hr].
        -- subst r. split; [now left|]. split; [exact Px|].
           intros r' [Hr'|Hr'] K; [subst r'; lia|].
           specialize (F r' Hr'). unfold before, precedes in F.
           rewrite <- K in F.
           destruct (name_compare_eq (t_scientific_name r')
                       (t_scientific_name r')) as [_ Y].
           rewrite Y in F by reflexivity. now apply Z.leb_le.
        -- destruct (A r Hr) as [A1 [A2 A3]].
           split; [now right|]. split.
           ++ intro X. subst prev.
              specialize (Low _ eq_refl x (or_introl eq_refl)).
              pose proof (Lx r A1) as L2.
              rewrite (name_compare_antisym (t_scientific_name r)
                         (t_scientific_name x)) in L2.
              destruct (name_compare (t_scientific_name r)
                          (t_scientific_name x)) eqn:C0;
                simpl in L2; try congruence.
              apply name_compare_eq in C0. congruence.
           ++ intros r' [Hr'|Hr'] K; [subst r'; congruence|now apply A3].
      * intros r [Hr|Hr] N.
        -- subst r. exists x. split; [now left|reflexivity].
        -- destruct (same_name (t_scientific_name x) (t_scientific_name r))
             eqn:Same.
           ++ apply same_name_eq in Same.
              exists x. split; [now left|exact Same].
           ++ destruct (B r Hr) as [r0 [H0 K0]].
              { intro X. inversion X as [Y].
                destruct (same_name_eq (t_scientific_name x)
                            (t_scientific_name r)) as [_ Z].
                rewrite Z in Same; [discriminate|exact Y]. }
              exists r0. split; [now right|exact K0].
      * constructor; [|exact C].
        intro X. apply in_map_iff in X. destruct X as [r [K Hr]].
        destruct (A r Hr) as [_ [A2 _]]. congruence.
Qed.

Lemma NoDup_map_unique {A B} (f : A -> B) (l : list A) (a b : A) :
  NoDup (map f l) -> In a l -> In b l -> f a = f b -> a = b.
Proof.
  induction l as [|x l IH]; simpl; intros N Ha Hb K; [contradiction|].
  inversion N as [|? ? Nx Nl]; subst.
  destruct Ha as [Ha|Ha], Hb as [Hb|Hb]; subst.
  - reflexivity.
  - exfalso. apply Nx. rewrite K. now apply in_map.
  - exfalso. apply Nx. rewrite <- K. now apply in_map.
  - now apply IH.
Qed.

(** The rows the view keeps, before the select list is applied. *)
Lemma kept_rows (ts : list tree_row) :
  let kept := distinct_on_name (order_by precedes (filter named ts)) in
  (forall r, In r kept ->
     In r ts /\ named r = true
     /\ forall r', In r' ts ->
          t_scientific_name r' = t_scientific_name r ->
          (t_created_at r' <= t_created_at r)%Z)
  /\ (forall r, In r ts -> named r = true ->
        exists r0, In r0 kept
                   /\ t_scientific_name r0 = t_scientific_name r)
  /\ NoDup (map t_scientific_name kept).
Proof.
  intro kept. subst kept. unfold distinct_on_name.
  pose proof (order_by_perm precedes (filter named ts)) as P.
  destruct (distinct_from_sorted (order_by_sorted (filter named ts))
              (prev := None)) as [A [B C]]; [discriminate|].
  split; [|split; [|exact C]].
  - intros r Hr. destruct (A r Hr) as [A1 [_ A3]].
    apply (Permutation_in _ (Permutation_sym P)) in A1.
    apply filter_In in A1. destruct A1 as [In1 Named].
    split; [exact In1|]. split; [exact Named|].
    intros r' Hr' K. apply A3; [|exact K].
    apply (Permutation_in _ P). apply filter_In. split; [exact Hr'|].
    unfold named in *. now rewrite K.
  - intros r Hr Named. apply B; [|discriminate].
    apply (Permutation_in _ P). apply filter_In. auto.
Qed.

(** C2. For every state of [trees]: each row of [plant_log] is the image
    of a [trees] row with a non-null scientific_name whose created_at is
    the greatest among the rows of that name, and its last_seen is that
    created_at; for every non-null scientific_name in [trees] the view
    has exactly one row; no name appears twice. *)
Theorem plant_log_latest_per_species (ts : list tree_row) :
  (forall v, In v (plant_log ts) ->
     exists t n,
       In t ts
       /\ v = select_columns t
       /\ t_scientific_name t = Some n
       /\ g_last_seen v = t_created_at t
       /\ forall t', In t' ts ->
            t_scientific_name t' = Some n ->
            (t_created_at t' <= t_created_at t)%Z)
  /\ (forall t n,
        In t ts -> t_scientific_name t = Some n ->
        exists v,
          In v (plant_log ts)
          /\ g_scientific_name v = Some n
          /\ forall v',
               In v' (plant_log ts) -> g_scientific_name v' = Some n ->
               v' = v)
  /\ NoDup (map g_scientific_name (plant_log ts)).
Proof.
  destruct (kept_rows ts) as [A [B C]]. unfold plant_log.
  split; [|split].
  - intros v Hv. apply in_map_iff in Hv. destruct Hv as [t [Hv Ht]].
    destruct (A t Ht) as [In1 [Named Max]].
    unfold named in Named.
    destruct (t_scientific_name t) as [n|] eqn:K; [|discriminate].
    exists t, n. subst v. repeat split; auto.
  - intros t n Ht K.
    destruct (B t Ht) as [r0 [H0 K0]]; [unfold named; now rewrite K|].
    exists (select_columns r0). split; [now apply in_map|].
    split; [simpl; congruence|].
    intros v' Hv' K'. apply in_map_iff in Hv'. destruct Hv' as [r' [Hv Hr']].
    subst v'. simpl in K'. f_equal.
    apply (NoDup_map_unique t_scientific_name _ r' r0 C Hr' H0). congruence.
  - rewrite map_map. simpl. exact C.
Qed.

End ViewFacts.

(** Two sightings of one species and a row without a name: the view shows
    the later sighting, once. *)
Lemma plant_log_latest_per_species_witness :
  map (fun v => (g_id v, g_last_seen v))
    (plant_log
       [{| t_id := 1; t_created_at := 100%Z; t_image_path := None;
           t_image_url := None; t_lat := None; t_lng := None;
           t_identified_name := None;
           t_scientific_name := Some (lit "Quercus robur");
           t_genus := None; t_family := None; t_common_names := None;
           t_gbif_id := None; t_powo_id := None; t_iucn_category := None;
           t_confidence := None; t_features := None |};
        {| t_id := 2; t_created_at := 300%Z; t_image_path := None;
           t_image_url := None; t_lat := None; t_lng := None;
           t_identified_name := None;
           t_scientific_name := Some (lit "Quercus robur");
           t_genus := None; t_family := None; t_common_names := None;
           t_gbif_id := None; t_powo_id := None; t_iucn_category := None;
           t_confidence := None; t_features := None |};
        {| t_id := 3; t_created_at := 200%Z; t_image_path := None;
           t_image_url := None; t_lat := None; t_lng := None;
           t_identified_name := None;
           t_scientific_name := None;
           t_genus := None; t_family := None; t_common_names := None;
           t_gbif_id := None; t_powo_id := None; t_iucn_category := None;
           t_confidence := None; t_features := None |}])
  = [(2, 300%Z)]
  /\ NoDup
       (map g_scientific_name
          (plant_log
             [{| t_id := 1; t_created_at := 100%Z; t_image_path := None;
                 t_image_url := None; t_lat := None; t_lng := None;
                 t_identified_name := None;
                 t_scientific_name := Some (lit "Quercus robur");
                 t_genus := None; t_family := None; t_common_names := None;
                 t_gbif_id := None; t_powo_id := None;
                 t_iucn_category := None;
                 t_confidence := None; t_features := None |}])).
Proof.
  split; [vm_compute; reflexivity|].
  apply plant_log_latest_per_species.
Defined.

(* ===================================================================== *)
(** * More of the handlers *)
(* ===================================================================== *)

Section HandlerOutcomes.
Context {E : Engine} {W : Wire}.

Lemma check_request_outcomes (e : env) (w : world) :
  (exists c, check_request e w = (Next c, w))
  \/ (exists r, check_request e w = (Reply r, w) /\ In r check_failures).
Proof.
  assert (forall r, In r check_failures ->
            (exists c : checked,
               (Reply r : step checked, w) = (Next c, w))
            \/ (exists r', (Reply r : step checked, w) = (Reply r', w)
                           /\ In r' check_failures)) as Fail.
  { intros r Hin. right. now exists r. }
  unfold check_request, read_body, check_settings, bind, ret, reply.
  destruct (req_method e); try (apply Fail; simpl; tauto).
  destruct (req_json e) as [body|]; try (apply Fail; simpl; tauto).
  destruct (negb (truthy (get body "imageUrl"))
            || negb (is_string (get body "imageUrl")));
    try (apply Fail; simpl; tauto).
  destruct (plantnet_key e) as [[|k0 k]|]; try (apply Fail; simpl; tauto).
  simpl.
  destruct (is_valid_organ (or_else (get body "organ") (VStr (lit "leaf"))));
    simpl; [|apply Fail; simpl; tauto].
  left. eexists. reflexivity.
Qed.

(** X1. A request that does not pass the request checks is answered by
    the first check it fails, in this order: 204 with an empty body for
    OPTIONS; 405 "Method not allowed" for a method other than POST; 400
    "Invalid JSON body" when the body is not JSON; 400 "Missing required
    field: imageUrl" when imageUrl is falsy or not a string; 500 "Server
    misconfigured: missing PLANTNET_KEY" without the key; 400 "Invalid
    organ type. Must be one of: leaf, flower, fruit, bark, auto" for an
    organ outside the list. In each case the handler makes no call and
    leaves the database as it is; a request gets none of these responses
    only by passing the checks. *)
Theorem rejected_request_has_no_effect (e : env) (d : database) :
  let r := fst (serve (identify_tree e) d) in
  let w := snd (serve (identify_tree e) d) in
  let untouched := {| db := d; trace := [] |} in
  ((exists c, fst (check_request e blank) = Next c)
   \/ (In r check_failures /\ w = untouched))
  /\ (req_method e = OPTIONS ->
      r = {| status := 204; body := VNull |} /\ w = untouched)
  /\ (req_method e = OtherMethod ->
      r = error_response 405 (lit "Method not allowed") /\ w = untouched)
  /\ (req_method e = POST -> req_json e = None ->
      r = error_response 400 (lit "Invalid JSON body") /\ w = untouched)
  /\ (forall b,
        req_method e = POST -> req_json e = Some b ->
        truthy (get b "imageUrl") = false
        \/ is_string (get b "imageUrl") = false ->
        r = error_response 400 (lit "Missing required field: imageUrl")
        /\ w = untouched)
  /\ (forall b url,
        req_method e = POST -> req_json e = Some b ->
        get b "imageUrl" = VStr url -> url <> [] ->
        plantnet_key e = None \/ plantnet_key e = Some [] ->
        r = error_response 500
              (lit "Server misconfigured: missing PLANTNET_KEY")
        /\ w = untouched)
  /\ (forall b url key,
        req_method e = POST -> req_json e = Some b ->
        get b "imageUrl" = VStr url -> url <> [] ->
        plantnet_key e = Some key -> key <> [] ->
        is_valid_organ (or_else (get b "organ") (VStr (lit "leaf"))) = false ->
        r = error_response 400
              (lit "Invalid organ type. Must be one of: leaf, flower, fruit, bark, auto")
        /\ w = untouched).
Proof.
  cbv zeta.
  assert (forall r,
            check_request e {| db := d; trace := [] |}
            = (Reply r, {| db := d; trace := [] |}) ->
            serve (identify_tree e) d = (r, {| db := d; trace := [] |}))
    as Rejected.
  { intros r H. unfold serve, identify_tree, bind. now rewrite H. }
  split; [|split; [|split; [|split; [|split; [|split]]]]].
  - destruct (check_request_outcomes e blank) as [[c H]|[r [H Hin]]].
    + left. exists c. now rewrite H.
    + right. destruct (check_request_outcomes e {| db := d; trace := [] |})
        as [[c H']|[r' [H' Hin']]].
      * destruct (silent_check_request e) as [s S].
        rewrite S in H, H'. congruence.
      * rewrite (Rejected _ H'). auto.
  - intro M. rewrite (Rejected {| status := 204; body := VNull |});
      [split; reflexivity|].
    unfold check_request, read_body, bind, reply. now rewrite M.
  - intro M. rewrite (Rejected (error_response 405 (lit "Method not allowed")));
      [split; reflexivity|].
    unfold check_request, read_body, bind, reply. now rewrite M.
  - intros M J.
    rewrite (Rejected (error_response 400 (lit "Invalid JSON body")));
      [split; reflexivity|].
    unfold check_request, read_body, bind, reply. now rewrite M, J.
  - intros b M J Bad.
    rewrite (Rejected (error_response 400
                         (lit "Missing required field: imageUrl")));
      [split; reflexivity|].
    unfold check_request, read_body, bind, reply, ret. rewrite M, J.
    cbv zeta.
    assert (negb (truthy (get b "imageUrl"))
            || negb (is_string (get b "imageUrl")) = true) as ->.
    { destruct Bad as [-> | ->]; [reflexivity|apply orb_true_r]. }
    reflexivity.
  - intros b url M J U Ne K.
    rewrite (Rejected (error_response 500
                         (lit "Server misconfigured: missing PLANTNET_KEY")));
      [split; reflexivity|].
    unfold check_request, read_body, check_settings, bind, reply, ret.
    rewrite M, J. cbv zeta. rewrite U, (truthy_nonempty Ne). simpl.
    now destruct K as [-> | ->].
  - intros b url key M J U Ne K Kne Bad.
    rewrite (Rejected (error_response 400
                         (lit "Invalid organ type. Must be one of: leaf, flower, fruit, bark, auto")));
      [split; reflexivity|].
    rewrite (check_request_organ e _ M J U Ne K Kne). cbv zeta.
    now rewrite Bad.
Qed.

Lemma reference_image_run (img : value) (w : world) :
  (nullish img = true /\ reference_image img w = (Raise NullishAccess, w))
  \/ (nullish img = false /\ exists o, reference_image img w = (Next o, w)).
Proof.
  unfold reference_image. destruct (nullish img).
  - now left.
  - right. split; [reflexivity|]. eexists. reflexivity.
Qed.

Lemma map_m_reference_image (items : list value) (w : world) :
  (existsb nullish items = false
   /\ exists l, map_m reference_image items w = (Next l, w)
                /\ List.length l = List.length items)
  \/ (existsb nullish items = true
      /\ map_m reference_image items w = (Raise NullishAccess, w)).
Proof.
  induction items as [|x items IH]; simpl.
  - left. split; [reflexivity|]. now exists [].
  - unfold bind.
    destruct (reference_image_run x w) as [[N R]|[N [o R]]]; rewrite N, R.
    + now right.
    + destruct IH as [[H [l [Hl Len]]]|[H Hr]]; rewrite H.
      * left. split; [reflexivity|]. rewrite Hl. eexists.
        split; [reflexivity|]. simpl. now rewrite Len.
      * right. split; [reflexivity|]. now rewrite Hr.
Qed.

(** [identification_of] yields an identification with as many reference
    images as the best match has, or throws: on an [images] value without
    [map], and on a null element. *)
Lemma identification_of_outcomes (raw : value) (w : world) :
  match coalesce (get (get_index (get raw "results") 0) "images") (VArr [])
  with
  | VArr items =>
      if existsb nullish items
      then identification_of raw w = (Raise NullishAccess, w)
      else exists i imgs,
             identification_of raw w = (Next i, w)
             /\ i_referenceImages i = VArr imgs
             /\ List.length imgs = List.length items
  | _ => identification_of raw w = (Raise NotCallable, w)
  end.
Proof.
  unfold identification_of, referenceImages. cbv zeta. unfold bind.
  destruct (coalesce _ _) as [| |b|n|s|items|props]; try reflexivity.
  destruct (map_m_reference_image items w) as [[H [l [Hl Len]]]|[H Hr]];
    rewrite H.
  - rewrite Hl. unfold ret. eexists. exists l. split; [reflexivity|]. auto.
  - now rewrite Hr.
Qed.

(** The replies of the two fetches. *)
Lemma fetch_answer_outcomes (e : env) (c : checked) (w : world) :
  exists w',
    ((fetch_answer e c w
      = (Next (match plantnet_json e with
               | Some v => v
               | None => VObj []
               end), w'))
     \/ (exists r, fetch_answer e c w = (Reply r, w')
                   /\ proper_response r /\ status r <> 200
                   /\ status r <> 204)
     \/ (exists x, fetch_answer e c w = (Raise x, w')))
    /\ db w' = db w.
Proof.
  unfold fetch_answer, download_image, ask_plantnet.
  destruct (fetch_with_timeout image_timeout_ms (image_server e))
    as [res1 t1].
  destruct (fetch_with_timeout plantnet_timeout_ms (plantnet_server e))
    as [res2 t2].
  unfold bind, emit, reply, raise, ret. simpl.
  assert (forall msg st,
            msg <> [] -> In st [400; 408; 502] ->
            forall rest,
            proper_response
              {| status := st;
                 body := VObj ((lit "error", VStr msg) :: rest) |}
            /\ st <> 200 /\ st <> 204) as Proper.
  { intros msg st Hm Hs rest. unfold proper_response. simpl.
    split; [|destruct Hs as [<-|[<-|[<-|[]]]]; split; discriminate].
    split.
    - destruct Hs as [<-|[<-|[<-|[]]]]; tauto.
    - right. right. exists msg. split; [reflexivity|exact Hm]. }
  assert (forall A (r : response) (w1 : world),
            db w1 = db w ->
            proper_response r /\ status r <> 200 /\ status r <> 204 ->
            exists w',
              (((Reply r : step value, w1) = (Next A, w'))
               \/ (exists r', (Reply r : step value, w1) = (Reply r', w')
                              /\ proper_response r' /\ status r' <> 200
                              /\ status r' <> 204)
               \/ (exists x, (Reply r : step value, w1) = (Raise x, w')))
              /\ db w' = db w) as Replied.
  { intros A r w1 D P. exists w1. split; [|exact D].
    right. left. now exists r. }
  assert (forall A (x : exn) (w1 : world),
            db w1 = db w ->
            exists w',
              (((Raise x : step value, w1) = (Next A, w'))
               \/ (exists r', (Raise x : step value, w1) = (Reply r', w')
                              /\ proper_response r' /\ status r' <> 200
                              /\ status r' <> 204)
               \/ (exists x', (Raise x : step value, w1) = (Raise x', w')))
              /\ db w' = db w) as Raised.
  { intros A x w1 D. exists w1. split; [|exact D].
    right. right. now exists x. }
  destruct res1 as [st| |m]; simpl.
  - destruct (http_ok st); simpl.
    + destruct (image_blob e); simpl.
      * destruct res2 as [st2| |m2]; simpl.
        -- destruct (http_ok st2); simpl.
           ++ eexists. split; [left; reflexivity|reflexivity].
           ++ apply Replied; [reflexivity|apply Proper; [discriminate|simpl; tauto]].
        -- apply Replied; [reflexivity|apply Proper; [discriminate|simpl; tauto]].
        -- now apply Raised.
      * now apply Raised.
    + apply Replied; [reflexivity|apply Proper; [discriminate|simpl; tauto]].
  - apply Replied; [reflexivity|apply Proper; [discriminate|simpl; tauto]].
  - now apply Raised.
Qed.

Lemma unexpected_error_proper (x : exn) :
  proper_response (unexpected_error x)
  /\ status (unexpected_error x) = 500
  /\ get (body (unexpected_error x)) "error"
     = VStr (lit "Unexpected server error").
Proof.
  unfold proper_response. simpl. repeat split; try tauto.
  right. right. eexists. split; [reflexivity|discriminate].
Qed.

Lemma stored_response_proper (e : env) (i : identification) (d : database) :
  proper_response (stored_response e i d).
Proof.
  unfold stored_response, proper_response.
  destruct (upsert_error e); [|destruct (insert_error e)]; simpl;
    (split; [tauto|]); try (left; reflexivity);
    right; right; eexists; (split; [reflexivity|discriminate]).
Qed.

Lemma check_failures_proper (r : response) :
  In r check_failures -> proper_response r.
Proof.
  unfold check_failures, proper_response.
  intros [H|[H|[H|[H|[H|[H|[]]]]]]]; subst r; simpl;
    (split; [tauto|]); try (right; left; reflexivity);
    right; right; eexists; (split; [reflexivity|discriminate]).
Qed.

Lemma check_request_204 (e : env) (w w' : world) (r : response) :
  check_request e w = (Reply r, w') -> status r = 204 ->
  req_method e = OPTIONS.
Proof.
  unfold check_request, read_body, check_settings, bind, ret, reply.
  destruct (req_method e); [reflexivity| |];
    try (intro H; inversion H; discriminate).
  destruct (req_json e) as [body|];
    try (intro H; inversion H; discriminate).
  destruct (negb (truthy (get body "imageUrl"))
            || negb (is_string (get body "imageUrl")));
    try (intro H; inversion H; discriminate).
  destruct (plantnet_key e) as [[|k0 k]|];
    try (intro H; inversion H; discriminate).
  simpl.
  destruct (is_valid_organ (or_else (get body "organ") (VStr (lit "leaf"))));
    simpl; intro H; inversion H; discriminate.
Qed.

(** The response of the handler, whatever the request and the outside
    world. *)
Lemma identify_tree_response (e : env) (d : database) (r : response)
    (w : world) :
  serve (identify_tree e) d = (r, w) ->
  proper_response r /\ (status r = 204 -> req_method e = OPTIONS).
Proof.
  destruct (check_request_outcomes e {| db := d; trace := [] |})
    as [[c H]|[r0 [H Hin]]].
  - unfold serve, identify_tree, bind at 1, try_catch. rewrite H.
    unfold bind at 1.
    destruct (fetch_answer_outcomes e c {| db := d; trace := [] |})
      as [w' [[F|[[r0 [F [P [_ N]]]]|[x F]]] _]]; rewrite F; simpl.
    + unfold bind.
      pose proof (identification_of_outcomes
                    (match plantnet_json e with
                     | Some v => v
                     | None => VObj []
                     end) w') as I.
      destruct (coalesce _ _) as [| |b|n|s|items|props];
        try (rewrite I; simpl; intro Q; inversion Q; split;
             [apply unexpected_error_proper|intro X; discriminate X]).
      destruct (existsb nullish items).
      * rewrite I. simpl. intro Q. inversion Q. split;
          [apply unexpected_error_proper|intro X; discriminate X].
      * destruct I as [i [imgs [I _]]]. rewrite I.
        rewrite store_identification_run. simpl.
        intro Q. inversion Q.
        split; [apply stored_response_proper|].
        unfold stored_response.
        destruct (upsert_error e); [intro X; discriminate X|].
        destruct (insert_error e); intro X; discriminate X.
    + intro Q. inversion Q. subst. split; [exact P|].
      intro S. contradiction.
    + intro Q. inversion Q.
      split; [apply unexpected_error_proper|intro X; discriminate X].
  - unfold serve, identify_tree, bind. rewrite H. simpl.
    intro Q. inversion Q. subst.
    split; [now apply check_failures_proper|].
    now apply (@check_request_204 e _ _ _ H).
Qed.

(** X2. Whatever the request and whatever the outside world answers, the
    handler responds with status 200, 204, 400, 405, 408, 500 or 502, and
    every response other than 200 and 204 is a JSON object with a
    non-empty [error] text. *)
Theorem every_response_is_proper (e : env) (d : database) :
  proper_response (fst (serve (identify_tree e) d)).
Proof.
  destruct (serve (identify_tree e) d) as [r w] eqn:Sv.
  now apply (identify_tree_response e d Sv).
Qed.

End HandlerOutcomes.

Section HandlerEdges.
Context {E : Engine} {W : Wire}.

(** X3. The two handlers that write [trees] call [imageUrl.replace] before
    they check imageUrl: a POST whose JSON body has no string imageUrl
    makes them throw outside their [try], so the client gets the plain 500
    of the server and no row is written, where identify-tree and the
    handler without a database answer 400 "Missing required field:
    imageUrl". *)
Theorem trees_handlers_throw_without_imageUrl (e : env) (body : value)
    (d : database) :
  req_method e = POST ->
  req_json e = Some body ->
  is_string (get body "imageUrl") = false ->
  serve (identify_taxonomy e) d
  = ({| status := 500; body := VStr (lit "Internal Server Error") |},
     {| db := d; trace := [] |})
  /\ serve (identify_basic e) d
     = ({| status := 500; body := VStr (lit "Internal Server Error") |},
        {| db := d; trace := [] |})
  /\ serve (identify_tree e) d
     = (error_response 400 (lit "Missing required field: imageUrl"),
        {| db := d; trace := [] |})
  /\ serve (identify_only e) d
     = (error_response 400 (lit "Missing required field: imageUrl"),
        {| db := d; trace := [] |}).
Proof.
  intros Hm Hj Hs.
  unfold serve, identify_taxonomy, identify_basic, identify_tree,
    identify_only, check_request_trees, check_request, check_request_plain,
    read_body, bind.
  rewrite Hm, Hj. unfold ret. cbv beta iota zeta.
  generalize dependent (get body "imageUrl").
  intros [| |b|n|s|l|o] Hs; try discriminate;
    simpl; rewrite ?orb_true_r; repeat split; reflexivity.
Qed.

Lemma identified_checked (e : env) (c : checked) (i : identification) :
  identified e = Some (c, i) -> fst (check_request e blank) = Next c.
Proof.
  unfold identified, answered.
  destruct (check_request e blank) as [[c1|r|x] w]; try discriminate.
  destruct (fetch_answer e c1 w) as [[raw|r|x] w1]; try discriminate.
  destruct (identification_of raw blank) as [[i1|r|x] w2]; try discriminate.
  intro H. now inversion H.
Qed.



Lemma replace_first_absent (pat rep s : jstring) :
  includes pat s = false -> replace_first pat rep s = s.
Proof.
  induction s as [|c s IH]; intro H.
  - cbn [includes] in H. apply orb_false_elim in H as [H1 _].
    cbn [replace_first]. now rewrite H1.
  - cbn [includes] in H. apply orb_false_elim in H as [H1 H2].
    cbn [replace_first]. rewrite H1. now rewrite (IH H2).
Qed.

(** X5. The rewrite of the image URL touches the two local origins only:
    a URL that contains neither http://127.0.0.1:54321 nor
    http://localhost:54321 is fetched as it is, and with either origin in
    front of it the origin becomes http://host.docker.internal:54321 and
    the rest stays. *)
Theorem dockerize_local_origins_only (u : jstring) :
  includes (lit "http://127.0.0.1:54321") u = false ->
  includes (lit "http://localhost:54321") u = false ->
  dockerize u = u
  /\ dockerize (lit "http://127.0.0.1:54321" ++ u)
     = lit "http://host.docker.internal:54321" ++ u
  /\ dockerize (lit "http://localhost:54321" ++ u)
     = lit "http://host.docker.internal:54321" ++ u.
Proof.
  intros H1 H2. unfold dockerize. repeat split.
  - rewrite (replace_first_absent (lit "http://127.0.0.1:54321"))
      by exact H1.
    now apply replace_first_absent.
  - change (replace_first (lit "http://127.0.0.1:54321")
              (lit "http://host.docker.internal:54321")
              (lit "http://127.0.0.1:54321" ++ u))
      with (lit "http://host.docker.internal:54321" ++ u).
    apply replace_first_absent.
    simpl. exact H2.
  - rewrite (replace_first_absent (lit "http://127.0.0.1:54321")).
    + reflexivity.
    + simpl. exact H1.
Qed.

Lemma check_request_valid (e : env) (c : checked) (w w' : world) :
  check_request e w = (Next c, w') ->
  is_valid_organ (c_organ c) = true
  /\ exists url, c_imageUrl c = VStr url /\ url <> []
                 /\ c_normalizedImageUrl c = dockerize url.
Proof.
  unfold check_request, read_body, check_settings, bind, ret, reply.
  destruct (req_method e); try discriminate.
  destruct (req_json e) as [body|]; try discriminate.
  destruct (get body "imageUrl") as [| |b|n|[|u0 u]|l|o] eqn:U;
    cbn [is_string negb]; rewrite ?orb_true_r; try discriminate;
    try (simpl; discriminate).
  cbn [truthy negb orb to_string].
  destruct (plantnet_key e) as [[|k0 k]|]; try discriminate. simpl.
  destruct (is_valid_organ _) eqn:V; simpl; try discriminate.
  intro H. inversion H. subst. simpl. split; [exact V|].
  eexists. repeat split. discriminate.
Qed.

Lemma fetch_answer_events (e : env) (c : checked) (w : world) :
  exists evs,
    trace (snd (fetch_answer e c w)) = trace w ++ evs
    /\ forall ev, In ev evs ->
         (exists t, ev = FetchImage (c_normalizedImageUrl c) t)
         \/ (exists ext t,
               ev = CallPlantNet (lit "tree." ++ ext) (c_organ c) t
               /\ In ext [lit "png"; lit "webp"; lit "jpg"]).
Proof.
  unfold fetch_answer, download_image, ask_plantnet.
  destruct (fetch_with_timeout image_timeout_ms (image_server e))
    as [res1 t1].
  destruct (fetch_with_timeout plantnet_timeout_ms (plantnet_server e))
    as [res2 t2].
  unfold bind, emit, reply, raise, ret. simpl.
  assert (forall ev, In ev [FetchImage (c_normalizedImageUrl c) t1] ->
            (exists t, ev = FetchImage (c_normalizedImageUrl c) t)
            \/ (exists ext t,
                  ev = CallPlantNet (lit "tree." ++ ext) (c_organ c) t
                  /\ In ext [lit "png"; lit "webp"; lit "jpg"])) as One.
  { intros ev [<-|[]]. left. now exists t1. }
  destruct res1 as [st| |m]; simpl; try (eexists; split; [reflexivity|exact One]).
  destruct (http_ok st); simpl; try (eexists; split; [reflexivity|exact One]).
  destruct (image_blob e) as [ty|msg]; simpl;
    try (eexists; split; [reflexivity|exact One]).
  match goal with
  | |- context [CallPlantNet ?f _ _] => set (fname := f)
  end.
  assert (exists ext, fname = lit "tree." ++ ext
                      /\ In ext [lit "png"; lit "webp"; lit "jpg"]) as Ext.
  { subst fname. destruct (includes (lit "png") _).
    - exists (lit "png"). split; [reflexivity|simpl; tauto].
    - destruct (includes (lit "webp") _).
      + exists (lit "webp"). split; [reflexivity|simpl; tauto].
      + exists (lit "jpg"). split; [reflexivity|simpl; tauto]. }
  clearbody fname. destruct Ext as [ext [-> Ext]].
  exists [FetchImage (c_normalizedImageUrl c) t1;
          CallPlantNet (lit "tree." ++ ext) (c_organ c) t2].
  split.
  - rewrite <- app_assoc.
    destruct res2 as [st2| |m2]; simpl; try reflexivity.
    destruct (http_ok st2); reflexivity.
  - intros ev [<-|[<-|[]]]; [left; now exists t1|].
    right. exists ext, t2. now split.
Qed.

Lemma is_valid_organ_listed (o : value) :
  is_valid_organ o = true -> exists s, o = VStr s /\ In s validOrgans.
Proof.
  destruct o as [| |b|n|s|l|p]; try discriminate.
  unfold is_valid_organ. intro H.
  apply existsb_exists in H as [x [Hin Hx]].
  apply jstring_eqb_eq in Hx. subst x. now exists s.
Qed.

(** X6. Every call identify-tree makes to PlantNet uploads the image
    under one of the names tree.png, tree.webp and tree.jpg, and its
    organs field is one of the five accepted organs; every download it
    makes is of the rewritten imageUrl of the body. *)
Theorem plantnet_call_is_well_formed (e : env) (d : database) (ev : event) :
  In ev (trace (snd (serve (identify_tree e) d))) ->
  (exists url t,
     ev = FetchImage (dockerize url) t
     /\ (exists body, req_json e = Some body
                      /\ get body "imageUrl" = VStr url))
  \/ (exists f o t,
        ev = CallPlantNet f (VStr o) t
        /\ In f [lit "tree.png"; lit "tree.webp"; lit "tree.jpg"]
        /\ In o validOrgans).
Proof.
  rewrite identify_tree_trace. unfold calls.
  destruct (check_request e blank) as [[c|r|x] w] eqn:C; try (intros []).
  destruct (silent_check_request e) as [s0 S0].
  assert (w = blank) as -> by (rewrite S0 in C; now inversion C).
  destruct (check_request_valid e blank C) as [V [url [U [_ N]]]].
  destruct (is_valid_organ_listed _ V) as [o [O Hin]].
  destruct (fetch_answer_events e c blank) as [evs [T Evs]].
  rewrite T. simpl. intro H.
  destruct (Evs ev H) as [[t ->]|[ext [t [-> Ext]]]].
  - left. exists url, t. rewrite N. split; [reflexivity|].
    clear V. revert C U.
    unfold check_request, read_body, check_settings, bind, ret, reply.
    destruct (req_method e); try discriminate.
    destruct (req_json e) as [body|]; try discriminate.
    destruct (negb (truthy _) || negb (is_string _)); try discriminate.
    destruct (plantnet_key e) as [[|k0 k]|]; try discriminate. simpl.
    destruct (is_valid_organ (or_else _ _)); simpl; try discriminate.
    intros C U. injection C as Hc. rewrite <- Hc in U. simpl in U.
    now exists body.
  - right. exists (lit "tree." ++ ext), o, t. rewrite O.
    split; [reflexivity|]. split; [|exact Hin].
    simpl in Ext. destruct Ext as [<-|[<-|[<-|[]]]]; simpl; tauto.
Qed.

(** What the handler does once the request is checked, by the outcome of
    the two fetches and of the reading of the answer. *)
Lemma identify_tree_checked (e : env) (c : checked) (d : database) :
  fst (check_request e blank) = Next c ->
  serve (identify_tree e) d
  = match fetch_answer e c blank with
    | (Next raw, _) =>
        match identification_of raw blank with
        | (Next i, _) =>
            (stored_response e i d,
             {| db := stored_db e c i d; trace := calls e |})
        | (Reply r, _) => (r, {| db := d; trace := calls e |})
        | (Raise x, _) =>
            (unexpected_error x, {| db := d; trace := calls e |})
        end
    | (Reply r, _) => (r, {| db := d; trace := calls e |})
    | (Raise x, _) => (unexpected_error x, {| db := d; trace := calls e |})
    end.
Proof.
  intro C. unfold calls, serve, identify_tree, bind, try_catch, reply.
  rewrite !(check_request_anywhere e _ C).
  destruct (db_free_fetch_answer e c) as [s2 [evs H2]]. rewrite !H2.
  destruct s2 as [raw|r|x]; try reflexivity.
  destruct (silent_identification_of raw) as [s3 H3]. rewrite !H3.
  destruct s3 as [i1|r|x]; try reflexivity.
  rewrite store_identification_run. reflexivity.
Qed.

Lemma answered_checked (e : env) (c : checked) (raw : value) :
  answered e = Some (c, raw) ->
  fst (check_request e blank) = Next c
  /\ fst (fetch_answer e c blank) = Next raw
  /\ raw = match plantnet_json e with Some v => v | None => VObj [] end.
Proof.
  unfold answered.
  destruct (silent_check_request e) as [s1 H1]. rewrite !H1.
  destruct s1 as [c1|r|x]; try discriminate.
  destruct (fetch_answer_outcomes e c1 blank)
    as [w' [[F|[[r [F _]]|[x F]]] _]]; rewrite F; try discriminate.
  intro H. inversion H. subst c1. now rewrite F.
Qed.

(** X7. A connection failure of either fetch, or an image body that
    cannot be read, does not get a status of its own: the handler answers
    500 "Unexpected server error" with the text of the exception, and the
    database is as before. *)
Theorem failed_fetch_is_unexpected_error (e : env) (c : checked)
    (d : database) (msg : jstring) (x : exn) :
  fst (check_request e blank) = Next c ->
  (exists t, image_server e = Some (t, Rejects msg) /\ t < image_timeout_ms
             /\ x = FetchRejected msg)
  \/ (exists st, answers_within image_timeout_ms (image_server e) st
                 /\ http_ok st = true
                 /\ image_blob e = BlobFails msg
                 /\ x = BodyUnreadable msg)
  \/ (exists st ty t,
        answers_within image_timeout_ms (image_server e) st
        /\ http_ok st = true
        /\ image_blob e = BlobOk ty
        /\ plantnet_server e = Some (t, Rejects msg)
        /\ t < plantnet_timeout_ms
        /\ x = FetchRejected msg) ->
  fst (serve (identify_tree e) d)
  = json_response 500
      [("error", VStr (lit "Unexpected server error"));
       ("details", VStr (exn_to_string x))]%string
  /\ db (snd (serve (identify_tree e) d)) = d.
Proof.
  intros C H. rewrite (identify_tree_checked e d C).
  assert (fst (fetch_answer e c blank) = Raise x) as F.
  { unfold fetch_answer, download_image, ask_plantnet, fetch_with_timeout,
      bind, emit, reply, raise, ret.
    destruct H as [[t [S [T ->]]]|[[st [[t [S T]] [Ok [B ->]]]]
                  |[st [ty [t [[t1 [S T]] [Ok [B [P [T2 ->]]]]]]]]]];
      rewrite S; apply N.ltb_lt in T; rewrite T; simpl;
      rewrite ?Ok; simpl; rewrite ?B; simpl; try reflexivity.
    rewrite P. apply N.ltb_lt in T2. rewrite T2. reflexivity. }
  destruct (fetch_answer e c blank) as [[raw|r|x'] w]; try discriminate.
  simpl in F. inversion F. subst x'. split; reflexivity.
Qed.

Lemma fetch_answer_guarded_unreadable (e : env) (c : checked) (w : world)
    (st : N) (msg : jstring) :
  answers_within image_timeout_ms (image_server e) st ->
  http_ok st = true ->
  image_blob e = BlobFails msg ->
  exists evs,
    fetch_answer_guarded e c w
    = (Reply (error_response 400 (lit "Failed to read image data from URL")),
       {| db := db w; trace := trace w ++ evs |}).
Proof.
  intros [t [S T]] Ok B.
  unfold fetch_answer_guarded, download_image, fetch_with_timeout,
    bind, emit, reply.
  rewrite S. apply N.ltb_lt in T. rewrite T. simpl. rewrite Ok, B. simpl.
  eexists. reflexivity.
Qed.

(** X8. The older handlers catch a failing read of the image body
    themselves: where identify-tree answers 500, each of them answers 400
    "Failed to read image data from URL", and the two that write [trees]
    leave the database as it is. *)
Theorem older_handlers_answer_400_for_unreadable_image (e : env)
    (d : database) (st : N) (msg : jstring) :
  answers_within image_timeout_ms (image_server e) st ->
  http_ok st = true ->
  image_blob e = BlobFails msg ->
  (forall c, fst (check_request_trees e blank) = Next c ->
     fst (serve (identify_taxonomy e) d)
     = error_response 400 (lit "Failed to read image data from URL")
     /\ fst (serve (identify_basic e) d)
        = error_response 400 (lit "Failed to read image data from URL")
     /\ db (snd (serve (identify_taxonomy e) d)) = d
     /\ db (snd (serve (identify_basic e) d)) = d)
  /\ (forall c, fst (check_request_plain e blank) = Next c ->
        fst (serve (identify_only e) d)
        = error_response 400 (lit "Failed to read image data from URL"))
  /\ (forall c, fst (check_request e blank) = Next c ->
        fst (serve (identify_tree e) d)
        = unexpected_error (BodyUnreadable msg)).
Proof.
  intros A Ok B. repeat split.
  1-4: destruct (silent_check_request_trees e) as [s1 H1];
       rewrite H1 in H; simpl in H; subst s1.
  1-4: unfold serve, identify_taxonomy, identify_basic, bind, try_catch;
       rewrite H1;
       destruct (fetch_answer_guarded_unreadable e c
                   {| db := d; trace := [] |} A Ok B) as [evs ->];
       reflexivity.
  - intros c H. destruct (silent_check_request_plain e) as [s1 H1].
    rewrite H1 in H. simpl in H. subst s1.
    unfold serve, identify_only, bind, try_catch. rewrite H1.
    destruct (fetch_answer_guarded_unreadable e c
                {| db := d; trace := [] |} A Ok B) as [evs ->].
    reflexivity.
  - intros c H. rewrite (identify_tree_checked e d H).
    destruct A as [t [S T]]. apply N.ltb_lt in T.
    unfold fetch_answer, download_image, fetch_with_timeout, bind, emit,
      raise.
    rewrite S, T. simpl. rewrite Ok, B. reflexivity.
Qed.

(** X9. A best match whose [images] is neither missing nor an array, or
    holds a null element, makes the reading of the answer throw: the
    request ends in 500 "Unexpected server error" although PlantNet
    answered, and neither a plant nor a sighting is written. *)
Theorem malformed_images_write_nothing (e : env) (c : checked) (raw : value)
    (d : database) :
  answered e = Some (c, raw) ->
  (let images :=
     coalesce (get (get_index (get raw "results") 0) "images") (VArr []) in
   is_array images = false
   \/ exists items, images = VArr items /\ existsb nullish items = true) ->
  status (fst (serve (identify_tree e) d)) = 500
  /\ get (body (fst (serve (identify_tree e) d))) "error"
     = VStr (lit "Unexpected server error")
  /\ db (snd (serve (identify_tree e) d)) = d.
Proof.
  intros A H. destruct (answered_checked e A) as [C [F _]].
  rewrite (identify_tree_checked e d C).
  destruct (fetch_answer e c blank) as [s w]. simpl in F. subst s.
  pose proof (identification_of_outcomes raw blank) as I. cbv zeta in H.
  destruct (coalesce _ _) as [| |b|n|s|items|props];
    try (rewrite I; repeat split; reflexivity).
  destruct H as [H|[items' [Eq H]]]; [discriminate|].
  inversion Eq. subst items'. rewrite H in I. rewrite I.
  repeat split; reflexivity.
Qed.

(** X10. When the body of PlantNet's 2xx answer is not JSON, the handler
    goes on with an empty object: the request is recorded under the plant
    key "unknown" with the name "Unknown" and no taxonomy. *)
Theorem unparsable_answer_is_unknown_plant (e : env) (c : checked)
    (raw : value) :
  answered e = Some (c, raw) ->
  plantnet_json e = None ->
  identified e = Some (c, unknown_plant).
Proof.
  intros A J. destruct (answered_checked e A) as [_ [_ R]].
  rewrite J in R. subst raw. unfold identified. rewrite A.
  now rewrite identification_of_no_match.
Qed.

(** X11. The three database calls are not one transaction. When the
    second upsert fails, the row the first upsert wrote stays; when the
    sighting insert fails, the plant row stays written by both upserts.
    Either way the client gets 500 and no sighting exists for the
    request. *)
Theorem failed_database_call_keeps_earlier_writes (e : env) (c : checked)
    (i : identification) (d : database) (err : value) :
  identified e = Some (c, i) ->
  (first_upsert_error e = None /\ upsert_error e = Some err)
  \/ (upsert_error e = None /\ insert_error e = Some err) ->
  let r := fst (serve (identify_tree e) d) in
  let d' := db (snd (serve (identify_tree e) d)) in
  status r = 500
  /\ get (body r) "details" = err
  /\ sightings d' = sightings d
  /\ exists row, In row (plants d') /\ p_key row = i_plantKey i
                 /\ carries (first_payload i) row.
Proof.
  intros I H r d'. subst r d'.
  rewrite (identify_tree_identified e d I). simpl.
  rewrite stored_db_sightings, stored_db_plants. unfold stored_response.
  assert (exists row,
            In row (plants (after_upserts e i d))
            /\ p_key row = i_plantKey i
            /\ carries (first_payload i) row) as Row.
  { unfold after_upserts, after_first_upsert.
    destruct H as [[F U]|[U S]]; rewrite ?F, U; simpl.
    - destruct (upsert_selected (next_id d) (first_payload i) (plants d))
        as [row [Hin [Car _]]].
      exists row. split; [exact Hin|]. split; [apply Car|exact Car].
    - match goal with
      | |- context [upsert_plant_rows ?id ?p ?rows] =>
          destruct (upsert_selected id p rows) as [row [Hin [Car _]]]
      end.
      exists row. split; [exact Hin|]. split; [apply Car|].
      now apply carries_second with (t := now e). }
  destruct H as [[F U]|[U S]]; rewrite U; [|rewrite S]; simpl;
    repeat split; try reflexivity; exact Row.
Qed.

Lemma find_unique_key (k : jstring) (rows : list plant_row) (p : plant_row) :
  NoDup (map p_key rows) -> In p rows -> p_key p = k ->
  find (has_key k) rows = Some p.
Proof.
  induction rows as [|x rows IH]; simpl; intros ND Hin K; [contradiction|].
  inversion ND as [|? ? Hx ND']. subst.
  destruct Hin as [->|Hin].
  - unfold has_key at 1. now rewrite jstring_eqb_refl.
  - destruct (has_key (p_key p) x) eqn:Hk.
    + apply jstring_eqb_eq in Hk. exfalso. apply Hx. rewrite Hk.
      now apply in_map.
    + now apply IH.
Qed.

(** X12. In a database reached from the empty one, a request identified
    as a species that already has a plant row adds a sighting that points
    at that very row: the row keeps its id, and no second row for the key
    appears. *)
Theorem known_species_keeps_its_plant_row (ops : list op) (e : env)
    (c : checked) (i : identification) (p : plant_row) :
  let d := run ops empty_database in
  let d' := db (snd (serve (identify_tree e) d)) in
  identified e = Some (c, i) ->
  upsert_error e = None ->
  insert_error e = None ->
  In p (plants d) ->
  p_key p = i_plantKey i ->
  (exists s, sightings d' = sightings d ++ [s] /\ s_plant_id s = p_id p)
  /\ (exists p', filter (has_key (i_plantKey i)) (plants d') = [p']
                 /\ p_id p' = p_id p)
  /\ List.length (plants d') = List.length (plants d).
Proof.
  intros d d' I U S Hin K. subst d'.
  pose proof (reachable_keys_unique ops) as ND. fold d in ND.
  rewrite (identify_tree_identified e d I). simpl.
  rewrite stored_db_sightings, stored_db_plants, U, S.
  assert (existsb (has_key (i_plantKey i)) (plants d) = true) as Ex.
  { apply existsb_exists. exists p. split; [exact Hin|].
    now apply jstring_eqb_eq. }
  assert (forall d0, In p (plants d0) -> keys_unique d0 ->
            upserted_id (i_plantKey i) d0 = p_id p) as Id.
  { intros d0 Hin0 ND0. unfold upserted_id.
    now rewrite (find_unique_key (plants d0) p ND0 Hin0 K). }
  destruct (after_upserts_one e i ND (or_intror U)) as [r [Fr [_ Len]]].
  rewrite Ex in Len. split; [|split].
  - eexists. split; [reflexivity|].
    unfold new_sighting, sighting_of. cbn [s_plant_id].
    unfold after_first_upsert. destruct (first_upsert_error e).
    + now apply Id.
    + unfold upserted_id, with_upsert. cbn [plants].
      destruct (upsert_one (next_id d) (first_payload i) (plants d) ND)
        as [r1 [F1 [_ Id1]]].
      rewrite find_filter. cbn [pp_key first_payload] in F1. rewrite F1.
      cbn [hd_error]. rewrite Id1. cbn [pp_key first_payload].
      now rewrite (find_unique_key (plants d) p ND Hin K).
  - exists r. split; [exact Fr|].
    unfold after_upserts in Fr. rewrite U in Fr.
    unfold with_upsert in Fr. cbn [plants] in Fr.
    assert (keys_unique (after_first_upsert e i d)) as ND1.
    { unfold after_first_upsert. destruct (first_upsert_error e);
        [exact ND|]. unfold keys_unique, with_upsert. cbn [plants].
      now apply upsert_keeps_unique. }
    destruct (upsert_one (next_id (after_first_upsert e i d))
                (second_payload i (now e))
                (plants (after_first_upsert e i d)) ND1)
      as [r2 [F2 [_ Id2]]].
    cbn [pp_key second_payload] in F2, Id2.
    rewrite F2 in Fr. inversion Fr. subst r2. rewrite Id2.
    unfold after_first_upsert. destruct (first_upsert_error e).
    + now rewrite (find_unique_key (plants d) p ND Hin K).
    + unfold with_upsert. cbn [plants].
      destruct (upsert_one (next_id d) (first_payload i) (plants d) ND)
        as [r1 [F1 [_ Id1]]].
      rewrite find_filter. cbn [pp_key first_payload] in F1, Id1.
      rewrite F1. cbn [hd_error]. rewrite Id1.
      now rewrite (find_unique_key (plants d) p ND Hin K).
  - rewrite Len. lia.
Qed.

Lemma status_200_identified (e : env) (d : database) :
  status (fst (serve (identify_tree e) d)) = 200 ->
  exists c i, identified e = Some (c, i)
              /\ upsert_error e = None /\ insert_error e = None.
Proof.
  destruct (check_request_outcomes e blank) as [[c C]|[r [C Hin]]].
  - assert (fst (check_request e blank) = Next c) as C1 by now rewrite C.
    rewrite (identify_tree_checked e d C1).
    unfold identified, answered. rewrite C.
    destruct (fetch_answer_outcomes e c blank)
      as [w' [[F|[[r [F [_ [N _]]]]|[x F]]] _]]; rewrite F; simpl;
      try contradiction; try discriminate.
    destruct (silent_identification_of
                (match plantnet_json e with
                 | Some v => v
                 | None => VObj []
                 end)) as [s3 H3].
    rewrite !H3. destruct s3 as [i|r|x]; simpl; try discriminate.
    + unfold stored_response.
      destruct (upsert_error e); [discriminate|].
      destruct (insert_error e); [discriminate|].
      intros _. now exists c, i.
    + pose proof (identification_of_outcomes
                    (match plantnet_json e with
                     | Some v => v
                     | None => VObj []
                     end) blank) as I.
      destruct (coalesce _ _) as [| |b|n|s|items|props];
        try (rewrite H3 in I; discriminate).
      destruct (existsb nullish items); [rewrite H3 in I; discriminate|].
      destruct I as [i [imgs [I _]]]. rewrite H3 in I. discriminate.
  - destruct (check_request_outcomes e {| db := d; trace := [] |})
      as [[c' C']|[r' [C' Hin']]].
    + destruct (silent_check_request e) as [s S].
      rewrite S in C, C'. congruence.
    + unfold serve, identify_tree, bind. rewrite C'. simpl.
      unfold check_failures in Hin'.
      destruct Hin' as [H|[H|[H|[H|[H|[H|[]]]]]]]; subst r'; discriminate.
Qed.

(** X13. Status 200 means the request is stored: the handler answers 200
    only after both the plant upsert and the sighting insert succeeded,
    the [id] and [created_at] of the response are those of the new
    sighting, [name] is a truthy value equal to [commonName], [features]
    is empty and [confidence] is a number or null. *)
Theorem status_200_means_stored (e : env) (d : database) :
  let r := fst (serve (identify_tree e) d) in
  let d' := db (snd (serve (identify_tree e) d)) in
  status r = 200 ->
  upsert_error e = None /\ insert_error e = None
  /\ (exists s, sightings d' = sightings d ++ [s]
                /\ get (body r) "id" = id_json (s_id s)
                /\ get (body r) "created_at" = timestamp_json (s_created_at s))
  /\ truthy (get (body r) "name") = true
  /\ get (body r) "name" = get (body r) "commonName"
  /\ get (body r) "features" = VArr []
  /\ is_array (get (body r) "referenceImages") = true
  /\ is_array (get (body r) "commonNames") = true
  /\ (get (body r) "confidence" = VNull
      \/ is_number (get (body r) "confidence") = true).
Proof.
  intros r d' H. subst r d'.
  destruct (status_200_identified e d H) as [c [i [I [U S]]]].
  destruct (identified_answered e I) as [raw [w0 [_ Id]]].
  destruct (identification_of_fields _ _ Id)
    as [_ [Cn [_ [_ [_ [Conf [Arr _]]]]]]].
  assert (is_array (i_commonNames i) = true) as Names.
  { revert Id. unfold identification_of, bind, ret. cbv zeta.
    destruct (referenceImages _ _) as [[imgs|r|x] w1]; try discriminate.
    intro Id. inversion Id. simpl.
    destruct (is_array (get _ "commonNames")) eqn:A; [exact A|reflexivity]. }
  rewrite (identify_tree_identified e d I). simpl.
  rewrite stored_db_sightings. unfold stored_response. rewrite U, S.
  split; [reflexivity|]. split; [reflexivity|]. split.
  { eexists. split; [reflexivity|]. split; reflexivity. }
  split. { change (truthy (i_commonName i) = true). rewrite Cn.
           apply common_name_truthy. }
  split; [reflexivity|]. split; [reflexivity|].
  split; [exact Arr|]. split; [exact Names|].
  change (i_confidence i = VNull \/ is_number (i_confidence i) = true).
  rewrite Conf. unfold number_or_null.
  destruct (is_number _) eqn:Nb; [right; exact Nb|left; reflexivity].
Qed.

(** X14. The taxonomy handler that writes [trees] answers with at most
    six reference images, and every one of them has a truthy [url]. *)
Theorem reference_images_trees_bounded (best : value) :
  exists imgs,
    reference_images_trees best = VArr imgs
    /\ (List.length imgs <= 6)%nat
    /\ forall x, In x imgs -> truthy (get x "url") = true.
Proof.
  unfold reference_images_trees.
  destruct (get best "images") as [| |b|n|s|items|props];
    try (exists []; repeat split; [simpl; lia|intros x []]).
  eexists. split; [reflexivity|]. split.
  - etransitivity; [apply filter_length_le|].
    rewrite length_map. apply firstn_le_length.
  - intros x Hin. apply filter_In in Hin. apply Hin.
Qed.

End HandlerEdges.

Section AcrossFiles.
Context {E : Engine} {W : Wire}.

Lemma truthy_to_json (v : value) : truthy (to_json v) = truthy v.
Proof. now destruct v. Qed.

Lemma get_url_of_image (o a l c u us : value) :
  is_undef u = false ->
  get (to_json (VObj [(lit "organ", o); (lit "author", a);
                      (lit "license", l); (lit "citation", c);
                      (lit "url", u); (lit "urls", us)])) "url"
  = to_json u.
Proof.
  intro H. cbn [to_json].
  destruct (is_undef o), (is_undef a), (is_undef l), (is_undef c);
    rewrite H; reflexivity.
Qed.

(** X15. The detail page and the handler agree on the picture of a
    reference image: when the handler found a url for an image (the [m]
    size, else [s], else [o]), [getRefImageUrl] of the stored image is
    that url. *)
Theorem stored_reference_image_is_shown (img out : value) (w w' : world) :
  reference_image img w = (Next out, w') ->
  truthy (get out "url") = true ->
  get out "url"
  = or_else (get (get img "url") "m")
      (or_else (get (get img "url") "s") (get (get img "url") "o"))
  /\ getRefImageUrl (to_json out) = to_json (get out "url").
Proof.
  unfold reference_image. destruct (nullish img); [discriminate|].
  unfold ret. intro H. inversion H. subst w' out. clear H.
  change (get (VObj _) "url")
    with (or_else (get (get img "url") "m")
            (or_else (get (get img "url") "s")
               (or_else (get (get img "url") "o") VNull))).
  generalize (get (get img "url") "m") (get (get img "url") "s")
    (get (get img "url") "o").
  intros m s o T. split.
  - revert T. unfold or_else.
    destruct (truthy m); [reflexivity|].
    destruct (truthy s); [reflexivity|].
    destruct (truthy o); [reflexivity|discriminate].
  - unfold getRefImageUrl. rewrite get_url_of_image.
    + unfold or_else at 1. now rewrite truthy_to_json, T.
    + destruct (or_else m _); try reflexivity. discriminate.
Qed.

Lemma drop_spaces_none (s : jstring) :
  forallb (fun c => negb (is_space c)) s = true -> drop_spaces s = s.
Proof.
  destruct s as [|c s]; simpl; [reflexivity|].
  intro H. apply andb_true_iff in H as [Hc _].
  apply negb_true_iff in Hc. now rewrite Hc.
Qed.

Lemma trim_none (s : jstring) :
  forallb (fun c => negb (is_space c)) s = true -> trim s = s.
Proof.
  intro H. unfold trim. rewrite (drop_spaces_none _ H).
  rewrite (drop_spaces_none _ (forallb_rev _ _ H)). apply rev_involutive.
Qed.

Lemma hyphenate_from_none (s : jstring) (in_run : bool) :
  forallb (fun c => negb (is_space c)) s = true -> hyphenate_from in_run s = s.
Proof.
  revert in_run. induction s as [|c s IH]; simpl; intros in_run H.
  - reflexivity.
  - apply andb_true_iff in H as [Hc Hs].
    apply negb_true_iff in Hc. rewrite Hc. f_equal. now apply IH.
Qed.

Lemma keep_slug_chars_none (s : jstring) :
  forallb (fun c => negb (is_slug_char c)) s = true -> keep_slug_chars s = [].
Proof.
  induction s as [|c s IH]; simpl; [reflexivity|].
  intro H. apply andb_true_iff in H as [Hc Hs].
  apply negb_true_iff in Hc. rewrite Hc. now apply IH.
Qed.

(** X16. The fallback "unknown" covers missing names only. A name that,
    lower-cased, has no character of [a-z0-9-] and no white space gives
    the empty plant key, and the detail page refuses the empty key: it
    reports the missing key and reads or writes no table. *)
Theorem name_outside_slug_alphabet_gives_empty_key (best : value)
    (s : jstring) (v : visit) (p : page) (d : database) :
  rawKey best = VStr s ->
  forallb (fun c => negb (is_slug_char c) && negb (is_space c))
    (toLowerCase s) = true ->
  v_plantKey v = plantKey best ->
  plantKey best = []
  /\ snd (load v p d) = d
  /\ error (fst (load v p d)) <> None
  /\ plant (fst (load v p d)) = plant p
  /\ entryRow (fst (load v p d)) = entryRow p.
Proof.
  intros R H K.
  assert (plantKey best = []) as Empty.
  { unfold plantKey, slugifyKey. rewrite R. cbn [to_string].
    assert (forallb (fun c => negb (is_space c)) (toLowerCase s) = true)
      as NoSpace.
    { apply forallb_forall. intros c Hc.
      rewrite forallb_forall in H. specialize (H c Hc).
      now apply andb_true_iff in H. }
    assert (forallb (fun c => negb (is_slug_char c)) (toLowerCase s) = true)
      as NoSlug.
    { apply forallb_forall. intros c Hc.
      rewrite forallb_forall in H. specialize (H c Hc).
      now apply andb_true_iff in H. }
    rewrite (trim_none _ NoSpace). unfold hyphenate.
    rewrite (hyphenate_from_none _ false NoSpace).
    now apply keep_slug_chars_none. }
  split; [exact Empty|]. rewrite Empty in K.
  unfold load. rewrite K. simpl. repeat split. discriminate.
Qed.

End AcrossFiles.

(* ===================================================================== *)
(** * The log pages *)
(* ===================================================================== *)

Section LogPageFacts.
Context {E : Engine} {W : Wire}.

Lemma insert_by_newest_sorted (r : tree_row) (l : list tree_row) :
  StronglySorted newer l -> StronglySorted newer (insert_by newest_first r l).
Proof.
  induction 1 as [|x l Hs IH Hx]; simpl.
  - constructor; constructor.
  - unfold newest_first at 1. destruct (Z.leb_spec (t_created_at x)
                                          (t_created_at r)) as [L|L].
    + constructor; [now constructor|].
      constructor; [exact L|].
      rewrite Forall_forall in *. intros y Hy. specialize (Hx y Hy).
      unfold newer in *. lia.
    + constructor; [exact IH|].
      rewrite Forall_forall in *. intros y Hy.
      apply (Permutation_in _ (Permutation_sym
                                 (insert_by_perm newest_first r l))) in Hy.
      destruct Hy as [<-|Hy]; [unfold newer; lia|now apply Hx].
Qed.

Lemma order_by_newest_sorted (l : list tree_row) :
  StronglySorted newer (order_by newest_first l).
Proof.
  induction l as [|x l IH]; simpl; [constructor|].
  now apply insert_by_newest_sorted.
Qed.

Lemma sorted_app_newer (a b : list tree_row) :
  StronglySorted newer (a ++ b) ->
  StronglySorted newer a
  /\ forall x y, In x a -> In y b -> newer x y.
Proof.
  induction a as [|h a IH]; simpl; intro H.
  - split; [constructor|]. intros x y [].
  - inversion H as [|? ? Hs Hh]. subst. destruct (IH Hs) as [Sa Hab].
    rewrite Forall_forall in Hh. split.
    + constructor; [exact Sa|]. rewrite Forall_forall. intros y Hy.
      apply Hh. apply in_or_app. now left.
    + intros x y [<-|Hx] Hy.
      * apply Hh. apply in_or_app. now right.
      * now apply Hab.
Qed.

(** X17. The log page shows the newest rows of [trees]: at most [limit]
    of them (the page asks for 50), all of them when there are no more
    than that, newest first, and no row left out is newer than a row
    shown. When the query fails the page shows the message and no row. *)
Theorem log_page_shows_newest_trees (limit : nat) (d : database) :
  let s := load_log limit None d in
  exists shown,
    lg_rows s = map select_TreeRow shown
    /\ List.length shown = Nat.min limit (List.length (trees d))
    /\ incl shown (trees d)
    /\ StronglySorted newer shown
    /\ (forall t, In t (trees d) ->
          In t shown \/ forall x, In x shown -> newer x t)
    /\ lg_error s = None
    /\ forall msg,
         lg_rows (load_log limit (Some msg) d) = []
         /\ lg_error (load_log limit (Some msg) d) = Some msg.
Proof.
  cbv zeta. unfold load_log. cbn [lg_rows lg_error].
  set (sorted := order_by newest_first (trees d)).
  pose proof (order_by_perm newest_first (trees d)) as P. fold sorted in P.
  pose proof (order_by_newest_sorted (trees d)) as S. fold sorted in S.
  exists (firstn limit sorted). split; [reflexivity|].
  rewrite <- (firstn_skipn limit sorted) in S.
  destruct (sorted_app_newer _ _ S) as [S1 S2].
  split. { rewrite length_firstn. now rewrite (Permutation_length P). }
  split. { intros x Hx. apply (Permutation_in _ (Permutation_sym P)).
           rewrite <- (firstn_skipn limit sorted). apply in_or_app.
           now left. }
  split; [exact S1|]. split.
  { intros t Ht. apply (Permutation_in _ P) in Ht.
    rewrite <- (firstn_skipn limit sorted) in Ht.
    apply in_app_or in Ht as [Ht|Ht]; [now left|].
    right. intros x Hx. now apply S2. }
  split; [reflexivity|]. intro msg. split; reflexivity.
Qed.

Lemma order_by_newest_head (l : list tree_row) (r : tree_row) :
  (forall t, In t l -> (t_created_at t < t_created_at r)%Z) ->
  order_by newest_first (l ++ [r]) = r :: order_by newest_first l.
Proof.
  unfold order_by. rewrite fold_right_app. simpl.
  induction l as [|x l IH]; intro H; simpl; [reflexivity|].
  rewrite IH by (intros t Ht; apply H; now right). simpl.
  unfold newest_first at 1.
  destruct (Z.leb_spec (t_created_at r) (t_created_at x)) as [L|L];
    [|reflexivity].
  specialize (H x (or_introl eq_refl)). lia.
Qed.

End LogPageFacts.

(* ===================================================================== *)
(** * The handlers that write trees, the view and the log page *)
(* ===================================================================== *)

Section TreesHandlers.
Context {E : Engine} {W : Wire}.

Lemma check_request_trees_outcomes (e : env) (w : world) :
  (exists c, check_request_trees e w = (Next c, w))
  \/ (exists r, check_request_trees e w = (Reply r, w) /\ status r <> 200)
  \/ (exists x, check_request_trees e w = (Raise x, w)).
Proof.
  unfold check_request_trees, read_body, check_settings, bind, ret, reply,
    raise.
  destruct (req_method e);
    try (right; left; eexists; split; [reflexivity|discriminate]).
  destruct (req_json e) as [body|];
    try (right; left; eexists; split; [reflexivity|discriminate]).
  destruct (get body "imageUrl") as [| |b|n|u|l|o];
    try (right; right; eexists; reflexivity).
  destruct (negb (truthy (VStr u)) || negb (is_string (VStr u)));
    try (right; left; eexists; split; [reflexivity|discriminate]).
  destruct (plantnet_key e) as [[|k0 k]|];
    try (right; left; eexists; split; [reflexivity|discriminate]).
  destruct (true && negb (supabase_env e));
    try (right; left; eexists; split; [reflexivity|discriminate]).
  destruct (negb (is_valid_organ _)); simpl;
    try (right; left; eexists; split; [reflexivity|discriminate]).
  left. eexists. reflexivity.
Qed.

Lemma fetch_answer_guarded_outcomes (e : env) (c : checked) (w : world) :
  exists w',
    ((fetch_answer_guarded e c w
      = (Next (match plantnet_json e with
               | Some v => v
               | None => VObj []
               end), w'))
     \/ (exists r, fetch_answer_guarded e c w = (Reply r, w')
                   /\ status r <> 200)
     \/ (exists x, fetch_answer_guarded e c w = (Raise x, w')))
    /\ db w' = db w.
Proof.
  unfold fetch_answer_guarded, download_image, ask_plantnet.
  destruct (fetch_with_timeout image_timeout_ms (image_server e))
    as [res1 t1].
  destruct (fetch_with_timeout plantnet_timeout_ms (plantnet_server e))
    as [res2 t2].
  unfold bind, emit, reply, raise, ret. simpl.
  destruct res1 as [st| |m]; simpl;
    try (eexists; split;
         [right; left; eexists; split; [reflexivity|discriminate]
         |reflexivity]);
    try (eexists; split; [right; right; eexists; reflexivity|reflexivity]).
  destruct (http_ok st); simpl;
    try (eexists; split;
         [right; left; eexists; split; [reflexivity|discriminate]
         |reflexivity]).
  destruct (image_blob e); simpl;
    try (eexists; split;
         [right; left; eexists; split; [reflexivity|discriminate]
         |reflexivity]).
  destruct res2 as [st2| |m2]; simpl;
    try (eexists; split;
         [right; left; eexists; split; [reflexivity|discriminate]
         |reflexivity]);
    try (eexists; split; [right; right; eexists; reflexivity|reflexivity]).
  destruct (http_ok st2); simpl;
    try (eexists; split;
         [right; left; eexists; split; [reflexivity|discriminate]
         |reflexivity]).
  eexists. split; [left; reflexivity|reflexivity].
Qed.

(** The taxonomy handler either answers another status than 200 and
    leaves the database alone, or answers 200 and has appended one row. *)
Lemma identify_taxonomy_row (e : env) (d : database) :
  let r := fst (serve (identify_taxonomy e) d) in
  (status r <> 200 /\ db (snd (serve (identify_taxonomy e) d)) = d)
  \/ (status r = 200
      /\ exists row,
           db (snd (serve (identify_taxonomy e) d)) = with_tree row d
           /\ t_id row = next_id d
           /\ t_created_at row = now e
           /\ t_scientific_name row
              = sql_text (get (body r) "scientificName")
           /\ t_identified_name row = sql_text (get (body r) "name")
           /\ get (body r) "id" = id_json (t_id row)).
Proof.
  cbv zeta. remember (serve (identify_taxonomy e) d) as p eqn:P. revert P.
  unfold serve, identify_taxonomy, bind at 1, try_catch.
  destruct (check_request_trees_outcomes e {| db := d; trace := [] |})
    as [[c C]|[[r [C N]]|[x C]]]; rewrite C;
    try (intros ->; left; split; [assumption || discriminate|reflexivity]).
  unfold bind at 1.
  destruct (fetch_answer_guarded_outcomes e c {| db := d; trace := [] |})
    as [w' [[F|[[r [F N]]|[x F]]] D]]; rewrite F; simpl in D;
    try (intros ->; left; split; [assumption || discriminate|exact D]).
  unfold trees_insert. unfold bind, read_db, write_db, ret, reply.
  destruct (insert_error e).
  - intros ->. left. split; [discriminate|exact D].
  - intros ->. right. split; [reflexivity|]. cbn [fst snd db].
    rewrite D. eexists. split; [reflexivity|]. repeat split.
Qed.

Lemma identify_basic_row (e : env) (d : database) :
  db (snd (serve (identify_basic e) d)) = d
  \/ exists row,
       db (snd (serve (identify_basic e) d)) = with_tree row d
       /\ t_scientific_name row = None.
Proof.
  unfold serve, identify_basic, bind, try_catch, reply.
  destruct (silent_check_request_trees e) as [s1 H1]. rewrite !H1.
  destruct s1 as [c|r|x]; try (left; reflexivity).
  destruct (db_free_fetch_answer_guarded e c) as [s2 [evs H2]]. rewrite !H2.
  destruct s2 as [raw|r|x]; try (left; reflexivity).
  cbv zeta. unfold trees_insert, bind.
  destruct (insert_error e); simpl; [left; reflexivity|].
  right. eexists. split; reflexivity.
Qed.

Lemma plant_log_unnamed (ts : list tree_row) (row : tree_row) :
  t_scientific_name row = None -> plant_log (ts ++ [row]) = plant_log ts.
Proof.
  intro H. unfold plant_log. rewrite filter_app. simpl.
  unfold named at 2. rewrite H. now rewrite app_nil_r.
Qed.

(** X18. What the first trees handler stores never reaches the
    [plant_log] view: it leaves [scientific_name] NULL, and the view
    keeps named rows only. *)
Theorem basic_handler_rows_stay_out_of_plant_log (e : env) (d : database) :
  plant_log (trees (db (snd (serve (identify_basic e) d))))
  = plant_log (trees d).
Proof.
  destruct (identify_basic_row e d) as [->|[row [-> H]]]; [reflexivity|].
  simpl. now apply plant_log_unnamed.
Qed.

(** X19. A request the taxonomy handler answers without a scientific
    name (a no-match answer among them) may add a [trees] row, but the
    [plant_log] view stays as it was. *)
Theorem nameless_identification_stays_out_of_plant_log (e : env)
    (d : database) :
  nullish (get (body (fst (serve (identify_taxonomy e) d)))
             "scientificName") = true ->
  plant_log (trees (db (snd (serve (identify_taxonomy e) d))))
  = plant_log (trees d).
Proof.
  intro H.
  destruct (identify_taxonomy_row e d)
    as [[_ ->]|[_ [row [-> [_ [_ [Sn _]]]]]]]; [reflexivity|].
  simpl. apply plant_log_unnamed. rewrite Sn.
  destruct (get _ "scientificName"); try discriminate; reflexivity.
Qed.

Lemma newest_named_row_is_kept (ts : list tree_row) (row : tree_row)
    (n : jstring) :
  t_scientific_name row = Some n ->
  (forall t, In t ts -> t_scientific_name t = Some n ->
     (t_created_at t < t_created_at row)%Z) ->
  In (select_columns row) (plant_log (ts ++ [row]))
  /\ forall v, In v (plant_log (ts ++ [row])) ->
       g_scientific_name v = Some n -> v = select_columns row.
Proof.
  intros Hn Newest.
  destruct (kept_rows (ts ++ [row])) as [K1 [K2 K3]].
  assert (In row (ts ++ [row])) as Hin
    by (apply in_or_app; right; now left).
  assert (named row = true) as Nm by (unfold named; now rewrite Hn).
  destruct (K2 row Hin Nm) as [r0 [Hr0 Same]].
  assert (r0 = row) as ->.
  { destruct (K1 r0 Hr0) as [In0 [_ Max]].
    apply in_app_or in In0 as [In0|[->|[]]]; [|reflexivity].
    specialize (Max row Hin (eq_sym Same)).
    rewrite Hn in Same. specialize (Newest r0 In0 Same). lia. }
  split.
  - unfold plant_log. now apply in_map.
  - intros v Hv Hname. unfold plant_log in Hv.
    apply in_map_iff in Hv as [r1 [<- Hr1]].
    f_equal. apply (NoDup_map_unique t_scientific_name _ r1 row K3 Hr1 Hr0).
    simpl in Hname. now rewrite Hn.
Qed.

(** X20. A request the taxonomy handler answers with 200 and a
    scientific name, at a time later than every stored row of that name,
    becomes the row of its species in [plant_log]: the view shows the new
    tree, with [last_seen] the time of the request, and no other row of
    that name. *)
Theorem new_identification_is_the_plant_log_row (e : env) (d : database)
    (n : jstring) :
  let r := fst (serve (identify_taxonomy e) d) in
  let d' := db (snd (serve (identify_taxonomy e) d)) in
  status r = 200 ->
  get (body r) "scientificName" = VStr n ->
  (forall t, In t (trees d) -> t_scientific_name t = Some n ->
     (t_created_at t < now e)%Z) ->
  exists v,
    In v (plant_log (trees d'))
    /\ g_scientific_name v = Some n
    /\ g_last_seen v = now e
    /\ get (body r) "id" = id_json (g_id v)
    /\ forall v', In v' (plant_log (trees d')) ->
         g_scientific_name v' = Some n -> v' = v.
Proof.
  intros r d' S Hn Newest. subst r d'.
  destruct (identify_taxonomy_row e d)
    as [[N _]|[_ [row [-> [Id [Cr [Sn [_ Rid]]]]]]]]; [contradiction|].
  rewrite Hn in Sn. simpl in Sn. rewrite <- Cr in Newest.
  destruct (newest_named_row_is_kept (trees d) row Sn Newest) as [Hin Uniq].
  exists (select_columns row). simpl.
  repeat split; try assumption.
Qed.

(** X21. A tree the taxonomy handler has just stored, at a time later
    than every stored row, is the first row of the log page. *)
Theorem new_tree_is_first_on_log_page (e : env) (d : database) :
  let r := fst (serve (identify_taxonomy e) d) in
  let d' := db (snd (serve (identify_taxonomy e) d)) in
  status r = 200 ->
  (forall t, In t (trees d) -> (t_created_at t < now e)%Z) ->
  exists first rest,
    lg_rows (LogPage_load None d') = first :: rest
    /\ r_created_at first = now e
    /\ get (body r) "id" = id_json (r_id first)
    /\ r_scientific_name first
       = sql_text (get (body r) "scientificName")
    /\ r_identified_name first = sql_text (get (body r) "name").
Proof.
  intros r d' S Newest. subst r d'.
  destruct (identify_taxonomy_row e d)
    as [[N _]|[_ [row [-> [Id [Cr [Sn [Nm Rid]]]]]]]]; [contradiction|].
  rewrite <- Cr in Newest.
  unfold LogPage_load, load_log. cbn [lg_rows with_tree trees].
  rewrite (order_by_newest_head (trees d) row Newest).
  cbn [firstn map]. eexists. eexists. split; [reflexivity|].
  simpl. auto.
Qed.

End TreesHandlers.

(* ===================================================================== *)
(** * The plant detail page *)
(* ===================================================================== *)

Section DetailPageFacts.
Context {E : Engine} {W : Wire}.

Lemma typing_keeps_the_rest (ks : list keystroke) (p : page) :
  let q := fold_left type_in ks p in
  originalRef q = originalRef p /\ isEditing q = isEditing p
  /\ entryRow q = entryRow p /\ logRow q = logRow p /\ plant q = plant p
  /\ loading q = loading p /\ saving q = saving p /\ toast q = toast p.
Proof.
  revert p. induction ks as [|k ks IH]; intro p; simpl.
  - repeat split.
  - destruct (IH (type_in p k)) as [A [B [C [D [F [G [H I]]]]]]].
    rewrite A, B, C, D, F, G, H, I. destruct k; repeat split.
Qed.

(** X22. Cancel undoes an edit: whatever is typed into the two inputs
    after Edit, Cancel puts the display name and the notes back to what
    they were, leaves editing, clears the error and touches nothing
    else. *)
Theorem cancel_restores_the_form (p : page) (ks : list keystroke) :
  let q := cancelEdit (fold_left type_in ks (startEdit p)) in
  displayName q = displayName p
  /\ notes q = notes p
  /\ isEditing q = false
  /\ error q = None
  /\ entryRow q = entryRow p
  /\ logRow q = logRow p
  /\ plant q = plant p
  /\ loading q = loading p
  /\ saving q = saving p
  /\ toast q = toast p.
Proof.
  cbv zeta.
  destruct (typing_keeps_the_rest ks (startEdit p))
    as [A [B [C [D [F [G [H I]]]]]]].
  unfold cancelEdit. simpl. rewrite A, C, D, F, G, H, I.
  repeat split.
Qed.

Lemma find_saved_entry (payload : entry_row) (rows : list entry_row) :
  NoDup (map n_key rows) ->
  find (has_entry_key (n_key payload)) (upsert_entry_rows payload rows)
  = Some payload.
Proof.
  intro H. rewrite find_filter. now rewrite upsert_entry_one.
Qed.

(** X23. What Save stores is what the next visit shows. After a
    successful save, loading the page of the same plant finds the saved
    row and creates none; the notes field holds the trimmed notes, the
    display name field the trimmed name, or the name of the log row when
    the name was saved empty. *)
Theorem saved_entry_is_loaded_again (u : submit) (p p0 : page) (v : visit)
    (d : database) :
  u_error u = None ->
  entry_keys_unique d ->
  v_plantKey v = u_plantKey u ->
  u_plantKey u <> [] ->
  v_unmounted v = None ->
  v_log_error v = None ->
  v_entry_error v = None ->
  let d' := snd (save u p d) in
  let q := fst (load v p0 d') in
  let log_name :=
    match v_log v with Some l => l_name l | None => None end in
  snd (load v p0 d') = d'
  /\ entryRow q
     = Some {| n_key := u_plantKey u;
               n_display_name := trimmed_or_null (displayName p);
               n_notes := trimmed_or_null (notes p);
               n_updated_at := Some (u_now u) |}
  /\ displayName q
     = match trim (displayName p) with
       | [] => or_empty log_name
       | _ :: _ => trim (displayName p)
       end
  /\ notes q = trim (notes p)
  /\ originalRef q = (displayName q, notes q)
  /\ isEditing q = false
  /\ loading q = false
  /\ error q = None.
Proof.
  intros Ue ND Kv Kne Um Le Ee d' q log_name. subst d' q log_name.
  unfold save. rewrite Ue. cbn [fst snd].
  unfold load. rewrite Kv.
  destruct (u_plantKey u) as [|k0 k] eqn:K; [contradiction|].
  unfold cancelled. rewrite Um, Le, Ee. cbn [tree_entries with_entries].
  rewrite <- K.
  set (payload := {| n_key := u_plantKey u;
                     n_display_name := trimmed_or_null (displayName p);
                     n_notes := trimmed_or_null (notes p);
                     n_updated_at := Some (u_now u) |}).
  assert (find (has_entry_key (u_plantKey u))
            (upsert_entry_rows payload (tree_entries d)) = Some payload)
    as F by (now apply (@find_saved_entry payload)).
  rewrite F. cbn [fst snd].
  split; [reflexivity|]. split; [reflexivity|].
  cbn [displayName notes originalRef isEditing loading error
       n_display_name n_notes payload].
  unfold trimmed_or_null.
  destruct (trim (displayName p)); destruct (trim (notes p));
    repeat split.
Qed.

Lemma filter_key_lc (k : jstring) (rows : list plant_row) :
  Forall (fun r => p_key_lc r = p_key r) rows ->
  filter (fun r => jstring_eqb (p_key_lc r) k) rows
  = filter (has_key k) rows.
Proof.
  intro H. apply filter_ext_in. intros r Hr.
  rewrite Forall_forall in H. unfold has_key. now rewrite (H r Hr).
Qed.

(** X24. The detail page finds what the handler stored. In a database
    reached from the empty one, after a request is identified and its
    plant upsert succeeds, a visit of the page for the key of the
    response loads the plant row of that key, with the name and the
    reference images of the request. *)
Theorem detail_page_finds_identified_plant (ops : list op) (e : env)
    (c : checked) (i : identification) (v : visit) (p0 : page) :
  identified e = Some (c, i) ->
  first_upsert_error e = None \/ upsert_error e = None ->
  v_plantKey v = i_plantKey i ->
  i_plantKey i <> [] ->
  v_unmounted v = None ->
  v_log_error v = None ->
  v_entry_error v = None ->
  v_create_error v = None ->
  v_plant_error v = false ->
  let d' := perform (Identify e) (run ops empty_database) in
  exists r,
    plant (fst (load v p0 d')) = Some r
    /\ p_key r = i_plantKey i
    /\ p_common_name r = to_json (i_commonName i)
    /\ p_scientific_name r = to_json (i_scientificName i)
    /\ p_reference_images r = to_json (i_referenceImages i)
    /\ error (fst (load v p0 d')) = None
    /\ loading (fst (load v p0 d')) = false.
Proof.
  intros I U Kv Kne Um Le Ee Ce Pe d'.
  set (d := run ops empty_database) in *.
  assert (keys_unique d) as ND by apply reachable_keys_unique.
  assert (Forall (fun r => p_key_lc r = p_key r) (plants d')) as Lc.
  { apply perform_keeps_key_lc.
    apply (run_invariant
             (fun d0 => Forall (fun r => p_key_lc r = p_key r) (plants d0))).
    - intros o d0. apply perform_keeps_key_lc.
    - constructor. }
  assert (plants d' = plants (after_upserts e i d)) as Pl.
  { unfold d'. simpl. rewrite identify_tree_db, I.
    apply stored_db_plants. }
  destruct (after_upserts_one e i ND U) as [r [Fr [Car _]]].
  destruct (identified_fields e I)
    as [_ [_ [Cn [Sn [_ [_ [Ri K]]]]]]].
  destruct (slug_fixed (i_plantKey i)) as [_ [_ Low]];
    [rewrite K; apply plant_key_slug|].
  destruct Car as [Kr [C1 [C2 [_ [_ [C5 _]]]]]].
  exists r.
  assert (filter (fun x => jstring_eqb (p_key_lc x)
                             (toLowerCase (i_plantKey i))) (plants d')
          = [r]) as Found.
  { rewrite Low, (filter_key_lc _ Lc), Pl. exact Fr. }
  unfold load. rewrite Kv.
  destruct (i_plantKey i) as [|k0 k] eqn:Key; [contradiction|].
  rewrite <- Key in *.
  unfold cancelled. rewrite Um, Le, Ee, Ce, Pe.
  cbn [plants with_entries].
  destruct (find _ (tree_entries d')); cbn [fst plant error loading];
    rewrite Found; repeat split; auto.
Qed.

(** X25. The title after a save: the trimmed display name when it is
    not empty, else the name of the log row when that is not empty, else
    "Unknown plant"; it is never the empty string. *)
Theorem title_after_save (u : submit) (p : page) (d : database) :
  u_error u = None ->
  let q := fst (save u p d) in
  title q
  = match trim (displayName p) with
    | [] => or_text (match logRow p with
                     | Some l => l_name l
                     | None => None
                     end) (lit "Unknown plant")
    | _ :: _ => trim (displayName p)
    end
  /\ title q <> [].
Proof.
  intros Ue q. subst q. unfold save. rewrite Ue.
  unfold title. cbn [fst entryRow logRow n_display_name].
  unfold trimmed_or_null.
  destruct (trim (displayName p)) as [|t0 t]; cbn [or_text].
  - split; [reflexivity|].
    destruct (logRow p) as [l|]; [|discriminate].
    destruct (l_name l) as [[|n0 n]|]; discriminate.
  - split; [reflexivity|discriminate].
Qed.

End DetailPageFacts.

(* ===================================================================== *)
(** * The upload page *)
(* ===================================================================== *)

Section UploadPageFacts.
Context {E : Engine} {W : Wire}.

Lemma toJpeg_type (conv : conversion) (f f' : file) :
  toJpeg conv f = inl f' ->
  file_type f' = lit "image/jpeg" \/ file_type f' = lit "image/jpg".
Proof.
  unfold toJpeg.
  destruct (jstring_eqb (file_type f) (lit "image/jpeg")) eqn:A.
  - intro H. inversion H. subst f'. left. now apply jstring_eqb_eq.
  - destruct (jstring_eqb (file_type f) (lit "image/jpg")) eqn:B.
    + intro H. inversion H. subst f'. right. now apply jstring_eqb_eq.
    + simpl. destruct conv; try discriminate.
      intro H. inversion H. now left.
Qed.

(** X26. One click on Upload, whatever the browser, the bucket and the
    edge function answer. Without a file nothing is sent. With a file the
    page is no longer busy at the end; what it stores goes to
    uploads/<uuid>.jpg and is a JPEG by its type; it posts to the edge
    function only after the upload succeeded, and the body is exactly
    the public URL of the stored object; it ends with an error and no
    result, or with the 2xx answer of the edge function as the result. *)
Theorem upload_click_outcomes (u : upload_env) (s : upload_state) :
  let s' := fst (uploadToSupabase u s) in
  let k := snd (uploadToSupabase u s) in
  (up_file s = None ->
   up_error s' = Some (lit "Please choose a photo first.")
   /\ up_stored k = None /\ up_posted k = None)
  /\ (up_file s <> None -> up_busy s' = false)
  /\ (forall path f',
        up_stored k = Some (path, f') ->
        path = lit "uploads/" ++ up_uuid u ++ lit ".jpg"
        /\ (file_type f' = lit "image/jpeg"
            \/ file_type f' = lit "image/jpg"))
  /\ (forall body,
        up_posted k = Some body ->
        up_upload_error u = None
        /\ exists path f',
             up_stored k = Some (path, f')
             /\ body = VObj [(lit "imageUrl", VStr (up_public_url u path))]
             /\ up_publicUrl s' = Some (up_public_url u path))
  /\ (up_error s' = None ->
      exists st json,
        up_identify u = Answer st json /\ http_ok st = true
        /\ up_identifyResult s' = json)
  /\ (up_error s' <> None -> up_identifyResult s' = VNull).
Proof.
  cbv zeta. unfold uploadToSupabase.
  destruct (up_file s) as [f|]; cbn [fst snd].
  2: { split; [intros _; repeat split|].
       split; [intro H; now contradiction H|].
       split; [intros path f' H; discriminate H|].
       split; [intros body H; discriminate H|].
       split; [intro H; discriminate H|reflexivity]. }
  split; [intro H; discriminate H|].
  destruct (toJpeg (up_conversion u) f) as [safe|msg] eqn:J; cbn [fst snd].
  2: { split; [reflexivity|].
       split; [intros path f' H; discriminate H|].
       split; [intros body H; discriminate H|].
       split; [intro H; discriminate H|reflexivity]. }
  pose proof (toJpeg_type _ _ J) as Ty.
  destruct (up_upload_error u) as [msg|]; cbn [fst snd].
  { split; [reflexivity|].
    split; [intros path f' H; cbn [up_stored] in H;
            injection H as <- <-; now split|].
    split; [intros body H; discriminate H|].
    split; [intro H; discriminate H|reflexivity]. }
  destruct (up_identify u) as [msg|msg|st json]; cbn [fst snd];
    [| |destruct (http_ok st) eqn:Ok; cbn [negb fst snd]];
    (split; [reflexivity|]);
    (split; [intros path f' H; cbn [up_stored] in H;
             injection H as <- <-; now split|]);
    (split; [intros body H; cbn [up_posted] in H; injection H as <-;
             split; [reflexivity|]; eexists; eexists; repeat split|]).
  - split; [intro H; discriminate H|reflexivity].
  - split; [intro H; discriminate H|reflexivity].
  - split; [intros _|intro H; now contradiction H].
    exists st, json. repeat split. exact Ok.
  - split; [intro H; discriminate H|reflexivity].
Qed.

Lemma posted_body (u : upload_env) (s : upload_state) (body : value) :
  up_posted (snd (uploadToSupabase u s)) = Some body ->
  exists path,
    body = VObj [(lit "imageUrl", VStr (up_public_url u path))]
    /\ up_upload_error u = None
    /\ exists f safe, up_file s = Some f
                      /\ toJpeg (up_conversion u) f = inl safe.
Proof.
  unfold uploadToSupabase.
  destruct (up_file s) as [f|]; [|discriminate].
  destruct (toJpeg (up_conversion u) f) as [safe|msg] eqn:J; [|discriminate].
  destruct (up_upload_error u) as [msg|]; [discriminate|].
  intro H. eexists. split; [|split; [reflexivity|now exists f, safe]].
  destruct (up_identify u) as [msg|msg|st json];
    [| |destruct (negb (http_ok st))]; cbn [snd up_posted] in H;
    now injection H as <-.
Qed.

(** X27. The upload page sends the image URL and nothing else, so the
    edge function identifies every upload of this page as a leaf and
    stores its sighting without a location. *)
Theorem upload_is_a_leaf_without_location (u : upload_env)
    (s : upload_state) (base : env) (body : value) (c : checked)
    (i : identification) (d : database) :
  up_posted (snd (uploadToSupabase u s)) = Some body ->
  identified (posted base body) = Some (c, i) ->
  upsert_error base = None ->
  insert_error base = None ->
  c_organ c = VStr (lit "leaf")
  /\ c_lat c = VNull /\ c_lng c = VNull
  /\ exists row path,
       sightings (db (snd (serve (identify_tree (posted base body)) d)))
       = sightings d ++ [row]
       /\ s_lat row = VNull /\ s_lng row = VNull
       /\ s_image_url row = VStr (up_public_url u path).
Proof.
  intros P I U S.
  destruct (posted_body u s P) as [path [-> _]].
  pose proof (identified_checked _ I) as C.
  assert (c = {| c_imageUrl := VStr (up_public_url u path);
                 c_lat := VNull; c_lng := VNull;
                 c_normalizedImageUrl := dockerize (up_public_url u path);
                 c_organ := VStr (lit "leaf") |}) as ->.
  { revert C. unfold check_request, read_body, check_settings, bind, ret,
      reply. cbn [req_method req_json posted plantnet_key].
    change (get (VObj [(lit "imageUrl", VStr (up_public_url u path))])
              "imageUrl") with (VStr (up_public_url u path)).
    change (get (VObj [(lit "imageUrl", VStr (up_public_url u path))])
              "organ") with (@VUndef E).
    change (get (VObj [(lit "imageUrl", VStr (up_public_url u path))])
              "lat") with (@VUndef E).
    change (get (VObj [(lit "imageUrl", VStr (up_public_url u path))])
              "lng") with (@VUndef E).
    destruct (negb (truthy _) || negb (is_string _)); [discriminate|].
    destruct (plantnet_key base) as [[|k0 k]|]; try discriminate.
    simpl. intro H. now inversion H. }
  cbn [c_organ c_lat c_lng]. repeat split.
  rewrite (identify_tree_identified _ d I). cbn [snd db].
  rewrite stored_db_sightings.
  change (upsert_error (posted base _)) with (upsert_error base).
  change (insert_error (posted base _)) with (insert_error base).
  rewrite U, S. eexists. exists path. split; [reflexivity|].
  repeat split.
Qed.

Lemma lookup_to_json_string (k m : jstring) (props : list (jstring * value)) :
  lookup k props = VStr m ->
  lookup k
    ((fix go (l : list (jstring * value)) : list (jstring * value) :=
        match l with
        | [] => []
        | (k0, x) :: rest =>
            if is_undef x then go rest else (k0, to_json x) :: go rest
        end) props) = VStr m.
Proof.
  intro H. induction props as [|[k0 x] rest IH]; [discriminate|].
  simpl in H. destruct (jstring_eqb k k0) eqn:K.
  - subst x. simpl. now rewrite K.
  - destruct (is_undef x); [now apply IH|]. simpl. rewrite K. now apply IH.
Qed.

Lemma get_to_json_string (v : value) (name : string) (m : jstring) :
  get v name = VStr m -> get (to_json v) name = VStr m.
Proof.
  destruct v as [| |b|n|s|l|props]; try discriminate.
  intro H. simpl. now apply lookup_to_json_string.
Qed.

(** X28. When the edge function is identify-tree and it does not answer
    200, the upload page shows the error text of the handler itself,
    never its own "Identify failed", and shows no result. *)
Theorem upload_page_shows_the_handler_error (u : upload_env)
    (s : upload_state) (base : env) (d : database) (sent_body : value) :
  let r := fst (serve (identify_tree (posted base sent_body)) d) in
  let s' := fst (uploadToSupabase u s) in
  up_posted (snd (uploadToSupabase u s)) = Some sent_body ->
  up_identify u = edge_reply base d sent_body ->
  status r <> 200 ->
  exists msg,
    get (body r) "error" = VStr msg
    /\ msg <> []
    /\ up_error s' = Some msg
    /\ up_identifyResult s' = VNull.
Proof.
  intros r s' P Id S. subst r s'. unfold edge_reply in Id. cbv zeta in Id.
  destruct (serve (identify_tree (posted base sent_body)) d)
    as [r w0] eqn:Sv.
  cbn [fst] in *.
  destruct (identify_tree_response _ d Sv) as [[St Err] N204].
  assert (status r <> 204) as S204.
  { intro H. specialize (N204 H). discriminate. }
  destruct Err as [H|[H|[msg [Er Ne]]]]; try contradiction.
  assert (http_ok (status r) = false) as Ok.
  { simpl in St.
    destruct St as [H|[H|[H|[H|[H|[H|[H|[]]]]]]]]; rewrite <- H;
      try reflexivity; congruence. }
  exists msg. split; [exact Er|]. split; [exact Ne|].
  destruct (posted_body u s P) as [path [Hb [Ue [f [safe [Hf J]]]]]].
  unfold uploadToSupabase. rewrite Hf, J, Ue, Id.
  cbv zeta. rewrite Ok. cbn [negb fst upload_failed up_error
                                  up_identifyResult].
  rewrite (get_to_json_string _ _ Er). unfold or_else.
  rewrite (truthy_nonempty Ne). split; reflexivity.
Qed.

End UploadPageFacts.

(* ===================================================================== *)
(** * The properties above on the example inputs *)
(* ===================================================================== *)

(** Each of the first five checks, failed by a request of its own. *)
Lemma rejected_request_has_no_effect_witness :
  status (fst (serve (identify_tree (with_method OPTIONS oak_request))
                 empty_database)) = 204
  /\ status (fst (serve (identify_tree (with_method OtherMethod oak_request))
                    empty_database)) = 405
  /\ get (body (fst (serve (identify_tree garbled_body_request)
                       empty_database))) "error"
     = VStr (lit "Invalid JSON body")
  /\ get (body (fst (serve (identify_tree empty_body_request)
                       empty_database))) "error"
     = VStr (lit "Missing required field: imageUrl")
  /\ status (fst (serve (identify_tree keyless_request) empty_database))
     = 500.
Proof.
  destruct (@rejected_request_has_no_effect _ _
              (with_method OPTIONS oak_request) empty_database)
    as [_ [[A _] _]]; [reflexivity|].
  destruct (@rejected_request_has_no_effect _ _
              (with_method OtherMethod oak_request) empty_database)
    as [_ [_ [[B _] _]]]; [reflexivity|].
  destruct (@rejected_request_has_no_effect _ _ garbled_body_request
              empty_database)
    as [_ [_ [_ [C _]]]].
  destruct (C eq_refl eq_refl) as [C' _].
  destruct (@rejected_request_has_no_effect _ _ empty_body_request
              empty_database)
    as [_ [_ [_ [_ [D _]]]]].
  destruct (D (VObj []) eq_refl eq_refl (or_introl eq_refl)) as [D' _].
  destruct (@rejected_request_has_no_effect _ _ keyless_request
              empty_database)
    as [_ [_ [_ [_ [_ [F _]]]]]].
  assert (lit "http://localhost:54321/oak.png" <> []) as Ne by discriminate.
  destruct (F _ _ eq_refl eq_refl eq_refl Ne (or_introl eq_refl)) as [F' _].
  split; [now rewrite A|]. split; [now rewrite B|].
  split; [now rewrite C'|]. split; [now rewrite D'|now rewrite F'].
Defined.

Lemma trees_handlers_throw_without_imageUrl_witness :
  req_method empty_body_request = POST
  /\ req_json empty_body_request = Some (VObj [])
  /\ is_string (get (VObj []) "imageUrl") = false
  /\ status (fst (serve (identify_taxonomy empty_body_request)
                    empty_database)) = 500
  /\ status (fst (serve (identify_tree empty_body_request)
                    empty_database)) = 400.
Proof.
  destruct (@trees_handlers_throw_without_imageUrl _ _ empty_body_request
              (VObj []) empty_database eq_refl eq_refl eq_refl)
    as [T [_ [I _]]].
  split; [reflexivity|]. split; [reflexivity|]. split; [reflexivity|].
  split; [now rewrite T|now rewrite I].
Defined.


Lemma dockerize_local_origins_only_witness :
  dockerize (lit "http://localhost:54321/oak.png")
  = lit "http://host.docker.internal:54321/oak.png".
Proof.
  destruct (@dockerize_local_origins_only (lit "/oak.png") eq_refl eq_refl)
    as [_ [_ H]].
  exact H.
Defined.

Lemma plantnet_call_is_well_formed_witness :
  exists t,
    In (CallPlantNet (lit "tree.png") (VStr (lit "leaf")) t)
       (trace (snd (serve (identify_tree oak_request) empty_database)))
    /\ In (lit "leaf") validOrgans.
Proof.
  assert (match trace (snd (serve (identify_tree oak_request)
                              empty_database)) with
          | [_; CallPlantNet f (VStr o) _] =>
              jstring_eqb f (lit "tree.png") && jstring_eqb o (lit "leaf")
          | _ => false
          end = true) as H by (vm_compute; reflexivity).
  destruct (trace (snd (serve (identify_tree oak_request) empty_database)))
    as [|ev0 [|[u t|f [| |b|n|o|l|p] t] [|ev2 rest]]] eqn:T;
    try discriminate H.
  apply andb_true_iff in H as [F O]. apply jstring_eqb_eq in F, O.
  subst f o. exists t.
  assert (In (CallPlantNet (lit "tree.png") (VStr (lit "leaf")) t)
            (trace (snd (serve (identify_tree oak_request) empty_database))))
    as Hin by (rewrite T; right; left; reflexivity).
  split; [rewrite <- T; exact Hin|].
  destruct (@plantnet_call_is_well_formed _ _ oak_request empty_database
              _ Hin)
    as [[url [t' [H _]]]|[f [o [t' [H [_ O]]]]]]; [discriminate H|].
  injection H as _ <- _. exact O.
Defined.

Lemma failed_fetch_is_unexpected_error_witness :
  exists c,
    fst (check_request refused_image_request blank) = Next c
    /\ status (fst (serve (identify_tree refused_image_request)
                      empty_database)) = 500.
Proof.
  assert (match fst (check_request refused_image_request blank) with
          | Next _ => true
          | _ => false
          end = true) as H by (vm_compute; reflexivity).
  destruct (fst (check_request refused_image_request blank))
    as [c|r|x] eqn:C; try discriminate H.
  exists c. split; [reflexivity|].
  destruct (@failed_fetch_is_unexpected_error _ _ refused_image_request c
              empty_database (lit "connection refused")
              (FetchRejected (lit "connection refused")) C)
    as [R _].
  - left. exists 40. repeat split.
  - now rewrite R.
Defined.

Lemma older_handlers_answer_400_for_unreadable_image_witness :
  answers_within image_timeout_ms (image_server unreadable_image_request) 200
  /\ status (fst (serve (identify_taxonomy unreadable_image_request)
                    empty_database)) = 400
  /\ status (fst (serve (identify_tree unreadable_image_request)
                    empty_database)) = 500.
Proof.
  assert (answers_within image_timeout_ms
            (image_server unreadable_image_request) 200) as A
    by (exists 120; split; reflexivity).
  split; [exact A|].
  destruct (@older_handlers_answer_400_for_unreadable_image _ _
              unreadable_image_request empty_database 200
              (lit "body stream already read") A eq_refl eq_refl)
    as [T [_ I]].
  assert (match fst (check_request_trees unreadable_image_request blank),
                fst (check_request unreadable_image_request blank) with
          | Next _, Next _ => true
          | _, _ => false
          end = true) as H by (vm_compute; reflexivity).
  destruct (fst (check_request_trees unreadable_image_request blank))
    as [c|r|x] eqn:C; try discriminate H.
  destruct (fst (check_request unreadable_image_request blank))
    as [c'|r|x] eqn:C'; try discriminate H.
  destruct (T c eq_refl) as [R _]. split.
  - now rewrite R.
  - now rewrite (I c' eq_refl).
Defined.

Lemma malformed_images_write_nothing_witness :
  exists c raw,
    answered null_image_request = Some (c, raw)
    /\ status (fst (serve (identify_tree null_image_request)
                      empty_database)) = 500.
Proof.
  assert (match answered null_image_request with
          | Some (_, raw) =>
              match coalesce (get (get_index (get raw "results") 0)
                                "images") (VArr []) with
              | VArr items => existsb nullish items
              | _ => false
              end
          | None => false
          end = true) as H by (vm_compute; reflexivity).
  destruct (answered null_image_request) as [[c raw]|] eqn:A;
    [|discriminate H].
  exists c, raw. split; [reflexivity|].
  apply (@malformed_images_write_nothing _ _ null_image_request c raw
           empty_database A).
  cbv zeta.
  destruct (coalesce _ _) as [| |b|n|s|items|props]; try discriminate H.
  right. now exists items.
Defined.

Lemma unparsable_answer_is_unknown_plant_witness :
  exists c,
    identified garbled_answer_request = Some (c, unknown_plant).
Proof.
  assert (match answered garbled_answer_request with
          | Some _ => true
          | None => false
          end = true) as H by (vm_compute; reflexivity).
  destruct (answered garbled_answer_request) as [[c raw]|] eqn:A;
    [|discriminate H].
  exists c.
  exact (@unparsable_answer_is_unknown_plant _ garbled_answer_request c raw
           A eq_refl).
Defined.

Lemma failed_database_call_keeps_earlier_writes_witness :
  exists c i row,
    identified failed_upsert_request = Some (c, i)
    /\ status (fst (serve (identify_tree failed_upsert_request)
                      empty_database)) = 500
    /\ In row (plants (db (snd (serve (identify_tree failed_upsert_request)
                                  empty_database))))
    /\ p_key row = i_plantKey i.
Proof.
  assert (match identified failed_upsert_request with
          | Some _ => true
          | None => false
          end = true) as H by (vm_compute; reflexivity).
  destruct (identified failed_upsert_request) as [[c i]|] eqn:I;
    [|discriminate H].
  destruct (@failed_database_call_keeps_earlier_writes _ _
              failed_upsert_request c i empty_database
              (VObj [(lit "message", VStr (lit "permission denied"))])
              I (or_introl (conj eq_refl eq_refl)))
    as [S [_ [_ [row [Hin [K _]]]]]].
  exists c, i, row. repeat split; assumption.
Defined.

Lemma known_species_keeps_its_plant_row_witness :
  exists c i p s,
    identified oak_request = Some (c, i)
    /\ In p (plants (run [Identify oak_request] empty_database))
    /\ p_key p = i_plantKey i
    /\ sightings (db (snd (serve (identify_tree oak_request)
                             (run [Identify oak_request] empty_database))))
       = sightings (run [Identify oak_request] empty_database) ++ [s]
    /\ s_plant_id s = p_id p.
Proof.
  assert (match identified oak_request,
                plants (run [Identify oak_request] empty_database) with
          | Some (_, i), [p] => jstring_eqb (p_key p) (i_plantKey i)
          | _, _ => false
          end = true) as H by (vm_compute; reflexivity).
  destruct (identified oak_request) as [[c i]|] eqn:I; [|discriminate H].
  destruct (plants (run [Identify oak_request] empty_database))
    as [|p [|p' rest]] eqn:P; try discriminate H.
  apply jstring_eqb_eq in H.
  assert (In p (plants (run [Identify oak_request] empty_database))) as Hin
    by (rewrite P; now left).
  destruct (@known_species_keeps_its_plant_row _ _ [Identify oak_request]
              oak_request c i p I eq_refl eq_refl Hin H)
    as [[s [S Id]] _].
  exists c, i, p, s. rewrite <- P. repeat split; assumption.
Defined.

Lemma status_200_means_stored_witness :
  status (fst (serve (identify_tree oak_request) empty_database)) = 200
  /\ truthy (get (body (fst (serve (identify_tree oak_request)
                              empty_database))) "name") = true.
Proof.
  assert (status (fst (serve (identify_tree oak_request) empty_database))
          = 200) as S by (vm_compute; reflexivity).
  split; [exact S|].
  apply (@status_200_means_stored _ _ oak_request empty_database S).
Defined.

Lemma stored_reference_image_is_shown_witness :
  exists out,
    reference_image oak_image blank = (Next out, blank)
    /\ getRefImageUrl (to_json out) = VStr (lit "https://img.example/s.jpg").
Proof.
  assert (match reference_image oak_image blank with
          | (Next out, _) =>
              match get out "url" with
              | VStr s => jstring_eqb s (lit "https://img.example/s.jpg")
              | _ => false
              end
          | _ => false
          end = true) as H by (vm_compute; reflexivity).
  destruct (silent_reference_image oak_image) as [st S].
  rewrite S in H. rewrite S.
  destruct st as [out|r|x]; try discriminate H.
  exists out. split; [reflexivity|].
  destruct (get out "url") as [| |b|n|s|l|p] eqn:U; try discriminate H.
  apply jstring_eqb_eq in H. subst s.
  destruct (@stored_reference_image_is_shown _ oak_image out blank blank
              (S blank)) as [_ R].
  - now rewrite U.
  - now rewrite R, U.
Defined.

Lemma name_outside_slug_alphabet_gives_empty_key_witness :
  rawKey unnamed_match = VStr (lit "???")
  /\ plantKey unnamed_match = []
  /\ error (fst (load {| v_plantKey := [];
                         v_log := None;
                         v_log_error := None;
                         v_entry_error := None;
                         v_create_error := None;
                         v_plant_error := false;
                         v_unmounted := None |} initial_page
                   empty_database)) <> None.
Proof.
  assert (rawKey unnamed_match = VStr (lit "???")) as R
    by (vm_compute; reflexivity).
  split; [exact R|].
  destruct (@name_outside_slug_alphabet_gives_empty_key _ unnamed_match
              (lit "???")
              {| v_plantKey := [];
                 v_log := None;
                 v_log_error := None;
                 v_entry_error := None;
                 v_create_error := None;
                 v_plant_error := false;
                 v_unmounted := None |} initial_page empty_database R)
    as [K [_ [Er _]]].
  - vm_compute. reflexivity.
  - vm_compute. reflexivity.
  - split; [exact K|exact Er].
Defined.

Lemma nameless_identification_stays_out_of_plant_log_witness :
  nullish (get (body (fst (serve (identify_taxonomy no_match_request)
                             empty_database))) "scientificName") = true
  /\ List.length (trees (db (snd (serve (identify_taxonomy no_match_request)
                                    empty_database)))) = 1%nat
  /\ plant_log (trees (db (snd (serve (identify_taxonomy no_match_request)
                                  empty_database)))) = [].
Proof.
  assert (nullish (get (body (fst (serve (identify_taxonomy no_match_request)
                                     empty_database))) "scientificName")
          = true) as H by (vm_compute; reflexivity).
  split; [exact H|]. split; [vm_compute; reflexivity|].
  exact (@nameless_identification_stays_out_of_plant_log _ _
           no_match_request empty_database H).
Defined.

Lemma new_identification_is_the_plant_log_row_witness :
  exists v,
    In v (plant_log (trees (run [IdentifyTaxonomy oak_request;
                                 IdentifyTaxonomy oak_request_later]
                              empty_database)))
    /\ g_scientific_name v = Some (lit "Quercus robur")
    /\ g_last_seen v = now oak_request_later.
Proof.
  assert (status (fst (serve (identify_taxonomy oak_request_later)
                         (run [IdentifyTaxonomy oak_request] empty_database)))
          = 200) as S by (vm_compute; reflexivity).
  assert (get (body (fst (serve (identify_taxonomy oak_request_later)
                            (run [IdentifyTaxonomy oak_request]
                               empty_database)))) "scientificName"
          = VStr (lit "Quercus robur")) as Nm by (vm_compute; reflexivity).
  assert (forallb (fun t => (t_created_at t <? now oak_request_later)%Z)
            (trees (run [IdentifyTaxonomy oak_request] empty_database))
          = true) as Old by (vm_compute; reflexivity).
  destruct (@new_identification_is_the_plant_log_row _ _ oak_request_later
              (run [IdentifyTaxonomy oak_request] empty_database)
              (lit "Quercus robur") S Nm)
    as [v [Hin [Hn [Hl _]]]].
  - intros t Ht _. rewrite forallb_forall in Old.
    apply Z.ltb_lt. now apply Old.
  - exists v. repeat split; assumption.
Defined.

Lemma new_tree_is_first_on_log_page_witness :
  exists first rest,
    lg_rows (LogPage_load None
               (run [IdentifyTaxonomy oak_request;
                     IdentifyTaxonomy oak_request_later] empty_database))
    = first :: rest
    /\ r_created_at first = now oak_request_later.
Proof.
  assert (status (fst (serve (identify_taxonomy oak_request_later)
                         (run [IdentifyTaxonomy oak_request] empty_database)))
          = 200) as S by (vm_compute; reflexivity).
  assert (forallb (fun t => (t_created_at t <? now oak_request_later)%Z)
            (trees (run [IdentifyTaxonomy oak_request] empty_database))
          = true) as Old by (vm_compute; reflexivity).
  destruct (@new_tree_is_first_on_log_page _ _ oak_request_later
              (run [IdentifyTaxonomy oak_request] empty_database) S)
    as [first [rest [R [Cr _]]]].
  - intros t Ht. rewrite forallb_forall in Old.
    apply Z.ltb_lt. now apply Old.
  - exists first, rest. split; assumption.
Defined.

Lemma saved_entry_is_loaded_again_witness :
  displayName (fst (load oak_visit initial_page
                      (snd (save oak_submit oak_form empty_database))))
  = lit "Old oak"
  /\ notes (fst (load oak_visit initial_page
                   (snd (save oak_submit oak_form empty_database))))
     = lit "by the pond".
Proof.
  assert (lit "quercus-robur" <> []) as Ne by discriminate.
  assert (entry_keys_unique empty_database) as ND by constructor.
  destruct (@saved_entry_is_loaded_again _ oak_submit oak_form initial_page
              oak_visit empty_database eq_refl ND eq_refl Ne eq_refl
              eq_refl eq_refl)
    as [_ [_ [Dn [Nt _]]]].
  split.
  - rewrite Dn. vm_compute. reflexivity.
  - rewrite Nt. vm_compute. reflexivity.
Defined.

Lemma detail_page_finds_identified_plant_witness :
  exists c i r,
    identified oak_request = Some (c, i)
    /\ v_plantKey oak_visit = i_plantKey i
    /\ plant (fst (load oak_visit initial_page
                     (perform (Identify oak_request)
                        (run [] empty_database)))) = Some r
    /\ p_key r = lit "quercus-robur".
Proof.
  assert (match identified oak_request with
          | Some (_, i) => jstring_eqb (lit "quercus-robur") (i_plantKey i)
          | None => false
          end = true) as H by (vm_compute; reflexivity).
  destruct (identified oak_request) as [[c i]|] eqn:I; [|discriminate H].
  apply jstring_eqb_eq in H.
  assert (i_plantKey i <> []) as Ne by (rewrite <- H; discriminate).
  destruct (@detail_page_finds_identified_plant _ _ [] oak_request c i
              oak_visit initial_page I (or_introl eq_refl) H Ne eq_refl
              eq_refl eq_refl eq_refl eq_refl)
    as [r [P [K _]]].
  exists c, i, r. split; [reflexivity|]. split; [exact H|].
  split; [exact P|]. now rewrite K.
Defined.

Lemma title_after_save_witness :
  title (fst (save oak_submit oak_form empty_database)) = lit "Old oak".
Proof.
  destruct (@title_after_save _ oak_submit oak_form empty_database eq_refl)
    as [T _].
  rewrite T. vm_compute. reflexivity.
Defined.

Lemma upload_is_a_leaf_without_location_witness :
  exists c i row,
    up_posted (snd (uploadToSupabase (oak_upload (CallFails [])) oak_chosen))
    = Some oak_upload_body
    /\ identified (posted oak_request oak_upload_body) = Some (c, i)
    /\ c_organ c = VStr (lit "leaf")
    /\ sightings (db (snd (serve (identify_tree
                                    (posted oak_request oak_upload_body))
                             empty_database))) = [row]
    /\ s_lat row = VNull.
Proof.
  assert (up_posted (snd (uploadToSupabase (oak_upload (CallFails []))
                            oak_chosen)) = Some oak_upload_body) as P
    by (vm_compute; reflexivity).
  assert (match identified (posted oak_request oak_upload_body) with
          | Some _ => true
          | None => false
          end = true) as H by (vm_compute; reflexivity).
  destruct (identified (posted oak_request oak_upload_body))
    as [[c i]|] eqn:I; [|discriminate H].
  destruct (@upload_is_a_leaf_without_location _ _
              (oak_upload (CallFails [])) oak_chosen oak_request
              oak_upload_body c i empty_database P I eq_refl eq_refl)
    as [O [_ [_ [row [path [S [La _]]]]]]].
  exists c, i, row. split; [exact P|]. split; [reflexivity|].
  split; [exact O|]. split; [exact S|exact La].
Defined.

Lemma upload_page_shows_the_handler_error_witness :
  up_error
    (fst (uploadToSupabase
            (oak_upload
               (edge_reply (with_servers None None oak_request)
                  empty_database oak_upload_body)) oak_chosen))
  = Some (lit "Image fetch timeout after 15 seconds").
Proof.
  assert (up_posted
            (snd (uploadToSupabase
                    (oak_upload
                       (edge_reply (with_servers None None oak_request)
                          empty_database oak_upload_body)) oak_chosen))
          = Some oak_upload_body) as P by (vm_compute; reflexivity).
  assert (status (fst (serve (identify_tree
                                (posted (with_servers None None oak_request)
                                   oak_upload_body)) empty_database))
          <> 200) as S by (vm_compute; discriminate).
  assert (get (body (fst (serve (identify_tree
                                   (posted (with_servers None None
                                              oak_request)
                                      oak_upload_body)) empty_database)))
            "error"
          = VStr (lit "Image fetch timeout after 15 seconds")) as Er
    by (vm_compute; reflexivity).
  destruct (@upload_page_shows_the_handler_error _ _
              (oak_upload
                 (edge_reply (with_servers None None oak_request)
                    empty_database oak_upload_body)) oak_chosen
              (with_servers None None oak_request) empty_database
              oak_upload_body P eq_refl S)
    as [msg [Hm [_ [Hu _]]]].
  rewrite Hu. rewrite Er in Hm. now injection Hm as <-.
Defined.
